(** * aims-course-csv: slot fetching, aggregation and course/slot merge

    A shallow embedding of [get_slots.py] and [combine_courses_slots.py].

    Conventions of the embedding.
    - A Python [str] is a [string]; the character classes used by the
      scripts ([str.strip], [str.isdigit]) are the ASCII ones.
    - A Python [int] is a [Z].
    - A [dict] is an insertion-ordered association list ([dict_get],
      [dict_set]): iteration order is observable in both scripts.
    - A [set] of strings is a [gset string].
    - A raised exception is the [Raise] case of [outcome]; the remote
      endpoint is an oracle giving the outcome of each call. *)

From Stdlib Require Import ZArith String Ascii List Lia DecimalString.
From stdpp Require Import base decidable option list gmap strings sorting.

Local Open Scope string_scope.
Local Open Scope list_scope.
Local Open Scope Z_scope.

(** ** Python runtime *)

Module Py.

(** Exception classes that occur in the two scripts. *)
Inductive exn :=
| HTTPError | URLError | TimeoutError | ValueError | JSONDecodeError
| ZeroDivisionError | TypeError | OtherError.

Inductive outcome (A : Type) :=
| Return (a : A)
| Raise (e : exn).
Arguments Return {A} a.
Arguments Raise {A} e.

Definition bind {A B} (m : outcome A) (k : A -> outcome B) : outcome B :=
  match m with
  | Return a => k a
  | Raise e => Raise e
  end.

(** [str.isspace] on ASCII: TAB..CR, FS..US and the space. *)
Definition is_space (c : ascii) : bool :=
  let n := N_of_ascii c in
  ((9 <=? n) && (n <=? 13) || (28 <=? n) && (n <=? 32))%N.

Definition is_digit (c : ascii) : bool :=
  let n := N_of_ascii c in ((48 <=? n) && (n <=? 57))%N.

Fixpoint lstrip (s : string) : string :=
  match s with
  | EmptyString => EmptyString
  | String c r => if is_space c then lstrip r else s
  end.

Definition rstrip (s : string) : string :=
  String.rev (lstrip (String.rev s)).

(** [s.strip()] *)
Definition strip (s : string) : string := rstrip (lstrip s).

Fixpoint all_digits (s : string) : bool :=
  match s with
  | EmptyString => true
  | String c r => is_digit c && all_digits r
  end.

(** [s.isdigit()]: non-empty and only digits. *)
Definition isdigit (s : string) : bool :=
  match s with
  | EmptyString => false
  | _ => all_digits s
  end.

Fixpoint int_of_digits (acc : Z) (s : string) : Z :=
  match s with
  | EmptyString => acc
  | String c r => int_of_digits (10 * acc + (Z.of_N (N_of_ascii c) - 48)) r
  end.

(** [int(s)] for a string with [s.isdigit()]. *)
Definition int_of_str (s : string) : Z := int_of_digits 0 s.

(** [str(n)] for an int. *)
Definition str_of_int (n : Z) : string := NilZero.string_of_int (Z.to_int n).

(** Truth value of a string: [if s]. *)
Definition truthy (s : string) : bool :=
  match s with EmptyString => false | _ => true end.

(** [sep.join(l)] *)
Fixpoint join (sep : string) (l : list string) : string :=
  match l with
  | [] => ""
  | [x] => x
  | x :: r => x +:+ sep +:+ join sep r
  end.

(** *** dict: insertion-ordered association list *)
Section Dict.
Context {K V : Type} `{EqDecision K}.

Definition dict := list (K * V).

Fixpoint dict_get (d : dict) (k : K) : option V :=
  match d with
  | [] => None
  | (k', v) :: r => if decide (k' = k) then Some v else dict_get r k
  end.

(** [d[k] = v]: overwrite in place, or append a new key. *)
Fixpoint dict_set (d : dict) (k : K) (v : V) : dict :=
  match d with
  | [] => [(k, v)]
  | (k', v') :: r =>
      if decide (k' = k) then (k', v) :: r else (k', v') :: dict_set r k v
  end.

(** [k in d] *)
Definition dict_mem (d : dict) (k : K) : bool :=
  match dict_get d k with Some _ => true | None => false end.

(** [d.get(k, dflt)] *)
Definition dict_get_default (d : dict) (k : K) (dflt : V) : V :=
  match dict_get d k with Some v => v | None => dflt end.

Definition dict_keys (d : dict) : list K := map fst d.
Definition dict_values (d : dict) : list V := map snd d.
End Dict.
Arguments dict K V : clear implicits.

(** *** sorted: a stable sort given the strict order on the keys *)
Section Sorted.
Context {A : Type} (lt : A -> A -> bool).

(** [x] goes before the first element that is strictly greater, hence
    after every element that compares equal: the order of equal
    elements is kept. *)
Fixpoint insert_sorted (x : A) (l : list A) : list A :=
  match l with
  | [] => [x]
  | y :: r => if lt x y then x :: y :: r else y :: insert_sorted x r
  end.

Definition sorted (l : list A) : list A :=
  fold_left (fun acc x => insert_sorted x acc) l [].
End Sorted.

(** Tuple comparison [(a1, b1) < (a2, b2)] on pairs of strings. *)
Definition pair_ltb (p q : string * string) : bool :=
  match String.compare (fst p) (fst q) with
  | Lt => true
  | Gt => false
  | Eq => String.ltb (snd p) (snd q)
  end.

End Py.

Import Py.

(** ** datetime *)

Module Datetime.

Record datetime := mk_datetime {
  year : Z; month : Z; day : Z;
  hour : Z; minute : Z; second : Z; microsecond : Z
}.

(** [datetime(y, m, d)] *)
Definition date (y m d : Z) : datetime := mk_datetime y m d 0 0 0 0.

Definition fields (d : datetime) : list Z :=
  [year d; month d; day d; hour d; minute d; second d; microsecond d].

Fixpoint lex_compare (a b : list Z) : comparison :=
  match a, b with
  | [], [] => Eq
  | [], _ :: _ => Lt
  | _ :: _, [] => Gt
  | x :: a', y :: b' =>
      match Z.compare x y with
      | Eq => lex_compare a' b'
      | c => c
      end
  end.

(** Naive datetimes compare field by field. *)
Definition compare (a b : datetime) : comparison :=
  lex_compare (fields a) (fields b).

(** [a <= b] *)
Definition leb (a b : datetime) : bool :=
  match compare a b with Gt => false | _ => true end.

End Datetime.

Import Datetime.

(** ** Data shared by the two scripts: rows of a CSV file and slots.json *)

(** A row of [csv.DictReader]: column name to cell. An absent column stands
    for a cell that is missing or [None]. *)
Definition csv_row := dict string string.

(** [(row.get(k) or '').strip()] *)
Definition cell (row : csv_row) (k : string) : string :=
  strip (dict_get_default row k "").

(** One element of the ["slots"] list of slots.json. *)
Record slot_entry := mk_slot_entry {
  courseSlotId : string;
  courseSlotCd : string;
  segName : string;
  slotPeriodCdDays : list string
}.

(** One value of slots.json. *)
Record json_course := mk_json_course {
  j_rcid : string;
  j_ccode : string;
  j_cname : string;
  j_slots : list slot_entry
}.

(** ** combine_courses_slots.py *)

Module Combine.

Section WithStrptime.

(** [datetime.strptime(s, '%d %b, %Y %H:%M')], a library function: it
    returns a datetime or raises. *)
Variable strptime : string -> outcome datetime.

Definition parse_date (date_str : string) : option datetime :=
  match strptime (strip date_str) with
  | Return d => Some d
  | Raise _ => None
  end.

Definition jan_05 := date 2026 1 5.
Definition feb_09 := date 2026 2 9.
Definition feb_10 := date 2026 2 10.
Definition feb_26 := date 2026 2 26.
Definition mar_09 := date 2026 3 9.
Definition mar_20 := date 2026 3 20.
Definition mar_23 := date 2026 3 23.
Definition apr_27 := date 2026 4 27.

Definition determine_segment (start_dt end_dt : option datetime) : string :=
  match start_dt, end_dt with
  | Some start_dt, Some end_dt =>
      let start_seg :=
        if Datetime.leb start_dt jan_05 then 1
        else if Datetime.leb start_dt feb_10 then 2
        else if Datetime.leb start_dt feb_26 then 3
        else if Datetime.leb start_dt mar_23 then 4
        else 5 in
      let end_seg :=
        if Datetime.leb end_dt feb_09 then 2
        else if Datetime.leb end_dt mar_09 then 3
        else if Datetime.leb end_dt mar_20 then 4
        else if Datetime.leb end_dt apr_27 then 6
        else 6 in
      if negb (start_seg =? 0)%Z && negb (end_seg =? 0)%Z
      then str_of_int start_seg +:+ "-" +:+ str_of_int end_seg
      else ""
  | _, _ => ""
  end.

(** A value of the [courses] dict. *)
Record course := mk_course {
  rcid : string;
  ccode : string;
  cname : string;
  coordname : string;
  ccrd : string;
  segment : string;
  slots : string
}.

Definition set_slots (c : course) (s : string) : course :=
  mk_course (rcid c) (ccode c) (cname c) (coordname c) (ccrd c) (segment c) s.

Definition set_segment (c : course) (s : string) : course :=
  mk_course (rcid c) (ccode c) (cname c) (coordname c) (ccrd c) s (slots c).

(** The course built from a metadata row. *)
Definition course_of_row (rcid : string) (row : csv_row) : course :=
  let strtdt := cell row "strtdt" in
  let enddt := cell row "enddt" in
  let start_dt := parse_date strtdt in
  let end_dt := parse_date enddt in
  let segment := determine_segment start_dt end_dt in
  mk_course rcid (cell row "ccode") (cell row "cname")
            (cell row "coordname") (cell row "ccrd") segment "".

(** Body of [for row in reader]. *)
Definition read_row (courses : dict string course) (row : csv_row)
  : dict string course :=
  let rcid := cell row "rcid" in
  if negb (truthy rcid) then courses
  else if negb (dict_mem courses rcid)
       then dict_set courses rcid (course_of_row rcid row)
       else courses.

(** Body of [for csv_file in [...]]: a file that does not exist is
    [None]. *)
Definition read_file (courses : dict string course)
    (file : option (list csv_row)) : dict string course :=
  match file with
  | None => courses
  | Some rows => fold_left read_row rows courses
  end.

Definition read_courses (files : list (option (list csv_row)))
  : dict string course :=
  fold_left read_file files [].

(** The two maps filled from slots.json and slots.csv. *)
Record slot_maps := mk_slot_maps {
  slots_map : dict string string;
  segment_map : dict string string
}.

(** Body of [for slot in course.get('slots', [])]. *)
Definition read_slot (rcid : string) (m : slot_maps) (slot : slot_entry)
  : slot_maps :=
  let slot_cd := strip (courseSlotCd slot) in
  let seg_name := strip (segName slot) in
  let sm := if truthy slot_cd then dict_set (slots_map m) rcid slot_cd
            else slots_map m in
  let gm := if truthy seg_name then dict_set (segment_map m) rcid seg_name
            else segment_map m in
  mk_slot_maps sm gm.

(** [for rcid, course in data.items()] *)
Definition read_slots_json (data : dict string json_course) (m : slot_maps)
  : slot_maps :=
  fold_left (fun m '(rcid, course) => fold_left (read_slot rcid) (j_slots course) m)
            data m.

(** [s.lower()] *)
Definition lower_char (c : ascii) : ascii :=
  let n := N_of_ascii c in
  if ((65 <=? n) && (n <=? 90))%N then ascii_of_N (n + 32) else c.

Fixpoint lower (s : string) : string :=
  match s with
  | EmptyString => EmptyString
  | String c r => String (lower_char c) (lower r)
  end.

(** [needle in hay] *)
Fixpoint contains (needle hay : string) : bool :=
  if String.prefix needle hay then true
  else match hay with
       | EmptyString => false
       | String _ r => contains needle r
       end.

(** [next((k for k in row.keys() if p(k)), dflt)] *)
Definition first_key (p : string -> bool) (row : csv_row) (dflt : string)
  : string :=
  match List.find p (dict_keys row) with
  | Some k => k
  | None => dflt
  end.

(** The three cells the fallback loop reads from a row of slots.csv:
    the column is the first one whose name contains the word, and the
    word itself when there is none. *)
Definition csv_rcid (row : csv_row) : string :=
  let rcid_key := first_key (fun k => contains "rcid" (lower k)) row "rcid" in
  cell row rcid_key.

Definition csv_slot (row : csv_row) : string :=
  let slot_key := first_key (contains "courseSlotCd") row "courseSlotCd" in
  cell row slot_key.

Definition csv_segment (row : csv_row) : string :=
  let seg_key := first_key (contains "segName") row "segName" in
  cell row seg_key.

(** Body of the fallback loop over the rows of slots.csv. *)
Definition read_csv_slot (m : slot_maps) (row : csv_row) : slot_maps :=
  let rcid := csv_rcid row in
  let slot := csv_slot row in
  let segment := csv_segment row in
  if truthy rcid then
    let sm := if truthy slot then dict_set (slots_map m) rcid slot
              else slots_map m in
    let gm := if truthy segment then dict_set (segment_map m) rcid segment
              else segment_map m in
    mk_slot_maps sm gm
  else m.

(** Reading slots.json when it exists, then slots.csv when [slots_map]
    is still empty and slots.csv exists. *)
Definition read_slots (json : option (dict string json_course))
    (csv : option (list csv_row)) : slot_maps :=
  let m := mk_slot_maps [] [] in
  let m := match json with
           | Some data => read_slots_json data m
           | None => m
           end in
  match slots_map m, csv with
  | [], Some rows => fold_left read_csv_slot rows m
  | _, _ => m
  end.

(** Body of the merge loop. *)
Definition merge_course (m : slot_maps) (rcid : string) (c : course)
  : course :=
  let c := match dict_get (slots_map m) rcid with
           | Some s => set_slots c s
           | None => c
           end in
  match dict_get (segment_map m) rcid with
  | Some s => set_segment c s
  | None => c
  end.

Definition merge (m : slot_maps) (courses : dict string course)
  : dict string course :=
  map (fun '(rcid, c) => (rcid, merge_course m rcid c)) courses.

(** [sorted(courses.values(), key=lambda x: x['ccode'])] *)
Definition sorted_courses (courses : dict string course) : list course :=
  sorted (fun a b => String.ltb (ccode a) (ccode b)) (dict_values courses).

(** The row written for a course. *)
Definition output_row (c : course) : list string :=
  [ccode c; cname c; coordname c; ccrd c; segment c; slots c].

(** The whole script: the merged courses, in output order. *)
Definition merged_courses (files : list (option (list csv_row)))
    (json : option (dict string json_course))
    (csv : option (list csv_row)) : list course :=
  let courses := read_courses files in
  let m := read_slots json csv in
  sorted_courses (merge m courses).

(** The rows of courses_with_slots.csv after the header. *)
Definition output_rows (files : list (option (list csv_row)))
    (json : option (dict string json_course))
    (csv : option (list csv_row)) : list (list string) :=
  map output_row (merged_courses files json csv).

End WithStrptime.

End Combine.

(** ** get_slots.py *)

Module GetSlots.

Record CourseMeta := mk_CourseMeta {
  rcid : string;
  ccode : string;
  cname : string
}.

(** Body of [for row in reader] in [read_courses]. *)
Definition read_row (courses : dict string CourseMeta) (row : csv_row)
  : dict string CourseMeta :=
  let rcid := cell row "rcid" in
  if negb (truthy rcid) then courses
  else if dict_mem courses rcid then courses
  else dict_set courses rcid
         (mk_CourseMeta rcid (cell row "ccode") (cell row "cname")).

(** A path that does not exist, or a file without a header, is [None]. *)
Definition read_courses (csv_paths : list (option (list csv_row)))
  : dict string CourseMeta :=
  fold_left (fun courses file =>
               match file with
               | None => courses
               | Some rows => fold_left read_row rows courses
               end) csv_paths [].

(** [range(start, stop, step)] for a positive step, as the loop it is:
    [i = start; while i < stop: yield i; i += step]. The loop runs at
    most [stop - start] times. *)
Fixpoint range_loop (fuel : nat) (i stop step : Z) : list Z :=
  match fuel with
  | O => []
  | S fuel => if i <? stop then i :: range_loop fuel (i + step) stop step
              else []
  end.

Definition range (start stop step : Z) : list Z :=
  range_loop (Z.to_nat (stop - start)) start stop step.

(** [values[i:j]] for [0 <= i <= j]. *)
Definition slice {A} (values : list A) (i j : Z) : list A :=
  firstn (Z.to_nat (j - i)) (skipn (Z.to_nat i) values).

(** [len(values)] *)
Definition len {A} (values : list A) : Z := Z.of_nat (length values).

(** The batches the generator yields, or the exception it raises on its
    first [next]. *)
Definition chunked (values : list string) (n : Z)
  : outcome (list (list string)) :=
  if n <=? 0 then Raise ValueError
  else Return (map (fun i => slice values i (i + n))
                   (range 0 (len values) n)).

(** *** Rows of the remote endpoint *)

(** The values the fields of a row take: [null], booleans, integers and
    strings. *)
Inductive scalar :=
| JNull
| JBool (b : bool)
| JInt (n : Z)
| JStr (s : string).

Definition item := dict string scalar.

(** [str(it.get(k, "") or "").strip()] *)
Definition field (it : item) (k : string) : string :=
  strip match dict_get it k with
        | None => ""
        | Some JNull => ""
        | Some (JBool false) => ""
        | Some (JBool true) => "True"
        | Some (JInt n) => if (n =? 0)%Z then "" else str_of_int n
        | Some (JStr s) => s
        end.

(** *** The aggregation maps *)

Definition slot_key : Type := string * string * string.

Record agg := mk_agg {
  slot_map : dict slot_key (gset string);
  segment_map : dict slot_key string
}.

(** [slot_map[key].add(day_time)] on a [defaultdict(set)]. *)
Definition add_day_time (m : dict slot_key (gset string)) (key : slot_key)
    (day_time : string) : dict slot_key (gset string) :=
  dict_set m key ({[ day_time ]} ∪ dict_get_default m key ∅).

(** Body of [for it in items]. *)
Definition process_item (st : agg) (it : item) : agg :=
  let rcid := field it "runningCourseId" in
  let slot_id := field it "courseSlotId" in
  let slot_cd := field it "courseSlotCd" in
  let day_time := field it "slotPeriodCdDays" in
  let seg_name := field it "segName" in
  if negb (truthy rcid) || negb (truthy day_time) then st
  else
    let key := (rcid, slot_id, slot_cd) in
    let sm := add_day_time (slot_map st) key day_time in
    let gm := if truthy seg_name && negb (dict_mem (segment_map st) key)
              then dict_set (segment_map st) key seg_name
              else segment_map st in
    mk_agg sm gm.

Definition process_items (st : agg) (items : list item) : agg :=
  fold_left process_item items st.

(** *** The fetch loop *)

(** What the run does that can be observed from outside. *)
Inductive event :=
| Call (batch : list string)
| Fetched (batch_index total_batches courses rows : Z)
| Warn (batch_index total_batches attempt : Z)
| Failed (batch_index total_batches : Z)
| Sleep (ms : Z).

Record fetch_state := mk_fetch_state {
  st_agg : agg;
  st_trace : list event
}.

Definition emit (e : event) (st : fetch_state) : fetch_state :=
  mk_fetch_state (st_agg st) (st_trace st ++ [e]).

(** Number of remote calls made so far. *)
Definition is_call (e : event) : bool :=
  match e with Call _ => true | _ => false end.

Definition calls (tr : list event) : nat :=
  length (List.filter is_call tr).

(** The exceptions of the [except] clause. *)
Definition caught (e : exn) : bool :=
  match e with
  | HTTPError | URLError | TimeoutError | ValueError | JSONDecodeError => true
  | _ => false
  end.

Section Fetch.

(** [post_timetable]: the outcome of the call made after [n] earlier
    calls, for the ids it is given. *)
Variable post_timetable : nat -> list string -> outcome (list item).
Variables (retries sleep_ms total_batches : Z).

(** [while True] of one batch; [attempt] is its value on entry. The
    result is the state after the loop and the exception that leaves
    it, if any; [None] when [fuel] iterations did not reach a
    [break]. *)
Fixpoint attempt_loop (fuel : nat) (batch_index : Z) (batch : list string)
    (attempt : Z) (st : fetch_state) : option (fetch_state * option exn) :=
  match fuel with
  | O => None
  | S fuel =>
      let attempt := attempt + 1 in
      let r := post_timetable (calls (st_trace st)) batch in
      let st := emit (Call batch) st in
      match r with
      | Return items =>
          let st := mk_fetch_state (process_items (st_agg st) items)
                                   (st_trace st) in
          Some (emit (Fetched batch_index total_batches (len batch) (len items)) st,
                None)
      | Raise ex =>
          if caught ex then
            if attempt <=? retries + 1 then
              attempt_loop fuel batch_index batch attempt
                (emit (Sleep 800) (emit (Warn batch_index total_batches attempt) st))
            else Some (emit (Failed batch_index total_batches) st, None)
          else Some (st, Some ex)
      end
  end.

(** [for batch_index, batch in enumerate(..., start=1)] from
    [batch_index] on. *)
Fixpoint batch_loop (fuel : nat) (batch_index : Z)
    (batches : list (list string)) (st : fetch_state)
  : option (fetch_state * option exn) :=
  match batches with
  | [] => Some (st, None)
  | batch :: rest =>
      match attempt_loop fuel batch_index batch 0 st with
      | None => None
      | Some (st, Some ex) => Some (st, Some ex)
      | Some (st, None) =>
          batch_loop fuel (batch_index + 1) rest
                     (emit (Sleep (Z.max 0 sleep_ms)) st)
      end
  end.

End Fetch.

(** *** slots.json *)

(** Body of [for (rcid, slot_id, slot_cd), day_times in slot_map.items()]. *)
Definition add_json_slot (courses : dict string CourseMeta)
    (segment_map : dict slot_key string)
    (out_json : dict string json_course)
    (kv : slot_key * gset string) : dict string json_course :=
  let '((rcid, slot_id, slot_cd), day_times) := kv in
  let course := dict_get_default courses rcid (mk_CourseMeta rcid "" "") in
  let seg_name := dict_get_default segment_map (rcid, slot_id, slot_cd) "" in
  let entry := dict_get_default out_json rcid
                 (mk_json_course rcid (ccode course) (cname course) []) in
  let slot := mk_slot_entry slot_id slot_cd seg_name
                            (sorted String.ltb (elements day_times)) in
  dict_set out_json rcid
    (mk_json_course (j_rcid entry) (j_ccode entry) (j_cname entry)
                    (j_slots entry ++ [slot])).

(** [out_json[rcid]["slots"].sort(key=...)] *)
Definition sort_slots (c : json_course) : json_course :=
  mk_json_course (j_rcid c) (j_ccode c) (j_cname c)
    (sorted (fun a b => pair_ltb (courseSlotId a, courseSlotCd a)
                                 (courseSlotId b, courseSlotCd b))
            (j_slots c)).

Definition build_json (courses : dict string CourseMeta) (st : agg)
  : dict string json_course :=
  map (fun '(rcid, c) => (rcid, sort_slots c))
      (fold_left (add_json_slot courses (segment_map st)) (slot_map st) []).

(** *** slots.csv *)

(** [csv.DictWriter.writerow] with the default [extrasaction='raise'] and
    [restval='']: the cells of the row, or [ValueError] when the dict has
    a key that is not a field name. *)
Definition writerow (fieldnames : list string) (rowdict : dict string string)
  : outcome (list string) :=
  let wrong_fields :=
    List.filter (fun k => negb (bool_decide (k ∈ fieldnames)))
                (dict_keys rowdict) in
  match wrong_fields with
  | [] => Return (map (fun k => dict_get_default rowdict k "") fieldnames)
  | _ :: _ => Raise ValueError
  end.

Definition csv_fieldnames : list string :=
  ["rcid"; "ccode"; "cname"; "cegName"; "slotPeriodCdDays"].

(** The dict passed to [writer.writerow] for one key. *)
Definition csv_rowdict (courses : dict string CourseMeta) (st : agg)
    (key : slot_key) : dict string string :=
  let '(rcid, slot_id, slot_cd) := key in
  let course := dict_get_default courses rcid (mk_CourseMeta rcid "" "") in
  let day_times := sorted String.ltb
                     (elements (dict_get_default (slot_map st) key ∅)) in
  let seg_name := dict_get_default (segment_map st) key "" in
  [("rcid", rcid); ("ccode", ccode course); ("cname", cname course);
   ("courseSlotId", slot_id); ("courseSlotCd", slot_cd);
   ("segName", seg_name); ("slotPeriodCdDays", join " | " day_times)].

(** The sort key [int(x) if x.isdigit() else x]. *)
Inductive int_or_str :=
| KInt (n : Z)
| KStr (s : string).

Definition id_key (x : string) : int_or_str :=
  if isdigit x then KInt (int_of_str x) else KStr x.

Definition is_int (k : int_or_str) : bool :=
  match k with KInt _ => true | KStr _ => false end.

(** [a < b] on keys of the same kind. *)
Definition id_key_ltb (a b : int_or_str) : bool :=
  match a, b with
  | KInt x, KInt y => x <? y
  | KStr x, KStr y => String.ltb x y
  | _, _ => false
  end.

Definition id_key_eqb (a b : int_or_str) : bool :=
  match a, b with
  | KInt x, KInt y => (x =? y)%Z
  | KStr x, KStr y => String.eqb x y
  | _, _ => false
  end.

(** Comparing an int with a str raises [TypeError]: a list whose keys
    are of both kinds cannot be sorted. *)
Definition same_kind (ks : list int_or_str) : bool :=
  forallb is_int ks || forallb (fun k => negb (is_int k)) ks.

(** [sorted(courses.keys(), key=lambda x: int(x) if x.isdigit() else x)].
    The key is the one of Python on ids of ASCII characters that [int]
    converts ([Spec.plain_id]); an id with a digit outside ASCII, on which
    [isdigit] holds and [int] raises [ValueError], is not in the range of
    this model. *)
Definition sorted_rcids (keys : list string) : outcome (list string) :=
  if same_kind (map id_key keys)
  then Return (sorted (fun a b => id_key_ltb (id_key a) (id_key b)) keys)
  else Raise TypeError.

(** Tuple comparison of the keys [(int-or-str, k[1], k[2])]. *)
Definition slot_key_ltb (a b : slot_key) : bool :=
  let '(r1, s1, c1) := a in
  let '(r2, s2, c2) := b in
  if id_key_eqb (id_key r1) (id_key r2)
  then pair_ltb (s1, c1) (s2, c2)
  else id_key_ltb (id_key r1) (id_key r2).

Definition sorted_slot_keys (keys : list slot_key) : outcome (list slot_key) :=
  if same_kind (map (fun k => id_key (fst (fst k))) keys)
  then Return (sorted slot_key_ltb keys)
  else Raise TypeError.

(** The rows written one after the other, up to the first that raises. *)
Fixpoint write_rows (courses : dict string CourseMeta) (st : agg)
    (keys : list slot_key) : list (list string) * option exn :=
  match keys with
  | [] => ([], None)
  | key :: rest =>
      match writerow csv_fieldnames (csv_rowdict courses st key) with
      | Raise ex => ([], Some ex)
      | Return row =>
          let '(rows, r) := write_rows courses st rest in (row :: rows, r)
      end
  end.

(** The [with ... open("w")] block: the lines of slots.csv and the
    exception that leaves the block, if any. *)
Definition write_csv (courses : dict string CourseMeta) (st : agg)
  : list (list string) * option exn :=
  match sorted_slot_keys (dict_keys (slot_map st)) with
  | Raise ex => ([csv_fieldnames], Some ex)
  | Return keys =>
      let '(rows, r) := write_rows courses st keys in
      (csv_fieldnames :: rows, r)
  end.

(** *** main *)

Record args := mk_args {
  student_id : string;
  cookie : string;
  batch_size : Z;
  sleep_ms : Z;
  retries : Z;
  env_student_id : string;
  env_cookie : string
}.

(** What a run leaves behind: the exit status or the uncaught exception,
    the observable events, and the two files when they were opened. *)
Record run := mk_run {
  exit : outcome Z;
  trace : list event;
  out_json : option (dict string json_course);
  out_csv : option (list (list string))
}.

Definition main (post_timetable : nat -> list string -> outcome (list item))
    (fuel : nat) (a : args) (csv_paths : list (option (list csv_row)))
  : option run :=
  let student_id := if truthy (student_id a) then student_id a
                    else env_student_id a in
  let cookie := if truthy (cookie a) then cookie a else env_cookie a in
  if negb (truthy student_id) then Some (mk_run (Return 2) [] None None)
  else if negb (truthy cookie) then Some (mk_run (Return 2) [] None None)
  else
    let courses := read_courses csv_paths in
    match sorted_rcids (dict_keys courses) with
    | Raise ex => Some (mk_run (Raise ex) [] None None)
    | Return [] => Some (mk_run (Return 2) [] None None)
    | Return rcids =>
        if (batch_size a =? 0)%Z
        then Some (mk_run (Raise ZeroDivisionError) [] None None)
        else
          let total_batches := (len rcids + batch_size a - 1) / batch_size a in
          match chunked rcids (batch_size a) with
          | Raise ex => Some (mk_run (Raise ex) [] None None)
          | Return batches =>
              match batch_loop post_timetable (retries a) (sleep_ms a)
                      total_batches fuel 1 batches
                      (mk_fetch_state (mk_agg [] []) []) with
              | None => None
              | Some (st, Some ex) =>
                  Some (mk_run (Raise ex) (st_trace st) None None)
              | Some (st, None) =>
                  let json := build_json courses (st_agg st) in
                  match write_csv courses (st_agg st) with
                  | (rows, Some ex) =>
                      Some (mk_run (Raise ex) (st_trace st) (Some json) (Some rows))
                  | (rows, None) =>
                      Some (mk_run (Return 0) (st_trace st) (Some json) (Some rows))
                  end
              end
          end
    end.

End GetSlots.

(** ** setup/parse_combo_response.py *)

Module ParseCombo.

(** An element of ["comboData"]: its ["list"] of columns, each with its
    [columnAlias] and its [columnValue] (as the text the CSV writer emits
    for it). An absent alias or value is the empty string. *)
Definition entry := list (string * string).

(** The headers: the non-empty aliases of the first record, in order. *)
Definition headers_of (first : entry) : list string :=
  map fst (List.filter (fun item => truthy (fst item)) first).

(** The [row] dict built from a record. *)
Definition row_of (e : entry) : dict string string :=
  fold_left (fun row item =>
               let '(column_alias, column_value) := item in
               if truthy column_alias then dict_set row column_alias column_value
               else row) e [].

(** [writer.writerows(rows)]: the rows written one after the other, up to
    the first that raises. *)
Fixpoint writerows (headers : list string) (rows : list (dict string string))
  : list (list string) * option exn :=
  match rows with
  | [] => ([], None)
  | row :: rest =>
      match GetSlots.writerow headers row with
      | Raise ex => ([], Some ex)
      | Return cells =>
          let '(written, r) := writerows headers rest in (cells :: written, r)
      end
  end.

(** [parse_combo_data_to_csv]: [None] when there is no combo data (the
    function returns before the CSV file is opened), else the lines
    written and the exception that leaves the function, if any. *)
Definition parse_combo_data_to_csv (combo_data : list entry)
  : option (list (list string) * option exn) :=
  match combo_data with
  | [] => None
  | first :: _ =>
      let headers := headers_of first in
      let rows := map row_of combo_data in
      let '(written, r) := writerows headers rows in
      Some (headers :: written, r)
  end.

End ParseCombo.

(** ** Definitions that follow the words of the specification

    They are compared below with the definitions taken from the code. *)

Module Spec.

(** A bucket by on-or-before comparison: the label of the first boundary
    the date is on or before, the catch-all label past the last one. *)
Fixpoint bucket (bounds : list (datetime * Z)) (catch_all : Z) (d : datetime)
  : Z :=
  match bounds with
  | [] => catch_all
  | (b, label) :: rest =>
      if Datetime.leb d b then label else bucket rest catch_all d
  end.

Definition start_boundaries : list (datetime * Z) :=
  [(date 2026 1 5, 1); (date 2026 2 10, 2); (date 2026 2 26, 3);
   (date 2026 3 23, 4)].

Definition end_boundaries : list (datetime * Z) :=
  [(date 2026 2 9, 2); (date 2026 3 9, 3); (date 2026 3 20, 4);
   (date 2026 4 27, 6)].

(** [a] is strictly before [b]. *)
Definition before (a b : datetime) : Prop := Datetime.compare a b = Lt.

(** [k] is the least number of batches of at most [b] ids that hold [n]
    ids: [k = ceil(n / b)]. *)
Definition is_ceil_div (n b k : Z) : Prop := (k - 1) * b < n <= k * b.

(** The last non-empty string of a list, [dflt] when there is none. *)
Definition last_nonempty_or (dflt : option string) (l : list string)
  : option string :=
  fold_left (fun acc s => if truthy s then Some s else acc) l dflt.

Definition last_nonempty (l : list string) : option string :=
  last_nonempty_or None l.

(** The first non-empty string of a list. *)
Fixpoint first_nonempty (l : list string) : option string :=
  match l with
  | [] => None
  | s :: r => if truthy s then Some s else first_nonempty r
  end.

(** The slots stored for a course in slots.json, in stored order. *)
Definition slots_of (data : dict string json_course) (rcid : string)
  : list slot_entry :=
  flat_map (fun '(r, c) => if decide (r = rcid) then j_slots c else []) data.

Definition json_slots (json : option (dict string json_course))
    (rcid : string) : list slot_entry :=
  match json with
  | Some data => slots_of data rcid
  | None => []
  end.

(** Segment-names and slot-codes of a course in slots.json. *)
Definition json_segments json rcid : list string :=
  map (fun s => strip (segName s)) (json_slots json rcid).

Definition json_codes json rcid : list string :=
  map (fun s => strip (courseSlotCd s)) (json_slots json rcid).

(** slots.json gives no slot-code at all (or does not exist). *)
Definition no_json_code (json : option (dict string json_course)) : bool :=
  match json with
  | Some data =>
      forallb (fun rc => forallb (fun s => negb (truthy (strip (courseSlotCd s))))
                                 (j_slots (snd rc))) data
  | None => true
  end.

(** The rows of slots.csv the merger reads: those of the file when it
    exists and slots.json gave no slot-code. *)
Definition fallback_rows (json : option (dict string json_course))
    (csv : option (list csv_row)) : list csv_row :=
  match csv with
  | Some rows => if no_json_code json then rows else []
  | None => []
  end.

(** Segment-names and slot-codes of a course in rows of slots.csv. *)
Definition csv_rows_of (rows : list csv_row) (rcid : string) : list csv_row :=
  List.filter (fun row => bool_decide (Combine.csv_rcid row = rcid)) rows.

Definition csv_segments rows rcid : list string :=
  map Combine.csv_segment (csv_rows_of rows rcid).

Definition csv_codes rows rcid : list string :=
  map Combine.csv_slot (csv_rows_of rows rcid).

(** The authoritative segment-name of a course: the last non-empty
    segment-name among those the merger reads for it, from slots.json
    and then from the fallback rows. *)
Definition authoritative_segment json csv (rcid : string) : option string :=
  last_nonempty_or (last_nonempty (json_segments json rcid))
                   (csv_segments (fallback_rows json csv) rcid).

(** Likewise for the representative slot-code. *)
Definition representative_code json csv (rcid : string) : option string :=
  last_nonempty_or (last_nonempty (json_codes json rcid))
                   (csv_codes (fallback_rows json csv) rcid).

(** The rows of the metadata files that exist. *)
Definition metadata_rows (files : list (option (list csv_row)))
  : list csv_row :=
  flat_map (fun file => match file with Some rows => rows | None => [] end)
           files.

(** The accepted rows of the endpoint for a key: segment-names in
    arrival order. *)
Definition row_key (it : GetSlots.item) : GetSlots.slot_key :=
  (GetSlots.field it "runningCourseId", GetSlots.field it "courseSlotId",
   GetSlots.field it "courseSlotCd").

Definition accepted (it : GetSlots.item) : bool :=
  truthy (GetSlots.field it "runningCourseId")
  && truthy (GetSlots.field it "slotPeriodCdDays").

Definition key_segments (key : GetSlots.slot_key) (rows : list GetSlots.item)
  : list string :=
  map (fun it => GetSlots.field it "segName")
      (List.filter (fun it => accepted it && bool_decide (row_key it = key))
                   rows).

(** Every attempt of the batch fails with an exception of the [except]
    clause. *)
Definition always_fails
    (post_timetable : nat -> list string -> outcome (list GetSlots.item))
    (batch : list string) : Prop :=
  forall n, exists ex, post_timetable n batch = Raise ex
                       /\ GetSlots.caught ex = true.

(** Calls of the endpoint for a batch in a trace. *)
Definition calls_for (batch : list string) (tr : list GetSlots.event) : nat :=
  length (List.filter
            (fun e => match e with
                      | GetSlots.Call b => bool_decide (b = batch)
                      | _ => false
                      end) tr).

(** An entry of [courses] comes from a metadata row with that id. *)
Definition from_metadata (strptime : string -> outcome datetime)
    (rows : list csv_row) (kc : string * Combine.course) : Prop :=
  truthy (fst kc) = true
  /\ exists row, In row rows /\ cell row "rcid" = fst kc
                 /\ snd kc = Combine.course_of_row strptime (fst kc) row.

(** The metadata fields of an entry of slots.json are those of
    [courses.get], empty for an id that is not in [courses]. *)
Definition meta_ok (courses : dict string GetSlots.CourseMeta)
    (kc : string * json_course) : Prop :=
  let dflt := dict_get_default courses (fst kc)
                (GetSlots.mk_CourseMeta (fst kc) "" "") in
  j_rcid (snd kc) = fst kc
  /\ j_ccode (snd kc) = GetSlots.ccode dflt
  /\ j_cname (snd kc) = GetSlots.cname dflt.

(** The slot of slots.json for a key of the aggregation. *)
Definition slot_of (segment_map : dict GetSlots.slot_key string)
    (kv : GetSlots.slot_key * gset string) : slot_entry :=
  let '((rcid, slot_id, slot_cd), day_times) := kv in
  mk_slot_entry slot_id slot_cd
    (dict_get_default segment_map (rcid, slot_id, slot_cd) "")
    (sorted String.ltb (elements day_times)).

(** A [strptime] that knows four date strings, for the examples. *)
Definition strptime_fixture (s : string) : outcome datetime :=
  if String.eqb s "05 Jan, 2026 00:00" then Return (date 2026 1 5)
  else if String.eqb s "09 Feb, 2026 00:00" then Return (date 2026 2 9)
  else if String.eqb s "10 Feb, 2026 00:00" then Return (date 2026 2 10)
  else if String.eqb s "20 Mar, 2026 00:00" then Return (date 2026 3 20)
  else Raise ValueError.

(** The events of [k] failed attempts that are retried, the first one
    being attempt number [attempt + 1]: the call, the warning and the
    fixed delay. *)
Fixpoint retried (total_batches batch_index : Z) (batch : list string)
    (k : nat) (attempt : Z) : list GetSlots.event :=
  match k with
  | O => []
  | S k => GetSlots.Call batch
           :: GetSlots.Warn batch_index total_batches (attempt + 1)
           :: GetSlots.Sleep 800
           :: retried total_batches batch_index batch k (attempt + 1)
  end.

(** The first row of the metadata with a given course-id. *)
Definition first_row (rows : list csv_row) (rcid : string) : option csv_row :=
  List.find (fun row => bool_decide (cell row "rcid" = rcid)) rows.

(** The [CourseMeta] that [read_courses] builds from a row. *)
Definition meta_of_row (rcid : string) (row : csv_row) : GetSlots.CourseMeta :=
  GetSlots.mk_CourseMeta rcid (cell row "ccode") (cell row "cname").

(** Orders the sorts of the two scripts produce. *)
Definition int_le (a b : string) : Prop := int_of_str a <= int_of_str b.
Definition str_le (a b : string) : Prop := String.leb a b = true.

(** Ids on which the model of [str.isdigit] and [int] is the one of
    Python: ASCII characters only, and no more digits than [int] converts
    (4300). *)
Fixpoint all_ascii (s : string) : bool :=
  match s with
  | EmptyString => true
  | String c r => (N_of_ascii c <? 128)%N && all_ascii r
  end.

Definition plain_id (s : string) : Prop :=
  all_ascii s = true /\ (String.length s <= 4300)%nat.

(** The day/time strings of the accepted rows of a key, in arrival
    order. *)
Definition key_days (key : GetSlots.slot_key) (rows : list GetSlots.item)
  : list string :=
  map (fun it => GetSlots.field it "slotPeriodCdDays")
      (List.filter (fun it => accepted it && bool_decide (row_key it = key))
                   rows).

(** What the aggregation maps satisfy in every run: distinct keys, a
    non-empty course-id and a non-empty day/time set for every key, and a
    segment-name only for keys that have a day/time set, never empty. *)
Definition agg_ok (st : GetSlots.agg) : Prop :=
  NoDup (dict_keys (GetSlots.slot_map st))
  /\ NoDup (dict_keys (GetSlots.segment_map st))
  /\ (forall key days,
         dict_get (GetSlots.slot_map st) key = Some days ->
         fst (fst key) <> "" /\ days <> ∅ /\ "" ∉ days)
  /\ (forall key seg,
         dict_get (GetSlots.segment_map st) key = Some seg ->
         seg <> "" /\ dict_get (GetSlots.slot_map st) key <> None).

(** The rows returned by the calls of a trace, in the order of the calls;
    [n] is the number of calls made before the trace. A call that raised
    gives no row. *)
Fixpoint rows_of_calls
    (post_timetable : nat -> list string -> outcome (list GetSlots.item))
    (n : nat) (tr : list GetSlots.event) : list GetSlots.item :=
  match tr with
  | [] => []
  | GetSlots.Call batch :: tr =>
      match post_timetable n batch with
      | Return items => items
      | Raise _ => []
      end ++ rows_of_calls post_timetable (S n) tr
  | _ :: tr => rows_of_calls post_timetable n tr
  end.

(** The batch indices of the progress and failure reports of a trace. *)
Fixpoint reports (tr : list GetSlots.event) : list Z :=
  match tr with
  | [] => []
  | GetSlots.Fetched batch_index _ _ _ :: tr => batch_index :: reports tr
  | GetSlots.Failed batch_index _ :: tr => batch_index :: reports tr
  | _ :: tr => reports tr
  end.

(** [k] consecutive batch indices from [batch_index] on. *)
Fixpoint batch_indices (batch_index : Z) (k : nat) : list Z :=
  match k with
  | O => []
  | S k => batch_index :: batch_indices (batch_index + 1) k
  end.

(** The exceptions outside the [except] clause that the calls of a trace
    raised, in the order of the calls; [n] is the number of calls made
    before the trace. *)
Fixpoint uncaught_raises
    (post_timetable : nat -> list string -> outcome (list GetSlots.item))
    (n : nat) (tr : list GetSlots.event) : list exn :=
  match tr with
  | [] => []
  | GetSlots.Call batch :: tr =>
      match post_timetable n batch with
      | Return _ => []
      | Raise ex => if GetSlots.caught ex then [] else [ex]
      end ++ uncaught_raises post_timetable (S n) tr
  | _ :: tr => uncaught_raises post_timetable n tr
  end.

(** The result of the fetch loop that the raised exceptions call for:
    the first one that is outside the [except] clause, if any. *)
Definition raised_result (r : option exn) : list exn :=
  match r with
  | Some ex => [ex]
  | None => []
  end.

(** The order of the slot lists of slots.json: by slot-id, then by
    slot-code. *)
Definition slot_le (a b : slot_entry) : Prop :=
  String.compare (courseSlotId a) (courseSlotId b) = Lt
  \/ (courseSlotId a = courseSlotId b
      /\ String.leb (courseSlotCd a) (courseSlotCd b) = true).

(** Number of slots in slots.json. *)
Definition total_slots (json : dict string json_course) : nat :=
  list_sum (map (fun kc => length (j_slots (snd kc))) json).

(** The course-id of a key of the aggregation. *)
Definition key_rcid (kv : GetSlots.slot_key * gset string) : string :=
  fst (fst (fst kv)).

(** What holds of the entries of slots.json built from the keys [seen] of
    the aggregation: distinct course-ids, one slot per key, under the
    course-id of the key. *)
Definition json_inv (segment_map : dict GetSlots.slot_key string)
    (seen : list (GetSlots.slot_key * gset string))
    (acc : dict string json_course) : Prop :=
  NoDup (dict_keys acc)
  /\ total_slots acc = length seen
  /\ (forall k, In k (dict_keys acc) <-> exists kv, In kv seen /\ key_rcid kv = k)
  /\ (forall k c slot,
         In (k, c) acc -> In slot (j_slots c) ->
         exists kv, In kv seen /\ key_rcid kv = k
                    /\ slot = slot_of segment_map kv).

(** The slots of slots.json, each with the course-id it is filed under. *)
Definition json_pairs (json : dict string json_course)
  : list (string * slot_entry) :=
  flat_map (fun kc => map (pair (fst kc)) (j_slots (snd kc))) json.

(** The slots the keys of the aggregation call for, each with the
    course-id of its key. *)
Definition key_pairs (st : GetSlots.agg) : list (string * slot_entry) :=
  map (fun kv => (key_rcid kv, slot_of (GetSlots.segment_map st) kv))
      (GetSlots.slot_map st).

(** The non-empty aliases of a record of the combo data. *)
Definition aliases (e : ParseCombo.entry) : list string :=
  ParseCombo.headers_of e.

(** The value a record gives for an alias: the last one, the empty string
    when it gives none. *)
Definition value_of (e : ParseCombo.entry) (column_alias : string) : string :=
  from_option snd ""
    (List.find (fun item => bool_decide (fst item = column_alias)) (rev e)).

(** The line of the CSV file for a record, under given headers. *)
Definition line_of (headers : list string) (e : ParseCombo.entry)
  : list string :=
  map (value_of e) headers.

(** Every alias of the record is a header. *)
Definition covered (headers : list string) (e : ParseCombo.entry) : Prop :=
  forall a, In a (aliases e) -> In a headers.

End Spec.

(** * Properties *)

(** ** Dictionaries *)

Section DictFacts.
Context {K V : Type} `{EqDecision K}.
Implicit Types (d : dict K V) (k : K) (v : V).

Lemma dict_get_set_eq d k v : dict_get (dict_set d k v) k = Some v.
Proof.
  induction d as [|[k' v'] d IH]; simpl.
  - by rewrite decide_True.
  - destruct (decide (k' = k)) as [->|Hne]; simpl.
    + by rewrite decide_True.
    + by rewrite decide_False.
Qed.

Lemma dict_get_set_ne d k k' v :
  k <> k' -> dict_get (dict_set d k v) k' = dict_get d k'.
Proof.
  intros Hne. induction d as [|[k0 v0] d IH]; simpl.
  - by rewrite decide_False.
  - destruct (decide (k0 = k)) as [->|Hne0]; simpl.
    + by rewrite !decide_False.
    + destruct (decide (k0 = k')); auto.
Qed.

Lemma dict_set_same d k v : dict_get d k = Some v -> dict_set d k v = d.
Proof.
  induction d as [|[k' v'] d IH]; simpl; [done|].
  destruct (decide (k' = k)) as [->|Hne]; intros Hg.
  - by inversion Hg.
  - by rewrite IH.
Qed.

Lemma dict_get_In d k v : dict_get d k = Some v -> In (k, v) d.
Proof.
  induction d as [|[k' v'] d IH]; simpl; [done|].
  destruct (decide (k' = k)) as [->|Hne]; intros Hg.
  - inversion Hg. by left.
  - right. auto.
Qed.

Lemma dict_get_None d k : dict_get d k = None -> ~ In k (dict_keys d).
Proof.
  induction d as [|[k' v'] d IH]; simpl; [tauto|].
  destruct (decide (k' = k)) as [->|Hne]; [done|].
  intros Hg [Heq|Hin]; [done|]. by apply IH.
Qed.

Lemma dict_In_get d k v : In (k, v) d -> exists v', dict_get d k = Some v'.
Proof.
  induction d as [|[k' v'] d IH]; simpl; [tauto|].
  intros [Heq|Hin].
  - inversion Heq; subst. rewrite decide_True; eauto.
  - destruct (decide (k' = k)); eauto.
Qed.

Lemma dict_set_In d k v k' v' :
  In (k', v') (dict_set d k v) -> (k' = k /\ v' = v) \/ In (k', v') d.
Proof.
  induction d as [|[k0 v0] d IH]; simpl.
  - intros [Heq|[]]. inversion Heq. by left.
  - destruct (decide (k0 = k)) as [->|Hne]; simpl.
    + intros [Heq|Hin]; [inversion Heq; by left | by right; right].
    + intros [Heq|Hin]; [by right; left|].
      destruct (IH Hin); [by left | by right; right].
Qed.
End DictFacts.

(** ** The stable sort *)

Section SortedFacts.
Context {A : Type} (lt : A -> A -> bool).

Lemma insert_sorted_perm x l : Permutation (insert_sorted lt x l) (x :: l).
Proof.
  induction l as [|y l IH]; simpl; [done|].
  destruct (lt x y); [done|].
  rewrite IH. apply perm_swap.
Qed.

Lemma fold_insert_perm l acc :
  Permutation (fold_left (fun acc x => insert_sorted lt x acc) l acc)
              (l ++ acc).
Proof.
  revert acc. induction l as [|x l IH]; intros acc; simpl; [done|].
  rewrite IH, insert_sorted_perm. by rewrite Permutation_middle.
Qed.

Lemma sorted_perm l : Permutation (sorted lt l) l.
Proof. unfold sorted. rewrite fold_insert_perm. by rewrite app_nil_r. Qed.

Lemma sorted_In x l : In x (sorted lt l) <-> In x l.
Proof.
  split; apply Permutation_in; [apply sorted_perm|].
  symmetry. apply sorted_perm.
Qed.

Lemma sorted_length l : length (sorted lt l) = length l.
Proof. apply Permutation_length, sorted_perm. Qed.
End SortedFacts.

(** ** The order on datetimes *)

Lemma lex_compare_refl a : lex_compare a a = Eq.
Proof. induction a as [|x a IH]; simpl; [done|]. by rewrite Z.compare_refl. Qed.

Lemma lex_compare_le_trans a b c :
  lex_compare a b <> Gt -> lex_compare b c <> Gt -> lex_compare a c <> Gt.
Proof.
  revert b c. induction a as [|x a IH]; intros [|y b] [|z c]; simpl; try done.
  destruct (Z.compare_spec x y), (Z.compare_spec y z), (Z.compare_spec x z);
    try done; try lia; eauto.
Qed.

Lemma leb_iff a b : Datetime.leb a b = true <-> Datetime.compare a b <> Gt.
Proof. unfold Datetime.leb. destruct (Datetime.compare a b); split; done. Qed.

Lemma leb_refl a : Datetime.leb a a = true.
Proof. apply leb_iff. unfold Datetime.compare. by rewrite lex_compare_refl. Qed.

Lemma leb_trans a b c :
  Datetime.leb a b = true -> Datetime.leb b c = true -> Datetime.leb a c = true.
Proof. rewrite !leb_iff. apply lex_compare_le_trans. Qed.

(** Past a boundary, hence past every earlier one. *)
Lemma leb_false_mono a b c :
  Datetime.leb b c = true -> Datetime.leb a c = false -> Datetime.leb a b = false.
Proof.
  intros Hbc Hac. destruct (Datetime.leb a b) eqn:Hab; [|done].
  by rewrite (leb_trans _ _ _ Hab Hbc) in Hac.
Qed.

(** ** SegmentClassifier *)

(** The start bucket as intervals: on or before Jan 05 is 1, after Jan 05
    up to Feb 10 is 2, after Feb 10 up to Feb 26 is 3, after Feb 26 up to
    Mar 23 is 4, after Mar 23 is 5. *)
Lemma start_bucket_intervals (s : datetime) :
  let b := Spec.bucket Spec.start_boundaries 5 s in
  (b = 1 <-> Datetime.leb s (date 2026 1 5) = true) /\
  (b = 2 <-> Datetime.leb s (date 2026 1 5) = false
             /\ Datetime.leb s (date 2026 2 10) = true) /\
  (b = 3 <-> Datetime.leb s (date 2026 2 10) = false
             /\ Datetime.leb s (date 2026 2 26) = true) /\
  (b = 4 <-> Datetime.leb s (date 2026 2 26) = false
             /\ Datetime.leb s (date 2026 3 23) = true) /\
  (b = 5 <-> Datetime.leb s (date 2026 3 23) = false).
Proof.
  assert (H12 : Datetime.leb (date 2026 1 5) (date 2026 2 10) = true) by done.
  assert (H23 : Datetime.leb (date 2026 2 10) (date 2026 2 26) = true) by done.
  assert (H34 : Datetime.leb (date 2026 2 26) (date 2026 3 23) = true) by done.
  pose proof (leb_trans s) as T.
  pose proof (leb_false_mono s) as M.
  simpl.
  destruct (Datetime.leb s (date 2026 1 5)) eqn:E1;
    destruct (Datetime.leb s (date 2026 2 10)) eqn:E2;
    destruct (Datetime.leb s (date 2026 2 26)) eqn:E3;
    destruct (Datetime.leb s (date 2026 3 23)) eqn:E4;
    try (rewrite (T _ _ E1 H12) in E2; discriminate);
    try (rewrite (T _ _ E2 H23) in E3; discriminate);
    try (rewrite (T _ _ E3 H34) in E4; discriminate);
    repeat split; intros; try done; try lia; intuition discriminate.
Qed.

(** The end bucket as intervals: on or before Feb 09 is 2, after Feb 09 up
    to Mar 09 is 3, after Mar 09 up to Mar 20 is 4, after Mar 20 is 6,
    whether or not the date is past Apr 27. *)
Lemma end_bucket_intervals (e : datetime) :
  let b := Spec.bucket Spec.end_boundaries 6 e in
  (b = 2 <-> Datetime.leb e (date 2026 2 9) = true) /\
  (b = 3 <-> Datetime.leb e (date 2026 2 9) = false
             /\ Datetime.leb e (date 2026 3 9) = true) /\
  (b = 4 <-> Datetime.leb e (date 2026 3 9) = false
             /\ Datetime.leb e (date 2026 3 20) = true) /\
  (b = 6 <-> Datetime.leb e (date 2026 3 20) = false).
Proof.
  assert (H12 : Datetime.leb (date 2026 2 9) (date 2026 3 9) = true) by done.
  assert (H23 : Datetime.leb (date 2026 3 9) (date 2026 3 20) = true) by done.
  pose proof (leb_trans e) as T.
  simpl.
  destruct (Datetime.leb e (date 2026 2 9)) eqn:E1;
    destruct (Datetime.leb e (date 2026 3 9)) eqn:E2;
    destruct (Datetime.leb e (date 2026 3 20)) eqn:E3;
    destruct (Datetime.leb e (date 2026 4 27)) eqn:E4;
    try (rewrite (T _ _ E1 H12) in E2; discriminate);
    try (rewrite (T _ _ E2 H23) in E3; discriminate);
    repeat split; intros; try done; try lia; intuition discriminate.
Qed.

(** With both dates present, the code's two [if] chains are the two bucket
    searches of the specification. *)
Lemma determine_segment_some (s e : datetime) :
  Combine.determine_segment (Some s) (Some e) =
    str_of_int (Spec.bucket Spec.start_boundaries 5 s) +:+ "-"
    +:+ str_of_int (Spec.bucket Spec.end_boundaries 6 e).
Proof.
  unfold Combine.determine_segment; simpl.
  change Combine.jan_05 with (date 2026 1 5).
  change Combine.feb_10 with (date 2026 2 10).
  change Combine.feb_26 with (date 2026 2 26).
  change Combine.mar_23 with (date 2026 3 23).
  change Combine.feb_09 with (date 2026 2 9).
  change Combine.mar_09 with (date 2026 3 9).
  change Combine.mar_20 with (date 2026 3 20).
  change Combine.apr_27 with (date 2026 4 27).
  destruct (Datetime.leb s (date 2026 1 5)), (Datetime.leb s (date 2026 2 10)),
    (Datetime.leb s (date 2026 2 26)), (Datetime.leb s (date 2026 3 23)),
    (Datetime.leb e (date 2026 2 9)), (Datetime.leb e (date 2026 3 9)),
    (Datetime.leb e (date 2026 3 20)), (Datetime.leb e (date 2026 4 27));
    reflexivity.
Qed.

Lemma determine_segment_missing (start_dt end_dt : option datetime) :
  start_dt = None \/ end_dt = None ->
  Combine.determine_segment start_dt end_dt = "".
Proof. intros [-> | ->]; [done|]. by destruct start_dt. Qed.

(** C3. [determine_segment] returns the empty string when a date is
    missing (an unparseable date string is a missing date: [parse_date]
    gives [None] for it); otherwise it returns the start bucket, a dash and
    the end bucket, the start bucket being chosen by on-or-before
    comparison with the ascending boundaries Jan 05, Feb 10, Feb 26, Mar 23
    (labels 1 to 4, and 5 for every later date), the end bucket with the
    ascending boundaries Feb 09, Mar 09, Mar 20, Apr 27 (labels 2, 3, 4, 6,
    and 6 for every later date). *)
Theorem determine_segment_buckets (start_dt end_dt : option datetime) :
  (start_dt = None \/ end_dt = None ->
   Combine.determine_segment start_dt end_dt = "") /\
  (forall strptime str ex,
      strptime (strip str) = Raise ex -> Combine.parse_date strptime str = None) /\
  (forall s e, start_dt = Some s -> end_dt = Some e ->
     Combine.determine_segment start_dt end_dt =
       str_of_int (Spec.bucket Spec.start_boundaries 5 s) +:+ "-"
       +:+ str_of_int (Spec.bucket Spec.end_boundaries 6 e)) /\
  StronglySorted Spec.before (map fst Spec.start_boundaries) /\
  map snd Spec.start_boundaries = [1; 2; 3; 4] /\
  StronglySorted Spec.before (map fst Spec.end_boundaries) /\
  map snd Spec.end_boundaries = [2; 3; 4; 6].
Proof.
  split; [|split; [|split; [|split; [|split; [|split]]]]].
  - apply determine_segment_missing.
  - intros strptime str ex Hraise. unfold Combine.parse_date. by rewrite Hraise.
  - intros s e -> ->. apply determine_segment_some.
  - repeat constructor.
  - reflexivity.
  - repeat constructor.
  - reflexivity.
Qed.

Lemma determine_segment_buckets_witness :
  Combine.determine_segment None (Some (date 2026 4 27)) = ""
  /\ Combine.determine_segment (Some (date 2026 2 10)) (Some (date 2026 3 20))
     = "2-4".
Proof.
  split.
  - apply (determine_segment_buckets None (Some (date 2026 4 27))). by left.
  - exact (proj1 (proj2 (proj2 (determine_segment_buckets
                                   (Some (date 2026 2 10))
                                   (Some (date 2026 3 20)))))
                  _ _ eq_refl eq_refl).
Defined.

(** C8. A start date that is exactly the boundary between the first and
    the second start bucket (Jan 05, 00:00) is classified into bucket 1,
    whatever the end date is. *)
Theorem boundary_start_in_lower_bucket (e : datetime) :
  fst <$> head Spec.start_boundaries = Some Combine.jan_05 /\
  Spec.bucket Spec.start_boundaries 5 Combine.jan_05 = 1 /\
  Combine.determine_segment (Some Combine.jan_05) (Some e) =
    "1-" +:+ str_of_int (Spec.bucket Spec.end_boundaries 6 e).
Proof.
  split; [done|]. split; [done|].
  by rewrite determine_segment_some.
Qed.

(** ** Batching *)

Section Chunked.
Import GetSlots.
Context (values : list string) (n : Z) (Hn : 0 < n).

Lemma slice_app_drop i :
  0 <= i ->
  slice values i (i + n) ++ skipn (Z.to_nat (i + n)) values
  = skipn (Z.to_nat i) values.
Proof.
  intros Hi. unfold slice.
  replace (i + n - i) with n by lia.
  replace (Z.to_nat (i + n)) with (Z.to_nat i + Z.to_nat n)%nat by lia.
  rewrite <- drop_drop. apply take_drop.
Qed.

Lemma slice_len i :
  0 <= i -> len (slice values i (i + n)) = Z.min n (Z.max 0 (len values - i)).
Proof.
  intros Hi. unfold slice, len.
  replace (i + n - i) with n by lia.
  rewrite length_take, length_drop. lia.
Qed.

Lemma ceil_div_step N i r :
  0 <= r -> i < N ->
  Spec.is_ceil_div (Z.max 0 (N - (i + n))) n r ->
  Spec.is_ceil_div (Z.max 0 (N - i)) n (r + 1).
Proof.
  unfold Spec.is_ceil_div. intros Hr Hlt.
  rewrite (Z.max_r 0 (N - i)) by lia.
  destruct (Z.max_spec 0 (N - (i + n))) as [[? ->]|[? ->]]; intros [Hlo Hhi].
  - split; lia.
  - assert (r = 0) as -> by nia. split; lia.
Qed.

(** The batches cut from index [i] on. *)
Lemma chunks_from fuel : forall i,
  0 <= i -> len values - i <= Z.of_nat fuel ->
  let bs := map (fun i => slice values i (i + n))
                (range_loop fuel i (len values) n) in
  concat bs = skipn (Z.to_nat i) values
  /\ Spec.is_ceil_div (Z.max 0 (len values - i)) n (len bs)
  /\ Forall (fun b => 0 < len b <= n) bs
  /\ (forall (k : nat) b, bs !! k = Some b -> (S k < length bs)%nat -> len b = n).
Proof.
  assert (Hdone : forall i, 0 <= i -> len values <= i ->
            @nil string = skipn (Z.to_nat i) values
            /\ Spec.is_ceil_div (Z.max 0 (len values - i)) n (len (@nil (list string)))
            /\ Forall (fun b : list string => 0 < len b <= n) []
            /\ (forall (k : nat) (b : list string),
                   @nil (list string) !! k = Some b ->
                   (S k < length (@nil (list string)))%nat -> len b = n)).
  { intros i Hi Hge. repeat split.
    - symmetry. apply drop_ge. unfold len in Hge. lia.
    - unfold len in *; simpl. lia.
    - unfold len in *; simpl. lia.
    - constructor.
    - intros k b Hk. by rewrite lookup_nil in Hk. }
  induction fuel as [|fuel IH]; intros i Hi Hfuel; simpl.
  - apply Hdone; lia.
  - destruct (Z.ltb_spec i (len values)) as [Hlt|Hge]; [|apply Hdone; lia].
    destruct (IH (i + n)) as (Hcat & Hceil & Hall & Hfull); [lia..|].
    simpl. set (rest := map (fun i => slice values i (i + n))
                            (range_loop fuel (i + n) (len values) n)) in *.
    pose proof (slice_len i Hi) as Hlen.
    split; [|split; [|split]].
    + rewrite Hcat. by apply slice_app_drop.
    + replace (len (slice values i (i + n) :: rest)) with (len rest + 1)
        by (unfold len; simpl length; lia).
      apply ceil_div_step; [unfold len; lia | done | done].
    + constructor; [lia|done].
    + intros [|k] b Hk Hlast; simpl in *.
      * inversion Hk; subst b. rewrite Hlen.
        destruct Hceil as [Hlo Hhi].
        assert (0 < len rest) by (unfold len; lia).
        clear IH Hdone Hfull Hall Hcat Hk Hlen.
        destruct (Z.max_spec 0 (len values - (i + n))) as [[? Hm]|[? Hm]];
          rewrite Hm in *; [lia | nia].
      * apply (Hfull k b Hk). lia.
Qed.

(** For a positive batch size the generator yields without raising. *)
Lemma chunked_positive :
  exists batches,
    chunked values n = Return batches
    /\ concat batches = values
    /\ Spec.is_ceil_div (len values) n (len batches)
    /\ len batches = (len values + n - 1) / n
    /\ Forall (fun b => 0 < len b <= n) batches
    /\ (forall (k : nat) b,
           batches !! k = Some b -> (S k < length batches)%nat -> len b = n).
Proof.
  unfold chunked. destruct (Z.leb_spec n 0) as [?|_]; [lia|].
  eexists; split; [reflexivity|].
  destruct (chunks_from (Z.to_nat (len values - 0)) 0) as (Hcat & Hceil & Hall & Hfull);
    [lia | unfold len; lia |].
  unfold range. replace (Z.max 0 (len values - 0)) with (len values) in Hceil
    by (unfold len; lia).
  repeat split; try done.
  - apply Hceil.
  - apply Hceil.
  - destruct Hceil as [Hlo Hhi].
    set (k := len (map _ _)) in *.
    apply (Z.div_unique _ _ _ (len values + n - 1 - n * k)); [left; nia | lia].
Qed.
End Chunked.

(** A run with a batch size that is not positive ends before the fetch
    loop: no remote call is made and the exit status is not success. *)
Lemma main_nonpositive_batch post_timetable fuel a csv_paths :
  GetSlots.batch_size a <= 0 ->
  exists r, GetSlots.main post_timetable fuel a csv_paths = Some r
            /\ GetSlots.trace r = []
            /\ (GetSlots.exit r = Return 2
                \/ exists ex, GetSlots.exit r = Raise ex).
Proof.
  intros Hb. unfold GetSlots.main.
  repeat match goal with
         | |- context [if ?c then _ else _] =>
             destruct c eqn:?; try (eexists; split; [reflexivity|]; simpl; eauto; fail)
         | |- context [match GetSlots.sorted_rcids ?l with _ => _ end] =>
             destruct (GetSlots.sorted_rcids l) as [[|? ?]|?];
             try (eexists; split; [reflexivity|]; simpl; eauto; fail)
         end.
  all: unfold GetSlots.chunked;
    destruct (Z.leb_spec (GetSlots.batch_size a) 0); [|lia];
    eexists; split; [reflexivity|]; simpl; eauto.
Qed.

(** C4. For a batch size [n > 0], [chunked] yields [ceil(N / n)] batches of
    at most [n] ids each, every batch but the last of exactly [n] ids,
    whose concatenation is the list of ids; for [n <= 0] it raises
    [ValueError], and a run with such a batch size makes no remote call
    and does not end in success. *)
Theorem chunked_batches (values : list string) (n : Z) :
  (0 < n ->
   exists batches,
     GetSlots.chunked values n = Return batches
     /\ concat batches = values
     /\ Spec.is_ceil_div (GetSlots.len values) n (GetSlots.len batches)
     /\ GetSlots.len batches = (GetSlots.len values + n - 1) / n
     /\ Forall (fun b => 0 < GetSlots.len b <= n) batches
     /\ (forall (k : nat) b,
            batches !! k = Some b -> (S k < length batches)%nat ->
            GetSlots.len b = n)) /\
  (n <= 0 ->
   GetSlots.chunked values n = Raise ValueError
   /\ forall post_timetable fuel a csv_paths,
       GetSlots.batch_size a = n ->
       exists r, GetSlots.main post_timetable fuel a csv_paths = Some r
                 /\ GetSlots.calls (GetSlots.trace r) = 0%nat
                 /\ GetSlots.exit r <> Return 0).
Proof.
  split.
  - intros Hn. by apply chunked_positive.
  - intros Hn. split.
    + unfold GetSlots.chunked. by destruct (Z.leb_spec n 0); [|lia].
    + intros post_timetable fuel a csv_paths Hb.
      destruct (main_nonpositive_batch post_timetable fuel a csv_paths)
        as (r & Hr & Htr & Hexit); [lia|].
      exists r. split; [done|]. rewrite Htr. split; [done|].
      destruct Hexit as [-> | [ex ->]]; discriminate.
Qed.

Lemma chunked_batches_witness :
  (exists batches,
     GetSlots.chunked ["101"; "102"; "103"] 2 = Return batches
     /\ concat batches = ["101"; "102"; "103"]
     /\ Spec.is_ceil_div 3 2 (GetSlots.len batches)
     /\ GetSlots.len batches = 2)
  /\ GetSlots.chunked ["101"; "102"; "103"] 0 = Raise ValueError.
Proof.
  split.
  - destruct (proj1 (chunked_batches ["101"; "102"; "103"] 2))
      as (batches & H1 & H2 & H3 & H4 & _); [lia|].
    exists batches. repeat split; try done; apply H3.
  - apply (proj2 (chunked_batches ["101"; "102"; "103"] 0)). lia.
Defined.

(** ** SlotKeyAggregator *)

Section Aggregator.
Import GetSlots.

Lemma process_item_rejected st it :
  Spec.accepted it = false -> process_item st it = st.
Proof.
  unfold Spec.accepted, process_item. intros H.
  destruct (truthy (field it "runningCourseId")),
    (truthy (field it "slotPeriodCdDays")); simpl in *; done.
Qed.

(** The segment-name of a key after one accepted row. *)
Lemma process_item_segment st it key :
  Spec.accepted it = true ->
  dict_get (segment_map (process_item st it)) key =
    match dict_get (segment_map st) key with
    | Some s => Some s
    | None => if truthy (field it "segName") && bool_decide (Spec.row_key it = key)
              then Some (field it "segName") else None
    end.
Proof.
  unfold Spec.accepted, process_item, Spec.row_key. intros H.
  destruct (truthy (field it "runningCourseId")),
    (truthy (field it "slotPeriodCdDays")); simpl in *; try done.
  set (k := (field it "runningCourseId", field it "courseSlotId",
             field it "courseSlotCd")).
  unfold dict_mem.
  destruct (truthy (field it "segName")); simpl.
  - destruct (decide (k = key)) as [<-|Hne].
    + rewrite bool_decide_eq_true_2 by done.
      destruct (dict_get (segment_map st) k) eqn:Hk; simpl; [done|].
      by rewrite dict_get_set_eq.
    + rewrite bool_decide_eq_false_2 by done.
      destruct (dict_get (segment_map st) k) eqn:Hk; simpl.
      * by destruct (dict_get (segment_map st) key).
      * rewrite dict_get_set_ne by done.
        by destruct (dict_get (segment_map st) key).
  - by destruct (dict_get (segment_map st) key).
Qed.

Lemma process_items_segment rows : forall st key,
  dict_get (segment_map (process_items st rows)) key =
    match dict_get (segment_map st) key with
    | Some s => Some s
    | None => Spec.first_nonempty (Spec.key_segments key rows)
    end.
Proof.
  unfold process_items, Spec.key_segments.
  induction rows as [|it rows IH]; intros st key; simpl.
  - by destruct (dict_get (segment_map st) key).
  - rewrite IH. destruct (Spec.accepted it) eqn:Hacc; simpl.
    + rewrite process_item_segment by done.
      destruct (dict_get (segment_map st) key); [done|].
      destruct (bool_decide (Spec.row_key it = key)); simpl.
      * rewrite andb_true_r. by destruct (truthy (field it "segName")).
      * by rewrite andb_false_r.
    + by rewrite process_item_rejected.
Qed.

Lemma process_item_accepted st it :
  Spec.accepted it = true ->
  let key := Spec.row_key it in
  process_item st it =
    mk_agg (add_day_time (slot_map st) key (field it "slotPeriodCdDays"))
           (if truthy (field it "segName")
               && negb (dict_mem (segment_map st) key)
            then dict_set (segment_map st) key (field it "segName")
            else segment_map st).
Proof.
  unfold Spec.accepted, process_item, Spec.row_key. intros H.
  destruct (truthy (field it "runningCourseId")),
    (truthy (field it "slotPeriodCdDays")); simpl in *; done.
Qed.

Lemma process_item_idem st it :
  process_item (process_item st it) it = process_item st it.
Proof.
  destruct (Spec.accepted it) eqn:Hacc.
  - rewrite (process_item_accepted (process_item st it)) by done.
    rewrite (process_item_accepted st) by done.
    set (key := Spec.row_key it). simpl. f_equal.
    + unfold add_day_time, dict_get_default.
      rewrite dict_get_set_eq. apply dict_set_same.
      rewrite dict_get_set_eq. f_equal.
      by rewrite (assoc_L (∪)), (idemp_L (∪)).
    + unfold dict_mem.
      destruct (truthy (field it "segName")); simpl; [|done].
      destruct (dict_get (segment_map st) key) eqn:Hk; simpl.
      * by rewrite Hk.
      * by rewrite dict_get_set_eq.
  - by rewrite !process_item_rejected.
Qed.
End Aggregator.

(** C6. For every key and every sequence of rows in arrival order, from an
    aggregator that has no segment-name for the key yet, the aggregated
    segment-name is the first non-empty segment-name among the accepted
    rows of the key; a segment-name that is recorded is never overwritten
    by later rows; two rows of one key with segment-names "A" then "B"
    give "A". *)
Theorem segment_first_wins (st : GetSlots.agg) (key : GetSlots.slot_key)
    (rows : list GetSlots.item) :
  (dict_get (GetSlots.segment_map st) key = None ->
   dict_get (GetSlots.segment_map (GetSlots.process_items st rows)) key
   = Spec.first_nonempty (Spec.key_segments key rows)) /\
  (forall s, dict_get (GetSlots.segment_map st) key = Some s ->
   dict_get (GetSlots.segment_map (GetSlots.process_items st rows)) key
   = Some s) /\
  (forall (rcid slot_id slot_cd day1 day2 : string),
      truthy (strip rcid) = true -> truthy (strip day1) = true ->
      truthy (strip day2) = true ->
      let row day seg : GetSlots.item :=
        [("runningCourseId", GetSlots.JStr rcid);
         ("courseSlotId", GetSlots.JStr slot_id);
         ("courseSlotCd", GetSlots.JStr slot_cd);
         ("slotPeriodCdDays", GetSlots.JStr day);
         ("segName", GetSlots.JStr seg)] in
      dict_get (GetSlots.segment_map
                  (GetSlots.process_items (GetSlots.mk_agg [] [])
                                          [row day1 "A"; row day2 "B"]))
               (strip rcid, strip slot_id, strip slot_cd) = Some "A").
Proof.
  split; [|split].
  - intros Hnone. by rewrite process_items_segment, Hnone.
  - intros s Hsome. by rewrite process_items_segment, Hsome.
  - intros rcid slot_id slot_cd day1 day2 Hr Hd1 Hd2 row.
    rewrite process_items_segment. simpl.
    unfold Spec.key_segments. simpl.
    unfold Spec.accepted, Spec.row_key, GetSlots.field. simpl.
    rewrite Hr, Hd1, Hd2. simpl.
    case_bool_decide; done.
Qed.

Lemma segment_first_wins_witness :
  let row seg : GetSlots.item :=
    [("runningCourseId", GetSlots.JInt 101);
     ("courseSlotId", GetSlots.JInt 7);
     ("courseSlotCd", GetSlots.JStr "S1");
     ("slotPeriodCdDays", GetSlots.JStr "Mon-Tue");
     ("segName", GetSlots.JStr seg)] in
  dict_get (GetSlots.segment_map
              (GetSlots.process_items (GetSlots.mk_agg [] [])
                                      [row ""; row "A"; row "B"]))
           ("101", "7", "S1") = Some "A".
Proof.
  intros row.
  exact (proj1 (segment_first_wins (GetSlots.mk_agg [] []) ("101", "7", "S1")
                  [row ""; row "A"; row "B"]) eq_refl).
Defined.

(** C7. Feeding the same raw row a second time leaves the aggregator as it
    is after the first time: in particular the day/time set and the
    segment-name of every key are the same. *)
Theorem insertion_idempotent (st : GetSlots.agg) (it : GetSlots.item) :
  GetSlots.process_items st [it; it] = GetSlots.process_items st [it]
  /\ forall key,
      dict_get (GetSlots.slot_map (GetSlots.process_items st [it; it])) key
      = dict_get (GetSlots.slot_map (GetSlots.process_items st [it])) key
      /\ dict_get (GetSlots.segment_map (GetSlots.process_items st [it; it])) key
         = dict_get (GetSlots.segment_map (GetSlots.process_items st [it])) key.
Proof.
  assert (H : GetSlots.process_items st [it; it] = GetSlots.process_items st [it])
    by apply process_item_idem.
  split; [done|]. intros key. by rewrite H.
Qed.

(** ** BatchFetcher: the attempts of one batch *)

Section Attempts.
Import GetSlots.
Context (post_timetable : nat -> list string -> outcome (list item)).
Context (retries sleep_ms total_batches : Z).

Local Abbreviation attempt_loop := (attempt_loop post_timetable retries total_batches).
Local Abbreviation batch_loop := (batch_loop post_timetable retries sleep_ms total_batches).

(** The loop of a batch reaches a [break] or lets an exception through
    within [retries + 2] iterations, and within one when [retries] is
    negative. *)
Lemma attempt_loop_total fuel : forall batch_index batch attempt st,
  (1 <= fuel)%nat -> retries + 2 - attempt <= Z.of_nat fuel ->
  exists r, attempt_loop fuel batch_index batch attempt st = Some r.
Proof.
  induction fuel as [|fuel IH]; intros bi batch attempt st H1 Hfuel; [lia|].
  simpl. destruct (post_timetable _ batch) as [items|ex]; [eauto|].
  destruct (caught ex); [|eauto].
  destruct (Z.leb_spec (attempt + 1) (retries + 1)); [|eauto].
  apply IH; lia.
Qed.

Lemma batch_loop_total fuel batches : forall batch_index st,
  (1 <= fuel)%nat -> retries + 2 <= Z.of_nat fuel ->
  exists r, batch_loop fuel batch_index batches st = Some r.
Proof.
  induction batches as [|batch rest IH]; intros bi st H1 Hfuel; simpl; [eauto|].
  destruct (attempt_loop_total fuel bi batch 0 st) as [[st' [ex|]] ->];
    [done | lia | eauto | by apply IH].
Qed.

Lemma calls_for_retried batch_index batch k attempt :
  Spec.calls_for batch (Spec.retried total_batches batch_index batch k attempt) = k.
Proof.
  revert attempt. induction k as [|k IH]; intros attempt; [done|].
  unfold Spec.calls_for in *. simpl.
  rewrite bool_decide_eq_true_2 by done. simpl. by rewrite IH.
Qed.

Lemma calls_for_app batch tr1 tr2 :
  Spec.calls_for batch (tr1 ++ tr2)
  = (Spec.calls_for batch tr1 + Spec.calls_for batch tr2)%nat.
Proof. unfold Spec.calls_for. by rewrite List.filter_app, length_app. Qed.

(** A batch that fails at every attempt: the trace of its loop. *)
Lemma attempt_loop_exhausted batch_index batch :
  Spec.always_fails post_timetable batch ->
  forall fuel attempt st,
    (1 <= fuel)%nat -> retries + 2 - attempt <= Z.of_nat fuel ->
    attempt_loop fuel batch_index batch attempt st =
      Some (mk_fetch_state (st_agg st)
              (st_trace st
               ++ Spec.retried total_batches batch_index batch (Z.to_nat (retries + 1 - attempt)) attempt
               ++ [Call batch; Failed batch_index total_batches]),
            None).
Proof.
  intros Hfail. induction fuel as [|fuel IH]; intros attempt st H1 Hfuel; [lia|].
  simpl. destruct (Hfail (calls (st_trace st))) as (ex & -> & ->).
  destruct (Z.leb_spec (attempt + 1) (retries + 1)) as [Hle|Hgt].
  - rewrite IH by lia. simpl.
    replace (Z.to_nat (retries + 1 - attempt))
      with (S (Z.to_nat (retries + 1 - (attempt + 1)))) by lia.
    simpl. by rewrite <- !app_assoc.
  - replace (Z.to_nat (retries + 1 - attempt)) with 0%nat by lia.
    unfold emit. simpl. by rewrite <- !app_assoc.
Qed.
End Attempts.

(** C1. What the code does for a batch whose fetch fails at every attempt
    with an exception of the [except] clause, for a retry budget
    [retries >= 0]: the loop ends without raising after [retries + 2] calls
    of the endpoint, with a fixed delay after each failed attempt but the
    last, the last event being the report of the failed batch; the
    aggregation maps are unchanged, and the batches that follow are
    processed as they would be without it. *)
Theorem exhausted_batch_attempts
    (post_timetable : nat -> list string -> outcome (list GetSlots.item))
    (retries sleep_ms total_batches batch_index : Z)
    (batch : list string) (rest : list (list string))
    (fuel : nat) (st : GetSlots.fetch_state) :
  Spec.always_fails post_timetable batch ->
  0 <= retries ->
  retries + 2 <= Z.of_nat fuel ->
  exists st',
    GetSlots.attempt_loop post_timetable retries total_batches fuel
      batch_index batch 0 st = Some (st', None)
    /\ GetSlots.st_agg st' = GetSlots.st_agg st
    /\ Spec.calls_for batch (GetSlots.st_trace st')
       = (Spec.calls_for batch (GetSlots.st_trace st) + Z.to_nat (retries + 2))%nat
    /\ GetSlots.st_trace st'
       = GetSlots.st_trace st
         ++ Spec.retried total_batches batch_index batch (Z.to_nat (retries + 1)) 0
         ++ [GetSlots.Call batch; GetSlots.Failed batch_index total_batches]
    /\ GetSlots.batch_loop post_timetable retries sleep_ms total_batches fuel
         batch_index (batch :: rest) st
       = GetSlots.batch_loop post_timetable retries sleep_ms total_batches fuel
           (batch_index + 1) rest
           (GetSlots.emit (GetSlots.Sleep (Z.max 0 sleep_ms)) st').
Proof.
  intros Hfail Hr Hfuel.
  pose proof (attempt_loop_exhausted post_timetable retries total_batches
                batch_index batch Hfail fuel 0 st) as Hloop.
  replace (retries + 1 - 0) with (retries + 1) in Hloop by lia.
  eexists. split; [apply Hloop; lia|]. simpl.
  split; [done|]. split; [|split; [done|]].
  - rewrite !calls_for_app, calls_for_retried.
    assert (Hlast : Spec.calls_for batch
                      [GetSlots.Call batch;
                       GetSlots.Failed batch_index total_batches] = 1%nat).
    { unfold Spec.calls_for. simpl. by case_bool_decide. }
    rewrite Hlast. lia.
  - rewrite Hloop by lia. done.
Qed.

Lemma exhausted_batch_attempts_witness :
  let post_timetable (n : nat) (batch : list string)
    : outcome (list GetSlots.item) := Raise URLError in
  exists st',
    GetSlots.attempt_loop post_timetable 2 1 4 1 ["101"] 0
      (GetSlots.mk_fetch_state (GetSlots.mk_agg [] []) []) = Some (st', None)
    /\ Spec.calls_for ["101"] (GetSlots.st_trace st') = 4%nat.
Proof.
  intros post_timetable.
  destruct (exhausted_batch_attempts post_timetable 2 200 1 1 ["101"] [] 4
              (GetSlots.mk_fetch_state (GetSlots.mk_agg [] []) []))
    as (st' & H1 & _ & H3 & _).
  - intros n. exists URLError. split; reflexivity.
  - lia.
  - lia.
  - exists st'. split; [exact H1 | exact H3].
Defined.

(** ** The run as a whole *)

(** With [retries + 2] iterations allowed for each batch (one when
    [retries] is negative) the run always ends. *)
Lemma main_total post_timetable fuel a csv_paths :
  (1 <= fuel)%nat -> GetSlots.retries a + 2 <= Z.of_nat fuel ->
  exists r, GetSlots.main post_timetable fuel a csv_paths = Some r.
Proof.
  intros H1 Hfuel. unfold GetSlots.main.
  repeat match goal with
         | |- context [if ?c then _ else _] => destruct c; [by eauto|]
         end.
  destruct (GetSlots.sorted_rcids _) as [[|rcid rcids]|ex]; [by eauto| |by eauto].
  destruct (_ =? 0)%Z; [by eauto|].
  destruct (GetSlots.chunked _ _) as [batches|ex]; [|by eauto].
  destruct (batch_loop_total post_timetable (GetSlots.retries a)
              (GetSlots.sleep_ms a)
              ((GetSlots.len (rcid :: rcids) + GetSlots.batch_size a - 1)
               / GetSlots.batch_size a)
              fuel batches 1
              (GetSlots.mk_fetch_state (GetSlots.mk_agg [] []) []))
    as [[st [ex|]] ->]; [done | done | by eauto |].
  destruct (GetSlots.write_csv _ _) as [rows [ex|]]; eauto.
Qed.

(** ** slots.csv *)

Section WriteCsv.
Import GetSlots.

(** The dict of a row has keys that are not field names of the writer. *)
Lemma writerow_raises courses st key :
  writerow csv_fieldnames (csv_rowdict courses st key) = Raise ValueError.
Proof. by destruct key as [[rcid slot_id] slot_cd]. Qed.

Lemma write_rows_raises courses st key keys :
  write_rows courses st (key :: keys) = ([], Some ValueError).
Proof. simpl. by rewrite writerow_raises. Qed.

Lemma sorted_slot_keys_nonempty keys keys' :
  keys <> [] -> sorted_slot_keys keys = Return keys' -> keys' <> [].
Proof.
  unfold sorted_slot_keys. intros Hne.
  destruct (same_kind _); [|done]. intros [= <-] Hnil.
  apply Hne, length_zero_iff_nil.
  by rewrite <- (sorted_length slot_key_ltb), Hnil.
Qed.

Lemma write_csv_raises courses st :
  slot_map st <> [] ->
  exists ex, write_csv courses st = ([csv_fieldnames], Some ex)
             /\ (ex = ValueError \/ ex = TypeError).
Proof.
  intros Hne. unfold write_csv.
  destruct (sorted_slot_keys _) as [keys|ex] eqn:Hs.
  - assert (keys <> []) as Hk.
    { apply (sorted_slot_keys_nonempty (dict_keys (slot_map st))); [|done].
      unfold dict_keys. by destruct (slot_map st). }
    destruct keys as [|key keys]; [done|].
    rewrite write_rows_raises. eauto.
  - exists ex. split; [done|]. right.
    unfold sorted_slot_keys in Hs. destruct (same_kind _); by inversion Hs.
Qed.

Lemma write_csv_empty courses st :
  slot_map st = [] -> write_csv courses st = ([csv_fieldnames], None).
Proof. intros H. unfold write_csv. by rewrite H. Qed.
End WriteCsv.

(** C2. What the code does when it writes slots.csv: with a non-empty
    aggregation mapping the write raises [ValueError] (or [TypeError] when
    the keys cannot be sorted) after the header line, so that a run exits
    with status 0 only when nothing was aggregated. *)
Theorem csv_write_raises (courses : dict string GetSlots.CourseMeta)
    (st : GetSlots.agg) :
  (GetSlots.slot_map st <> [] ->
   exists ex, GetSlots.write_csv courses st
              = ([GetSlots.csv_fieldnames], Some ex)
              /\ (ex = ValueError \/ ex = TypeError)) /\
  (forall post_timetable fuel a csv_paths r,
      GetSlots.main post_timetable fuel a csv_paths = Some r ->
      GetSlots.exit r = Return 0 ->
      GetSlots.out_json r = Some []
      /\ GetSlots.out_csv r = Some [GetSlots.csv_fieldnames]).
Proof.
  split; [apply write_csv_raises|].
  intros post_timetable fuel a csv_paths r. unfold GetSlots.main.
  repeat match goal with
         | |- context [if ?c then _ else _] =>
             destruct c; [by intros [= <-]|]
         end.
  destruct (GetSlots.sorted_rcids _) as [[|rcid rcids]|ex];
    [by intros [= <-]| |by intros [= <-]].
  destruct (_ =? 0)%Z; [by intros [= <-]|].
  destruct (GetSlots.chunked _ _) as [batches|ex]; [|by intros [= <-]].
  destruct (GetSlots.batch_loop _ _ _ _ _ _ _ _) as [[st' [ex|]]|];
    [by intros [= <-] | | done].
  destruct (GetSlots.slot_map (GetSlots.st_agg st')) as [|kv m] eqn:Hm.
  - rewrite write_csv_empty by done. intros [= <-] _. simpl.
    unfold GetSlots.build_json. by rewrite Hm.
  - destruct (write_csv_raises (GetSlots.read_courses csv_paths)
                (GetSlots.st_agg st')) as (ex & -> & _); [by rewrite Hm|].
    by intros [= <-].
Qed.

Lemma csv_write_raises_witness :
  let it : GetSlots.item :=
    [("runningCourseId", GetSlots.JInt 101); ("courseSlotId", GetSlots.JInt 7);
     ("courseSlotCd", GetSlots.JStr "S1");
     ("slotPeriodCdDays", GetSlots.JStr "Mon-Tue");
     ("segName", GetSlots.JStr "2")] in
  let st := GetSlots.process_items (GetSlots.mk_agg [] []) [it] in
  exists ex, GetSlots.write_csv [] st = ([GetSlots.csv_fieldnames], Some ex)
             /\ (ex = ValueError \/ ex = TypeError).
Proof.
  intros it st. apply (proj1 (csv_write_raises [] st)). discriminate.
Defined.

(** The run of the default configuration on one course for which the
    endpoint returns one row: slots.json is built, then writing the first
    row of slots.csv raises [ValueError]. *)
Example main_one_row_raises :
  let it : GetSlots.item :=
    [("runningCourseId", GetSlots.JInt 101); ("courseSlotId", GetSlots.JInt 7);
     ("courseSlotCd", GetSlots.JStr "S1");
     ("slotPeriodCdDays", GetSlots.JStr "Mon-Tue");
     ("segName", GetSlots.JStr "2")] in
  let post_timetable (n : nat) (batch : list string) := Return [it] in
  let a := GetSlots.mk_args "S1" "JSESSIONID=x" 20 200 2 "" "" in
  let csv_paths := [Some [[("rcid", "101"); ("ccode", "CS101"); ("cname", "Logic")]]] in
  exists r, GetSlots.main post_timetable 4 a csv_paths = Some r
            /\ GetSlots.exit r = Raise ValueError
            /\ GetSlots.out_csv r = Some [GetSlots.csv_fieldnames]
            /\ GetSlots.out_json r
               = Some [("101", mk_json_course "101" "CS101" "Logic"
                                 [mk_slot_entry "7" "S1" "2" ["Mon-Tue"]])].
Proof. intros. eexists. split; [vm_compute; reflexivity|]. by vm_compute. Qed.

(** ** CourseSlotMerger: what the two maps hold after the reads *)

Section SlotMaps.
Import Combine.

Lemma truthy_false s : truthy s = false <-> s = "".
Proof. by destruct s. Qed.

Lemma truthy_true s : truthy s = true <-> s <> "".
Proof. by destruct s. Qed.

Lemma last_nonempty_or_app d l1 l2 :
  Spec.last_nonempty_or d (l1 ++ l2)
  = Spec.last_nonempty_or (Spec.last_nonempty_or d l1) l2.
Proof. apply fold_left_app. Qed.

(** A default that is given is kept or replaced, never lost. *)
Lemma last_nonempty_or_Some l : forall s,
  exists s', Spec.last_nonempty_or (Some s) l = Some s'.
Proof.
  induction l as [|x l IH]; intros s; simpl; [eauto|].
  destruct (truthy x); apply IH.
Qed.

Lemma last_nonempty_or_In l : forall d s,
  Spec.last_nonempty_or d l = Some s ->
  d = Some s \/ (In s l /\ s <> "").
Proof.
  induction l as [|x l IH]; intros d s; simpl; [by left|].
  intros H. destruct (truthy x) eqn:Hx.
  - destruct (IH _ _ H) as [[= ->]|[Hin Hne]].
    + right. split; [by left|]. by apply truthy_true.
    + right. split; [by right|done].
  - destruct (IH _ _ H) as [->|[Hin Hne]]; [by left|].
    right. split; [by right|done].
Qed.

Lemma last_nonempty_or_None l :
  Spec.last_nonempty_or None l = None <-> Forall (fun s => s = "") l.
Proof.
  induction l as [|x l IH]; simpl; [by split|].
  destruct (truthy x) eqn:Hx.
  - split.
    + intros H. destruct (last_nonempty_or_Some l x) as [s' Hs'].
      by rewrite Hs' in H.
    + intros H. apply Forall_cons in H as [-> _]. done.
  - rewrite IH. apply truthy_false in Hx as ->. split.
    + by constructor.
    + by intros [_ ?]%Forall_cons.
Qed.

(** *** slots.json *)

Lemma read_slot_segment r rcid slots : forall m,
  dict_get (segment_map (fold_left (read_slot r) slots m)) rcid =
    if decide (r = rcid)
    then Spec.last_nonempty_or (dict_get (segment_map m) rcid)
           (map (fun s => strip (segName s)) slots)
    else dict_get (segment_map m) rcid.
Proof.
  induction slots as [|s slots IH]; intros m; simpl.
  - by destruct (decide (r = rcid)).
  - rewrite IH. unfold read_slot; simpl.
    destruct (decide (r = rcid)) as [->|Hne];
      destruct (truthy (strip (segName s))); try done.
    + by rewrite dict_get_set_eq.
    + by rewrite dict_get_set_ne.
Qed.

Lemma read_slot_code r rcid slots : forall m,
  dict_get (slots_map (fold_left (read_slot r) slots m)) rcid =
    if decide (r = rcid)
    then Spec.last_nonempty_or (dict_get (slots_map m) rcid)
           (map (fun s => strip (courseSlotCd s)) slots)
    else dict_get (slots_map m) rcid.
Proof.
  induction slots as [|s slots IH]; intros m; simpl.
  - by destruct (decide (r = rcid)).
  - rewrite IH. unfold read_slot; simpl.
    destruct (decide (r = rcid)) as [->|Hne];
      destruct (truthy (strip (courseSlotCd s))); try done.
    + by rewrite dict_get_set_eq.
    + by rewrite dict_get_set_ne.
Qed.

Lemma read_slots_json_segment rcid data : forall m,
  dict_get (segment_map (read_slots_json data m)) rcid =
    Spec.last_nonempty_or (dict_get (segment_map m) rcid)
      (map (fun s => strip (segName s)) (Spec.slots_of data rcid)).
Proof.
  unfold read_slots_json, Spec.slots_of.
  induction data as [|[r c] data IH]; intros m; simpl; [done|].
  rewrite IH, read_slot_segment, map_app, last_nonempty_or_app.
  by destruct (decide (r = rcid)).
Qed.

Lemma read_slots_json_code rcid data : forall m,
  dict_get (slots_map (read_slots_json data m)) rcid =
    Spec.last_nonempty_or (dict_get (slots_map m) rcid)
      (map (fun s => strip (courseSlotCd s)) (Spec.slots_of data rcid)).
Proof.
  unfold read_slots_json, Spec.slots_of.
  induction data as [|[r c] data IH]; intros m; simpl; [done|].
  rewrite IH, read_slot_code, map_app, last_nonempty_or_app.
  by destruct (decide (r = rcid)).
Qed.

Lemma dict_set_not_nil {K V} `{EqDecision K} (d : dict K V) k v :
  dict_set d k v <> [].
Proof. destruct d as [|[k' v'] d]; simpl; [done|]. by destruct (decide (k' = k)). Qed.

Lemma read_slot_keeps_code r slots : forall m,
  slots_map m <> [] -> slots_map (fold_left (read_slot r) slots m) <> [].
Proof.
  induction slots as [|s slots IH]; intros m Hm; simpl; [done|].
  apply IH. unfold read_slot; simpl.
  destruct (truthy (strip (courseSlotCd s))); [apply dict_set_not_nil|done].
Qed.

Lemma read_slots_json_keeps_code data : forall m,
  slots_map m <> [] -> slots_map (read_slots_json data m) <> [].
Proof.
  unfold read_slots_json.
  induction data as [|[r c] data IH]; intros m Hm; simpl; [done|].
  by apply IH, read_slot_keeps_code.
Qed.

(** [slots_map] stays empty exactly when no slot-code is read. *)
Lemma read_slot_no_code r slots : forall m,
  slots_map m = [] ->
  (slots_map (fold_left (read_slot r) slots m) = [] <->
   forallb (fun s => negb (truthy (strip (courseSlotCd s)))) slots = true).
Proof.
  induction slots as [|s slots IH]; intros m Hm; simpl; [done|].
  destruct (truthy (strip (courseSlotCd s))) eqn:Hs; simpl.
  - split; [|done]. intros H. exfalso. revert H.
    apply read_slot_keeps_code. unfold read_slot; simpl. rewrite Hs.
    apply dict_set_not_nil.
  - apply IH. unfold read_slot. simpl. by rewrite Hs.
Qed.

Lemma read_slots_json_no_code data : forall m,
  slots_map m = [] ->
  (slots_map (read_slots_json data m) = [] <->
   Spec.no_json_code (Some data) = true).
Proof.
  unfold read_slots_json. simpl.
  induction data as [|[r c] data IH]; intros m Hm; simpl; [done|].
  destruct (forallb _ (j_slots c)) eqn:Hc; simpl.
  - apply IH. by apply read_slot_no_code.
  - split; [|done]. intros H. exfalso. revert H.
    apply (read_slots_json_keeps_code data).
    intros H. apply (read_slot_no_code r) in H; [|done]. congruence.
Qed.

(** *** slots.csv, the fallback *)

Lemma read_csv_slot_segment rcid rows : forall m,
  truthy rcid = true ->
  dict_get (segment_map (fold_left read_csv_slot rows m)) rcid =
    Spec.last_nonempty_or (dict_get (segment_map m) rcid)
                          (Spec.csv_segments rows rcid).
Proof.
  unfold Spec.csv_segments, Spec.csv_rows_of.
  induction rows as [|row rows IH]; intros m Hr; simpl; [done|].
  rewrite IH by done. unfold read_csv_slot.
  case_bool_decide as Heq; simpl.
  - rewrite Heq, Hr. simpl.
    destruct (truthy (csv_segment row)); [|done].
    by rewrite dict_get_set_eq.
  - destruct (truthy (csv_rcid row)); [|done]. simpl.
    destruct (truthy (csv_segment row)); [|done].
    by rewrite dict_get_set_ne.
Qed.

Lemma read_csv_slot_code rcid rows : forall m,
  truthy rcid = true ->
  dict_get (slots_map (fold_left read_csv_slot rows m)) rcid =
    Spec.last_nonempty_or (dict_get (slots_map m) rcid)
                          (Spec.csv_codes rows rcid).
Proof.
  unfold Spec.csv_codes, Spec.csv_rows_of.
  induction rows as [|row rows IH]; intros m Hr; simpl; [done|].
  rewrite IH by done. unfold read_csv_slot.
  case_bool_decide as Heq; simpl.
  - rewrite Heq, Hr. simpl.
    destruct (truthy (csv_slot row)); [|done].
    by rewrite dict_get_set_eq.
  - destruct (truthy (csv_rcid row)); [|done]. simpl.
    destruct (truthy (csv_slot row)); [|done].
    by rewrite dict_get_set_ne.
Qed.

(** *** Both reads *)

Lemma read_slots_fallback json csv :
  read_slots json csv =
    fold_left read_csv_slot (Spec.fallback_rows json csv)
      match json with
      | Some data => read_slots_json data (mk_slot_maps [] [])
      | None => mk_slot_maps [] []
      end.
Proof.
  unfold read_slots, Spec.fallback_rows.
  destruct json as [data|].
  - pose proof (read_slots_json_no_code data (mk_slot_maps [] []) eq_refl) as H.
    destruct (slots_map (read_slots_json data (mk_slot_maps [] []))) eqn:Hm.
    + rewrite (proj1 H eq_refl). by destruct csv.
    + destruct (Spec.no_json_code (Some data));
        [by destruct H as [_ H]; discriminate H|].
      by destruct csv.
  - by destruct csv.
Qed.

Lemma read_slots_segment json csv rcid :
  truthy rcid = true ->
  dict_get (segment_map (read_slots json csv)) rcid
  = Spec.authoritative_segment json csv rcid.
Proof.
  intros Hr. rewrite read_slots_fallback, read_csv_slot_segment by done.
  unfold Spec.authoritative_segment, Spec.last_nonempty, Spec.json_segments,
    Spec.json_slots.
  destruct json as [data|]; [|done].
  by rewrite read_slots_json_segment.
Qed.

Lemma read_slots_code json csv rcid :
  truthy rcid = true ->
  dict_get (slots_map (read_slots json csv)) rcid
  = Spec.representative_code json csv rcid.
Proof.
  intros Hr. rewrite read_slots_fallback, read_csv_slot_code by done.
  unfold Spec.representative_code, Spec.last_nonempty, Spec.json_codes,
    Spec.json_slots.
  destruct json as [data|]; [|done].
  by rewrite read_slots_json_code.
Qed.
End SlotMaps.

(** ** CourseSlotMerger: the metadata and the merge *)

Section Merge.
Import Combine.
Context (strptime : string -> outcome datetime).

Local Abbreviation from_metadata := (Spec.from_metadata strptime).

Lemma read_row_from_metadata all courses row :
  In row all ->
  (forall kc, In kc courses -> from_metadata all kc) ->
  forall kc, In kc (read_row strptime courses row) -> from_metadata all kc.
Proof.
  intros Hrow Hinv [k c]. unfold read_row.
  destruct (truthy (cell row "rcid")) eqn:Hk; simpl; [|by apply Hinv].
  destruct (dict_mem courses (cell row "rcid")); simpl; [by apply Hinv|].
  intros [[-> ->]|Hin]%dict_set_In; [|by apply Hinv].
  split; [done|]. by exists row.
Qed.

Lemma read_rows_from_metadata all rows : forall courses,
  (forall row, In row rows -> In row all) ->
  (forall kc, In kc courses -> from_metadata all kc) ->
  forall kc, In kc (fold_left (read_row strptime) rows courses) ->
             from_metadata all kc.
Proof.
  induction rows as [|row rows IH]; intros courses Hsub Hinv; simpl; [done|].
  apply IH.
  - intros r Hr. apply Hsub. by right.
  - apply read_row_from_metadata; [|done]. apply Hsub. by left.
Qed.

Lemma read_files_from_metadata all files : forall courses,
  (forall row, In row (Spec.metadata_rows files) -> In row all) ->
  (forall kc, In kc courses -> from_metadata all kc) ->
  forall kc, In kc (fold_left (read_file strptime) files courses) ->
             from_metadata all kc.
Proof.
  induction files as [|file files IH]; intros courses Hsub Hinv; simpl; [done|].
  apply IH.
  - intros r Hr. apply Hsub. simpl. apply in_or_app. by right.
  - destruct file as [rows|]; simpl; [|done].
    apply read_rows_from_metadata; [|done].
    intros r Hr. apply Hsub. simpl. apply in_or_app. by left.
Qed.

Lemma read_courses_from_metadata files kc :
  In kc (read_courses strptime files) ->
  from_metadata (Spec.metadata_rows files) kc.
Proof.
  unfold read_courses. apply read_files_from_metadata; [done|].
  by intros ? [].
Qed.

Lemma merged_courses_In files json csv out :
  In out (merged_courses strptime files json csv) <->
  exists k c, In (k, c) (read_courses strptime files)
              /\ out = merge_course (read_slots json csv) k c.
Proof.
  unfold merged_courses, sorted_courses, merge, dict_values.
  rewrite sorted_In, in_map_iff. split.
  - intros ([k' c'] & <- & ([k c] & [= <- <-] & Hin)%in_map_iff). eauto.
  - intros (k & c & Hin & ->).
    exists (k, merge_course (read_slots json csv) k c). split; [done|].
    apply in_map_iff. by exists (k, c).
Qed.

Lemma merged_courses_length files json csv :
  length (merged_courses strptime files json csv)
  = length (read_courses strptime files).
Proof.
  unfold merged_courses, sorted_courses, merge, dict_values.
  by rewrite sorted_length, !length_map.
Qed.

Lemma merge_course_rcid m k c : rcid (merge_course m k c) = rcid c.
Proof.
  unfold merge_course.
  by destruct (dict_get (slots_map m) k), (dict_get (segment_map m) k).
Qed.

Lemma merge_course_segment m k c :
  segment (merge_course m k c) =
    match dict_get (segment_map m) k with
    | Some s => s
    | None => segment c
    end.
Proof.
  unfold merge_course.
  by destruct (dict_get (slots_map m) k), (dict_get (segment_map m) k).
Qed.

Lemma merge_course_slots m k c :
  slots (merge_course m k c) =
    match dict_get (slots_map m) k with
    | Some s => s
    | None => slots c
    end.
Proof.
  unfold merge_course.
  by destruct (dict_get (slots_map m) k), (dict_get (segment_map m) k).
Qed.

(** An output record: the metadata row it comes from and its two merged
    fields. *)
Lemma merged_record files json csv out :
  In out (merged_courses strptime files json csv) ->
  truthy (rcid out) = true
  /\ exists row,
      In row (Spec.metadata_rows files)
      /\ cell row "rcid" = rcid out
      /\ segment out =
           match Spec.authoritative_segment json csv (rcid out) with
           | Some s => s
           | None => determine_segment (parse_date strptime (cell row "strtdt"))
                                       (parse_date strptime (cell row "enddt"))
           end
      /\ slots out =
           match Spec.representative_code json csv (rcid out) with
           | Some s => s
           | None => ""
           end.
Proof.
  intros (k & c & Hin & ->)%merged_courses_In.
  destruct (read_courses_from_metadata files _ Hin) as (Hk & row & Hrow & Hid & Hc).
  simpl in *. rewrite merge_course_rcid, merge_course_segment, merge_course_slots.
  rewrite read_slots_segment, read_slots_code by done.
  subst c. simpl. split; [done|]. by exists row.
Qed.
End Merge.

(** C5. Every course of the metadata gives one merged output record, and
    the segment of a record is the authoritative segment-name of its course
    when a non-empty one is present, else the heuristic segment computed
    from the dates of its metadata row, which is the empty string when a
    date is missing. A course with authoritative segment "3" and heuristic
    segment "2-4" is emitted with segment "3". *)
Theorem merged_segment_authoritative
    (strptime : string -> outcome datetime)
    (files : list (option (list csv_row)))
    (json : option (dict string json_course)) (csv : option (list csv_row)) :
  (forall rcid c,
      dict_get (Combine.read_courses strptime files) rcid = Some c ->
      In (Combine.merge_course (Combine.read_slots json csv) rcid c)
         (Combine.merged_courses strptime files json csv)) /\
  (forall out,
      In out (Combine.merged_courses strptime files json csv) ->
      exists row,
        In row (Spec.metadata_rows files)
        /\ cell row "rcid" = Combine.rcid out
        /\ let start_dt := Combine.parse_date strptime (cell row "strtdt") in
           let end_dt := Combine.parse_date strptime (cell row "enddt") in
           Combine.segment out =
             match Spec.authoritative_segment json csv (Combine.rcid out) with
             | Some s => s
             | None => Combine.determine_segment start_dt end_dt
             end
           /\ (start_dt = None \/ end_dt = None ->
               Combine.determine_segment start_dt end_dt = "")) /\
  (forall rcid,
      let names := Spec.json_segments json rcid
                   ++ Spec.csv_segments (Spec.fallback_rows json csv) rcid in
      match Spec.authoritative_segment json csv rcid with
      | Some s => s <> "" /\ In s names
      | None => Forall (fun s => s = "") names
      end) /\
  (let files := [Some [[("rcid", "7"); ("ccode", "CS7");
                        ("strtdt", "10 Feb, 2026 00:00");
                        ("enddt", "20 Mar, 2026 00:00")]]] in
   let json := [("7", mk_json_course "7" "CS7" ""
                        [mk_slot_entry "1" "A" "3" ["Mon"]])] in
   map Combine.segment
       (Combine.merged_courses Spec.strptime_fixture files (Some json) None)
   = ["3"]
   /\ map Combine.segment
          (Combine.merged_courses Spec.strptime_fixture files None None)
      = ["2-4"]).
Proof.
  split; [|split; [|split]].
  - intros rcid c Hget. apply merged_courses_In.
    exists rcid, c. split; [by apply dict_get_In|done].
  - intros out Hout.
    destruct (merged_record strptime files json csv out Hout)
      as (_ & row & Hrow & Hid & Hseg & _).
    exists row. repeat split; try done. apply determine_segment_missing.
  - intros rcid names. unfold Spec.authoritative_segment, Spec.last_nonempty.
    rewrite <- last_nonempty_or_app. fold names.
    destruct (Spec.last_nonempty_or None names) as [s|] eqn:Hs.
    + apply last_nonempty_or_In in Hs as [?|[? ?]]; done.
    + by apply last_nonempty_or_None.
  - by vm_compute.
Qed.

Lemma merged_segment_authoritative_witness :
  let files := [Some [[("rcid", "7"); ("ccode", "CS7");
                       ("strtdt", "10 Feb, 2026 00:00");
                       ("enddt", "20 Mar, 2026 00:00")]]] in
  let json := Some [("7", mk_json_course "7" "CS7" ""
                            [mk_slot_entry "1" "A" "3" ["Mon"]])] in
  In (Combine.mk_course "7" "CS7" "" "" "" "3" "A")
     (Combine.merged_courses Spec.strptime_fixture files json None).
Proof.
  intros files json.
  exact (proj1 (merged_segment_authoritative Spec.strptime_fixture files json None)
           "7" (Combine.mk_course "7" "CS7" "" "" "" "2-4" "") eq_refl).
Defined.

(** The failing input of C10: slots.json exists and holds two slots with
    segment-names "A" and "B" but no slot-code, and slots.csv exists. The
    fallback, meant for a missing slots.json, reads slots.csv all the same,
    and the segment of the record is taken from it, not from the last slot
    of the stored list. *)
Lemma last_slot_segment_overridden :
  let files := [Some [[("rcid", "7"); ("ccode", "CS7")]]] in
  let json := Some [("7", mk_json_course "7" "CS7" ""
                            [mk_slot_entry "1" "" "A" ["Mon"];
                             mk_slot_entry "2" "" "B" ["Tue"]])] in
  let csv := Some [[("rcid", "7"); ("segName", "C")]] in
  Spec.last_nonempty (Spec.json_segments json "7") = Some "B"
  /\ map Combine.segment
         (Combine.merged_courses Spec.strptime_fixture files json csv) = ["C"]
  /\ ~ (forall out,
          In out (Combine.merged_courses Spec.strptime_fixture files json csv) ->
          forall seg,
            Spec.last_nonempty (Spec.json_segments json (Combine.rcid out))
            = Some seg ->
            Combine.segment out = seg).
Proof.
  intros files json csv. split; [by vm_compute|]. split; [by vm_compute|].
  intros H.
  specialize (H (Combine.mk_course "7" "CS7" "" "" "" "C" "")).
  assert (Hin : In (Combine.mk_course "7" "CS7" "" "" "" "C" "")
                   (Combine.merged_courses Spec.strptime_fixture files json csv))
    by (vm_compute; by left).
  specialize (H Hin "B" eq_refl). discriminate H.
Qed.

(** No slot-code is read from slots.json for a course unless slots.json
    gives one. *)
Lemma json_code_stops_fallback json csv rcid code :
  Spec.last_nonempty (Spec.json_codes json rcid) = Some code ->
  Spec.fallback_rows json csv = [].
Proof.
  intros H. apply last_nonempty_or_In in H as [?|[Hin Hne]]; [done|].
  unfold Spec.fallback_rows. destruct csv as [rows|]; [|done].
  destruct (Spec.no_json_code json) eqn:Hno; [|done]. exfalso.
  unfold Spec.json_codes, Spec.json_slots in Hin.
  destruct json as [data|]; [|done].
  apply in_map_iff in Hin as (slot & Hcode & Hslot).
  unfold Spec.slots_of in Hslot.
  apply in_flat_map in Hslot as ([r c] & Hrc & Hin').
  destruct (decide (r = rcid)); [|done].
  simpl in Hno. rewrite forallb_forall in Hno.
  specialize (Hno _ Hrc). simpl in Hno. rewrite forallb_forall in Hno.
  specialize (Hno _ Hin'). rewrite Hcode in Hno.
  apply truthy_true in Hne. by rewrite Hne in Hno.
Qed.

(** The last non-empty string of a list that follows a default. *)
Lemma last_nonempty_or_last d l :
  Spec.last_nonempty_or d l =
    match Spec.last_nonempty l with
    | Some s => Some s
    | None => d
    end.
Proof.
  unfold Spec.last_nonempty. revert d.
  induction l as [|x l IH]; intros d; simpl; [done|].
  destruct (truthy x).
  - rewrite (IH (Some x)), (IH None).
    by destruct (Spec.last_nonempty_or None l).
  - apply IH.
Qed.

(** C10. What the code does with the stored slot list of a course. The
    representative slot-code of a record is the last non-empty slot-code
    of the list, and then slots.csv is not read. Its segment is the last
    non-empty segment-name of the list when the rows read from slots.csv
    by the fallback give no segment-name for the course; when they give
    one, the segment is the last such segment-name of slots.csv, whatever
    the stored list holds. The fallback reads the rows of slots.csv
    whenever slots.json gives no slot-code, also when slots.json exists. *)
Theorem merged_last_slot_wins
    (strptime : string -> outcome datetime)
    (files : list (option (list csv_row)))
    (json : option (dict string json_course)) (csv : option (list csv_row))
    (out : Combine.course) :
  In out (Combine.merged_courses strptime files json csv) ->
  (forall code,
      Spec.last_nonempty (Spec.json_codes json (Combine.rcid out)) = Some code ->
      Combine.slots out = code /\ Spec.fallback_rows json csv = []) /\
  (forall seg,
      Spec.last_nonempty (Spec.json_segments json (Combine.rcid out)) = Some seg ->
      Forall (fun s => s = "")
             (Spec.csv_segments (Spec.fallback_rows json csv) (Combine.rcid out)) ->
      Combine.segment out = seg) /\
  (forall seg,
      Spec.last_nonempty
        (Spec.csv_segments (Spec.fallback_rows json csv) (Combine.rcid out))
      = Some seg ->
      Combine.segment out = seg) /\
  (forall rows,
      csv = Some rows -> Spec.no_json_code json = true ->
      Spec.fallback_rows json csv = rows
      /\ Combine.read_slots json csv
         = fold_left Combine.read_csv_slot rows (Combine.read_slots json None)).
Proof.
  intros Hout.
  destruct (merged_record strptime files json csv out Hout)
    as (_ & row & _ & _ & Hseg & Hcode).
  split; [|split; [|split]].
  - intros code Hlast.
    pose proof (json_code_stops_fallback json csv _ _ Hlast) as Hfb.
    split; [|done]. rewrite Hcode.
    unfold Spec.representative_code. by rewrite Hfb, Hlast.
  - intros seg Hlast Hcsv. rewrite Hseg.
    unfold Spec.authoritative_segment. rewrite Hlast.
    destruct (Spec.last_nonempty_or (Some seg) _) as [s|] eqn:Hs.
    + apply last_nonempty_or_In in Hs as [[= ->]|[Hin Hne]]; [done|].
      rewrite List.Forall_forall in Hcsv. by specialize (Hcsv _ Hin).
    + destruct (last_nonempty_or_Some
                  (Spec.csv_segments (Spec.fallback_rows json csv) (Combine.rcid out))
                  seg) as [s' Hs']. congruence.
  - intros seg Hlast. rewrite Hseg.
    unfold Spec.authoritative_segment. by rewrite last_nonempty_or_last, Hlast.
  - intros rows -> Hno.
    assert (Hfb : Spec.fallback_rows json (Some rows) = rows)
      by (unfold Spec.fallback_rows; by rewrite Hno).
    split; [done|]. rewrite !read_slots_fallback, Hfb.
    unfold Spec.fallback_rows. by destruct (Spec.no_json_code json).
Qed.

Lemma merged_last_slot_wins_witness :
  let files := [Some [[("rcid", "7"); ("ccode", "CS7")]]] in
  let json := Some [("7", mk_json_course "7" "CS7" ""
                            [mk_slot_entry "1" "" "A" ["Mon"];
                             mk_slot_entry "2" "" "B" ["Tue"]])] in
  let csv := Some [[("rcid", "7"); ("segName", "C")]] in
  let out := Combine.mk_course "7" "CS7" "" "" "" "C" "" in
  In out (Combine.merged_courses Spec.strptime_fixture files json csv)
  /\ Spec.last_nonempty (Spec.json_segments json "7") = Some "B"
  /\ Combine.segment out = "C".
Proof.
  intros files json csv out.
  assert (Hin : In out (Combine.merged_courses Spec.strptime_fixture files json csv))
    by (vm_compute; by left).
  split; [exact Hin|]. split; [reflexivity|].
  destruct (merged_last_slot_wins Spec.strptime_fixture files json csv out Hin)
    as (_ & _ & Hcsv & _).
  apply Hcsv. reflexivity.
Defined.

(** ** slots.json: what is kept for a key of the aggregation *)

Section BuildJson.
Import GetSlots.
Context (courses : dict string CourseMeta) (segment_map : dict slot_key string).

Local Abbreviation step := (add_json_slot courses segment_map).

Local Abbreviation meta_ok := (Spec.meta_ok courses).

Lemma step_meta acc kv :
  (forall kc, In kc acc -> meta_ok kc) ->
  forall kc, In kc (step acc kv) -> meta_ok kc.
Proof.
  intros Hinv [k c]. destruct kv as [[[rcid slot_id] slot_cd] day_times].
  unfold add_json_slot.
  intros [[-> ->]|Hin]%dict_set_In; [|by apply Hinv].
  unfold Spec.meta_ok. simpl.
  remember (dict_get_default acc rcid _) as e eqn:He.
  unfold dict_get_default in He at 1.
  destruct (dict_get acc rcid) as [c|] eqn:Hget; subst e; [|done].
  apply (Hinv (rcid, c)). by apply dict_get_In.
Qed.

Lemma fold_meta l : forall acc,
  (forall kc, In kc acc -> meta_ok kc) ->
  forall kc, In kc (fold_left step l acc) -> meta_ok kc.
Proof.
  induction l as [|kv l IH]; intros acc Hinv; simpl; [done|].
  by apply IH, step_meta.
Qed.

(** A slot that is in an entry stays in it. *)
Lemma step_keeps acc kv rcid c slot :
  dict_get acc rcid = Some c -> In slot (j_slots c) ->
  exists c', dict_get (step acc kv) rcid = Some c' /\ In slot (j_slots c').
Proof.
  intros Hget Hin. destruct kv as [[[r slot_id] slot_cd] day_times].
  unfold add_json_slot.
  destruct (decide (r = rcid)) as [->|Hne].
  - rewrite dict_get_set_eq. eexists; split; [done|]. simpl.
    unfold dict_get_default. rewrite Hget. apply in_or_app. by left.
  - rewrite dict_get_set_ne by done. eauto.
Qed.

Lemma fold_keeps l : forall acc rcid c slot,
  dict_get acc rcid = Some c -> In slot (j_slots c) ->
  exists c', dict_get (fold_left step l acc) rcid = Some c'
             /\ In slot (j_slots c').
Proof.
  induction l as [|kv l IH]; intros acc rcid c slot Hget Hin; simpl; [eauto|].
  destruct (step_keeps acc kv rcid c slot Hget Hin) as (c' & Hget' & Hin').
  eauto.
Qed.

Local Abbreviation slot_of := (Spec.slot_of segment_map).

Lemma step_adds acc kv :
  exists c, dict_get (step acc kv) (fst (fst (fst kv))) = Some c
            /\ In (slot_of kv) (j_slots c).
Proof.
  destruct kv as [[[rcid slot_id] slot_cd] day_times]. simpl.
  rewrite dict_get_set_eq. eexists; split; [done|]. simpl.
  apply in_or_app. right. by left.
Qed.

Lemma fold_adds l : forall acc kv,
  In kv l ->
  exists c, dict_get (fold_left step l acc) (fst (fst (fst kv))) = Some c
            /\ In (slot_of kv) (j_slots c).
Proof.
  induction l as [|kv' l IH]; intros acc kv; simpl; [done|].
  intros [->|Hin]; [|by apply IH].
  destruct (step_adds acc kv) as (c & Hget & Hslot).
  by apply (fold_keeps l _ _ c).
Qed.
End BuildJson.

Lemma dict_get_map_values {K V W} `{EqDecision K} (f : V -> W)
    (d : dict K V) (k : K) :
  dict_get (map (fun '(k, v) => (k, f v)) d) k = f <$> dict_get d k.
Proof.
  induction d as [|[k' v] d IH]; simpl; [done|].
  by destruct (decide (k' = k)).
Qed.

(** Every key of the aggregation is in slots.json, with its segment-name
    and its sorted day/time strings, under metadata fields that are those
    of the course, or empty when the course is not in the metadata. *)
Lemma build_json_keeps courses st rcid slot_id slot_cd day_times :
  In ((rcid, slot_id, slot_cd), day_times) (GetSlots.slot_map st) ->
  exists c,
    dict_get (GetSlots.build_json courses st) rcid = Some c
    /\ j_rcid c = rcid
    /\ j_ccode c = GetSlots.ccode
                     (dict_get_default courses rcid (GetSlots.mk_CourseMeta rcid "" ""))
    /\ j_cname c = GetSlots.cname
                     (dict_get_default courses rcid (GetSlots.mk_CourseMeta rcid "" ""))
    /\ In (mk_slot_entry slot_id slot_cd
             (dict_get_default (GetSlots.segment_map st) (rcid, slot_id, slot_cd) "")
             (sorted String.ltb (elements day_times)))
          (j_slots c).
Proof.
  intros Hin. unfold GetSlots.build_json.
  destruct (fold_adds courses (GetSlots.segment_map st) (GetSlots.slot_map st) []
              _ Hin) as (c & Hget & Hslot).
  simpl in Hget, Hslot.
  pose proof (fold_meta courses (GetSlots.segment_map st) (GetSlots.slot_map st) []
                (fun kc (H : In kc []) => match H with end) (rcid, c)
                (dict_get_In _ _ _ Hget)) as (Hid & Hcode & Hname).
  simpl in Hid, Hcode, Hname.
  exists (GetSlots.sort_slots c). rewrite dict_get_map_values, Hget.
  repeat split; try done. simpl. by apply sorted_In.
Qed.

(** A run that leaves the fetch loop without an exception writes
    slots.json from the aggregation, whatever ids it holds. *)
Lemma main_writes_json post_timetable fuel a csv_paths r :
  GetSlots.main post_timetable fuel a csv_paths = Some r ->
  match GetSlots.out_json r with
  | Some json =>
      exists st, json = GetSlots.build_json (GetSlots.read_courses csv_paths) st
  | None => GetSlots.exit r <> Return 0
  end.
Proof.
  unfold GetSlots.main.
  repeat match goal with
         | |- context [if ?c then _ else _] =>
             destruct c; [by intros [= <-]|]
         end.
  destruct (GetSlots.sorted_rcids _) as [[|rcid rcids]|ex];
    [by intros [= <-]| |by intros [= <-]].
  destruct (_ =? 0)%Z; [by intros [= <-]|].
  destruct (GetSlots.chunked _ _) as [batches|ex]; [|by intros [= <-]].
  destruct (GetSlots.batch_loop _ _ _ _ _ _ _ _) as [[st' [ex|]]|];
    [by intros [= <-] | | done].
  destruct (GetSlots.write_csv _ _) as [rows [ex|]]; intros [= <-]; simpl; eauto.
Qed.

(** C9. Every record of the final merged table has a non-empty course-id
    that is the id of a metadata row, and the table has one record per
    metadata course whatever ids slots.json and slots.csv hold; in
    get_slots, a key of the aggregation whose course-id is not in the
    metadata is kept in slots.json with its segment-name and day/times,
    under empty code and name, and slots.json is written by every run that
    leaves the fetch loop normally. *)
Theorem merged_records_from_metadata
    (strptime : string -> outcome datetime)
    (files : list (option (list csv_row)))
    (json : option (dict string json_course)) (csv : option (list csv_row)) :
  (forall out,
      In out (Combine.merged_courses strptime files json csv) ->
      Combine.rcid out <> ""
      /\ exists row, In row (Spec.metadata_rows files)
                     /\ cell row "rcid" = Combine.rcid out) /\
  length (Combine.merged_courses strptime files json csv)
  = length (Combine.read_courses strptime files) /\
  (forall courses st rcid slot_id slot_cd day_times,
      In ((rcid, slot_id, slot_cd), day_times) (GetSlots.slot_map st) ->
      dict_get courses rcid = None ->
      exists c,
        dict_get (GetSlots.build_json courses st) rcid = Some c
        /\ j_rcid c = rcid /\ j_ccode c = "" /\ j_cname c = ""
        /\ In (mk_slot_entry slot_id slot_cd
                 (dict_get_default (GetSlots.segment_map st)
                                   (rcid, slot_id, slot_cd) "")
                 (sorted String.ltb (elements day_times)))
              (j_slots c)) /\
  (forall post_timetable fuel a csv_paths r,
      GetSlots.main post_timetable fuel a csv_paths = Some r ->
      match GetSlots.out_json r with
      | Some out =>
          exists st, out = GetSlots.build_json (GetSlots.read_courses csv_paths) st
      | None => GetSlots.exit r <> Return 0
      end).
Proof.
  split; [|split; [|split]].
  - intros out Hout.
    destruct (merged_record strptime files json csv out Hout)
      as (Hk & row & Hrow & Hid & _).
    split; [by apply truthy_true|]. by exists row.
  - apply merged_courses_length.
  - intros courses st rcid slot_id slot_cd day_times Hin Hnone.
    destruct (build_json_keeps courses st rcid slot_id slot_cd day_times Hin)
      as (c & Hget & Hid & Hcode & Hname & Hslot).
    unfold dict_get_default in Hcode, Hname. rewrite Hnone in Hcode, Hname.
    by exists c.
  - apply main_writes_json.
Qed.

Lemma merged_records_from_metadata_witness :
  let files := [Some [[("rcid", "7"); ("ccode", "CS7")]]] in
  let json := Some [("8", mk_json_course "8" "" ""
                            [mk_slot_entry "1" "S1" "A" ["Mon"]])] in
  let out := Combine.mk_course "7" "CS7" "" "" "" "" "" in
  Combine.rcid out <> ""
  /\ exists row, In row (Spec.metadata_rows files)
                 /\ cell row "rcid" = Combine.rcid out.
Proof.
  intros files json out.
  apply (proj1 (merged_records_from_metadata Spec.strptime_fixture files json None)).
  vm_compute. by left.
Defined.

(** The end-to-end scenario of the specification on the merge side:
    slots.json holds course 101 (slot S1, segment "2") and course 102
    (slot S2, no segment); course 103 has dates only. *)
Example merge_scenario :
  let files :=
    [Some [[("rcid", "103"); ("ccode", "CS103");
            ("strtdt", "05 Jan, 2026 00:00"); ("enddt", "09 Feb, 2026 00:00")];
           [("rcid", "101"); ("ccode", "CS101")];
           [("rcid", "102"); ("ccode", "CS102")]]] in
  let json :=
    Some [("101", mk_json_course "101" "CS101" ""
                    [mk_slot_entry "1" "S1" "2" ["Mon-Tue"]]);
          ("102", mk_json_course "102" "CS102" ""
                    [mk_slot_entry "2" "S2" "" ["Wed"]])] in
  Combine.output_rows Spec.strptime_fixture files json None
  = [["CS101"; ""; ""; ""; "2"; "S1"];
     ["CS102"; ""; ""; ""; ""; "S2"];
     ["CS103"; ""; ""; ""; "1-2"; ""]].
Proof. by vm_compute. Qed.

(** * Further properties of the two scripts *)

(** ** Dictionaries keep their keys distinct *)

Section DictKeys.
Context {K V : Type} `{EqDecision K}.
Implicit Types (d : dict K V) (k : K) (v : V).

Lemma dict_get_not_In d k : ~ In k (dict_keys d) -> dict_get d k = None.
Proof.
  induction d as [|[k' v'] d IH]; simpl; [done|].
  intros Hnin. destruct (decide (k' = k)) as [->|Hne]; [tauto|].
  apply IH. tauto.
Qed.

Lemma dict_set_keys d k v :
  dict_keys (dict_set d k v)
  = if dict_mem d k then dict_keys d else dict_keys d ++ [k].
Proof.
  unfold dict_mem. induction d as [|[k' v'] d IH]; simpl; [done|].
  destruct (decide (k' = k)) as [->|Hne]; simpl; [done|].
  rewrite IH. by destruct (dict_get d k).
Qed.

Lemma dict_set_NoDup d k v :
  NoDup (dict_keys d) -> NoDup (dict_keys (dict_set d k v)).
Proof.
  intros Hnd. rewrite dict_set_keys. unfold dict_mem.
  destruct (dict_get d k) eqn:Hget; [done|].
  apply NoDup_app.
  split; [done|]. split; [|apply NoDup_singleton].
  intros x Hx Hk. apply list_elem_of_singleton in Hk as ->.
  apply list_elem_of_In in Hx. by apply dict_get_None in Hget.
Qed.
End DictKeys.

(** ** The stable sort sorts *)

Section SortedOrder.
Context {A : Type} (lt : A -> A -> bool) (P : A -> Prop).
Hypothesis lt_asym : forall a b, P a -> P b -> lt a b = true -> lt b a = false.
Hypothesis le_trans : forall a b c,
  P a -> P b -> P c -> lt b a = false -> lt c b = false -> lt c a = false.

Local Abbreviation le := (fun a b => lt b a = false).

Lemma insert_sorted_sorted x l :
  P x -> List.Forall P l ->
  StronglySorted le l -> StronglySorted le (insert_sorted lt x l).
Proof.
  intros Hx. induction l as [|y l IH]; intros HP Hs; simpl.
  - repeat constructor.
  - apply List.Forall_cons_iff in HP as [Hy HP].
    apply StronglySorted_inv in Hs as [Hs Hall].
    destruct (lt x y) eqn:Hxy.
    + constructor; [by constructor|].
      constructor; [by apply lt_asym|].
      rewrite List.Forall_forall in *. intros z Hz.
      apply (le_trans x y z); auto.
    + constructor; [by apply IH|].
      rewrite List.Forall_forall in *. intros z Hz.
      apply (Permutation_in _ (insert_sorted_perm lt x l)) in Hz as [<-|Hz]; auto.
  Qed.

Lemma sorted_sorted l : List.Forall P l -> StronglySorted le (sorted lt l).
Proof.
  unfold sorted. intros HP.
  assert (Hgen : forall acc, List.Forall P acc -> StronglySorted le acc ->
            StronglySorted le (fold_left (fun acc x => insert_sorted lt x acc) l acc)).
  { induction l as [|x l IH]; intros acc Hacc Hs; simpl; [done|].
    apply List.Forall_cons_iff in HP as [Hx HP].
    apply IH; [done| |by apply insert_sorted_sorted].
    rewrite List.Forall_forall in *. intros z Hz.
    apply (Permutation_in _ (insert_sorted_perm lt x acc)) in Hz as [<-|Hz]; auto. }
  apply Hgen; constructor.
Qed.
End SortedOrder.

Lemma string_ltb_asym a b : String.ltb a b = true -> String.ltb b a = false.
Proof.
  unfold String.ltb. rewrite (String.compare_antisym b a).
  by destruct (String.compare a b).
Qed.

Lemma string_ltb_false a b : String.ltb b a = false <-> String.leb a b = true.
Proof.
  unfold String.ltb, String.leb. rewrite (String.compare_antisym b a).
  destruct (String.compare a b); simpl; split; done.
Qed.

Lemma string_leb_trans a b c :
  String.leb a b = true -> String.leb b c = true -> String.leb a c = true.
Proof.
  intros H1 H2. apply Is_true_true.
  apply (@transitivity _ String.le _ a b c); by apply Is_true_true.
Qed.

Lemma StronglySorted_weaken {A} (R R' : A -> A -> Prop) l :
  (forall a b, In a l -> In b l -> R a b -> R' a b) ->
  StronglySorted R l -> StronglySorted R' l.
Proof.
  induction l as [|x l IH]; intros Himp Hs; [constructor|].
  apply StronglySorted_inv in Hs as [Hs Hall].
  constructor.
  - apply IH; [|done]. intros a b Ha Hb. apply Himp; by right.
  - rewrite List.Forall_forall in *. intros y Hy.
    apply Himp; [by left | by right | auto].
Qed.

Lemma sorted_strings l :
  StronglySorted Spec.str_le (sorted String.ltb l).
Proof.
  apply (StronglySorted_weaken (fun a b => String.ltb b a = false)).
  - intros a b _ _ H. by apply string_ltb_false.
  - apply (sorted_sorted String.ltb (fun _ => True)).
    + intros a b _ _. apply string_ltb_asym.
    + intros a b c _ _ _. rewrite !string_ltb_false. apply string_leb_trans.
    + by apply List.Forall_forall.
Qed.

(** ** Reading the course metadata *)

Lemma first_row_app rows1 rows2 rcid :
  Spec.first_row (rows1 ++ rows2) rcid =
    match Spec.first_row rows1 rcid with
    | Some row => Some row
    | None => Spec.first_row rows2 rcid
    end.
Proof.
  unfold Spec.first_row. induction rows1 as [|row rows1 IH]; simpl; [done|].
  by destruct (bool_decide (cell row "rcid" = rcid)).
Qed.

Lemma first_row_cons row rows rcid :
  Spec.first_row (row :: rows) rcid =
    match Spec.first_row [row] rcid with
    | Some row => Some row
    | None => Spec.first_row rows rcid
    end.
Proof. apply (first_row_app [row]). Qed.

Lemma first_row_Some rows rcid row :
  Spec.first_row rows rcid = Some row -> In row rows /\ cell row "rcid" = rcid.
Proof.
  unfold Spec.first_row. intros [Hin Hb]%find_some.
  split; [done|]. by apply bool_decide_eq_true in Hb.
Qed.

Section GetSlotsCourses.
Import GetSlots.

Lemma gs_read_row_get courses row rcid :
  rcid <> "" ->
  dict_get (read_row courses row) rcid =
    match dict_get courses rcid with
    | Some c => Some c
    | None => Spec.meta_of_row rcid <$> Spec.first_row [row] rcid
    end.
Proof.
  intros Hne. unfold read_row, Spec.first_row. simpl.
  destruct (truthy (cell row "rcid")) eqn:Hk; simpl.
  - unfold dict_mem. case_bool_decide as Heq.
    + rewrite Heq. destruct (dict_get courses rcid) eqn:Hg; simpl.
      * by rewrite Hg.
      * by rewrite dict_get_set_eq.
    + destruct (dict_get courses (cell row "rcid")); simpl.
      * by destruct (dict_get courses rcid).
      * rewrite dict_get_set_ne by done. by destruct (dict_get courses rcid).
  - apply truthy_false in Hk. rewrite bool_decide_eq_false_2 by congruence.
    by destruct (dict_get courses rcid).
Qed.

Lemma gs_read_rows_get rows rcid : forall courses,
  rcid <> "" ->
  dict_get (fold_left read_row rows courses) rcid =
    match dict_get courses rcid with
    | Some c => Some c
    | None => Spec.meta_of_row rcid <$> Spec.first_row rows rcid
    end.
Proof.
  induction rows as [|row rows IH]; intros courses Hne; cbn [fold_left].
  - by destruct (dict_get courses rcid).
  - rewrite IH, gs_read_row_get by done.
    rewrite (first_row_cons row rows).
    destruct (dict_get courses rcid); [done|].
    by destruct (Spec.first_row [row] rcid).
Qed.

Lemma gs_read_row_keys courses row :
  NoDup (dict_keys courses) /\ ~ In "" (dict_keys courses) ->
  NoDup (dict_keys (read_row courses row))
  /\ ~ In "" (dict_keys (read_row courses row)).
Proof.
  intros [Hnd Hne]. unfold read_row.
  destruct (truthy (cell row "rcid")) eqn:Hk; simpl; [|done].
  destruct (dict_mem courses (cell row "rcid")) eqn:Hm; [done|].
  split; [by apply dict_set_NoDup|].
  rewrite dict_set_keys, Hm. intros [Hin|[Heq|[]]]%in_app_or; [done|].
  by rewrite Heq in Hk.
Qed.

Lemma gs_read_rows_keys rows : forall courses,
  NoDup (dict_keys courses) /\ ~ In "" (dict_keys courses) ->
  NoDup (dict_keys (fold_left read_row rows courses))
  /\ ~ In "" (dict_keys (fold_left read_row rows courses)).
Proof.
  induction rows as [|row rows IH]; intros courses H; simpl; [done|].
  by apply IH, gs_read_row_keys.
Qed.

Lemma gs_read_files csv_paths rcid : forall courses,
  let result :=
    fold_left (fun courses file =>
                 match file with
                 | None => courses
                 | Some rows => fold_left read_row rows courses
                 end) csv_paths courses in
  (NoDup (dict_keys courses) /\ ~ In "" (dict_keys courses) ->
   NoDup (dict_keys result) /\ ~ In "" (dict_keys result))
  /\ (rcid <> "" ->
      dict_get result rcid =
        match dict_get courses rcid with
        | Some c => Some c
        | None => Spec.meta_of_row rcid
                    <$> Spec.first_row (Spec.metadata_rows csv_paths) rcid
        end).
Proof.
  induction csv_paths as [|file files IH]; intros courses; simpl.
  - split; [done|]. intros _. by destruct (dict_get courses rcid).
  - destruct file as [rows|]; simpl; [|apply IH].
    destruct (IH (fold_left read_row rows courses)) as [Hk Hg]. split.
    + intros H. by apply Hk, gs_read_rows_keys.
    + intros Hne. rewrite Hg, gs_read_rows_get, first_row_app by done.
      destruct (dict_get courses rcid); [done|].
      by destruct (Spec.first_row rows rcid).
Qed.
End GetSlotsCourses.

(** X1. [read_courses] of get_slots keeps, for every course-id, the code
    and name of the first row (in file order, then row order) that has the
    id; rows without an id are skipped, the keys of the result are
    distinct and never empty. *)
Theorem read_courses_first_wins (csv_paths : list (option (list csv_row)))
    (rcid : string) :
  NoDup (dict_keys (GetSlots.read_courses csv_paths))
  /\ dict_get (GetSlots.read_courses csv_paths) "" = None
  /\ (rcid <> "" ->
      dict_get (GetSlots.read_courses csv_paths) rcid
      = Spec.meta_of_row rcid
          <$> Spec.first_row (Spec.metadata_rows csv_paths) rcid).
Proof.
  destruct (gs_read_files csv_paths rcid []) as [Hk Hg].
  destruct Hk as [Hnd Hne]; [split; [constructor|by intros []]|].
  split; [done|]. split; [by apply dict_get_not_In|].
  intros H. exact (Hg H).
Qed.

Lemma read_courses_first_wins_witness :
  dict_get (GetSlots.read_courses
              [None;
               Some [[("rcid", ""); ("ccode", "X")];
                     [("rcid", " 101 "); ("ccode", "CS101")]];
               Some [[("rcid", "101"); ("ccode", "CS999")]]]) "101"
  = Some (GetSlots.mk_CourseMeta "101" "CS101" "").
Proof.
  apply (proj2 (proj2 (read_courses_first_wins
                         [None;
                          Some [[("rcid", ""); ("ccode", "X")];
                                [("rcid", " 101 "); ("ccode", "CS101")]];
                          Some [[("rcid", "101"); ("ccode", "CS999")]]] "101"))).
  discriminate.
Defined.

Section CombineCourses.
Import Combine.
Context (strptime : string -> outcome datetime).

Lemma cb_read_row_get courses row rcid :
  rcid <> "" ->
  dict_get (read_row strptime courses row) rcid =
    match dict_get courses rcid with
    | Some c => Some c
    | None => course_of_row strptime rcid <$> Spec.first_row [row] rcid
    end.
Proof.
  intros Hne. unfold read_row, Spec.first_row. simpl.
  destruct (truthy (cell row "rcid")) eqn:Hk; simpl.
  - unfold dict_mem. case_bool_decide as Heq.
    + rewrite Heq. destruct (dict_get courses rcid) eqn:Hg; simpl.
      * by rewrite Hg.
      * by rewrite dict_get_set_eq.
    + destruct (dict_get courses (cell row "rcid")); simpl.
      * by destruct (dict_get courses rcid).
      * rewrite dict_get_set_ne by done. by destruct (dict_get courses rcid).
  - apply truthy_false in Hk. rewrite bool_decide_eq_false_2 by congruence.
    by destruct (dict_get courses rcid).
Qed.

Lemma cb_read_rows_get rows rcid : forall courses,
  rcid <> "" ->
  dict_get (fold_left (read_row strptime) rows courses) rcid =
    match dict_get courses rcid with
    | Some c => Some c
    | None => course_of_row strptime rcid <$> Spec.first_row rows rcid
    end.
Proof.
  induction rows as [|row rows IH]; intros courses Hne; cbn [fold_left].
  - by destruct (dict_get courses rcid).
  - rewrite IH, cb_read_row_get by done.
    rewrite (first_row_cons row rows).
    destruct (dict_get courses rcid); [done|].
    by destruct (Spec.first_row [row] rcid).
Qed.

Lemma cb_read_row_keys courses row :
  NoDup (dict_keys courses) -> NoDup (dict_keys (read_row strptime courses row)).
Proof.
  intros Hnd. unfold read_row.
  destruct (truthy (cell row "rcid")); simpl; [|done].
  destruct (dict_mem courses (cell row "rcid")); simpl; [done|].
  by apply dict_set_NoDup.
Qed.

Lemma cb_read_files files rcid : forall courses,
  (NoDup (dict_keys courses) ->
   NoDup (dict_keys (fold_left (read_file strptime) files courses)))
  /\ (rcid <> "" ->
      dict_get (fold_left (read_file strptime) files courses) rcid =
        match dict_get courses rcid with
        | Some c => Some c
        | None => course_of_row strptime rcid
                    <$> Spec.first_row (Spec.metadata_rows files) rcid
        end).
Proof.
  induction files as [|file files IH]; intros courses; simpl.
  - split; [done|]. intros _. by destruct (dict_get courses rcid).
  - destruct file as [rows|]; simpl; [|apply IH].
    destruct (IH (fold_left (read_row strptime) rows courses)) as [Hk Hg]. split.
    + intros H. apply Hk. clear Hk Hg IH. revert courses H.
      induction rows as [|row rows IHr]; intros courses H; simpl; [done|].
      by apply IHr, cb_read_row_keys.
    + intros Hne. rewrite Hg, cb_read_rows_get, first_row_app by done.
      destruct (dict_get courses rcid); [done|].
      by destruct (Spec.first_row rows rcid).
Qed.
End CombineCourses.

(** X2. In combine_courses_slots the course kept for an id is built from
    the first metadata row that has the id (its code, name, coordinator,
    credits and the segment computed from its dates); later rows with the
    same id are ignored, and the ids of [courses] are distinct. *)
Theorem combine_courses_first_wins
    (strptime : string -> outcome datetime)
    (files : list (option (list csv_row))) (rcid : string) :
  NoDup (dict_keys (Combine.read_courses strptime files))
  /\ (rcid <> "" ->
      dict_get (Combine.read_courses strptime files) rcid
      = Combine.course_of_row strptime rcid
          <$> Spec.first_row (Spec.metadata_rows files) rcid).
Proof.
  destruct (cb_read_files strptime files rcid []) as [Hk Hg].
  split; [apply Hk; constructor|]. intros H. exact (Hg H).
Qed.

Lemma combine_courses_first_wins_witness :
  dict_get (Combine.read_courses Spec.strptime_fixture
              [Some [[("rcid", "7"); ("ccode", "CS7");
                      ("strtdt", "05 Jan, 2026 00:00");
                      ("enddt", "09 Feb, 2026 00:00")];
                     [("rcid", "7"); ("ccode", "CS8")]]]) "7"
  = Some (Combine.mk_course "7" "CS7" "" "" "" "1-2" "").
Proof.
  apply (proj2 (combine_courses_first_wins Spec.strptime_fixture
                  [Some [[("rcid", "7"); ("ccode", "CS7");
                          ("strtdt", "05 Jan, 2026 00:00");
                          ("enddt", "09 Feb, 2026 00:00")];
                         [("rcid", "7"); ("ccode", "CS8")]]] "7")).
  discriminate.
Defined.

(** ** Sorting the course-ids *)

Lemma forallb_false_ex {A} (f : A -> bool) l :
  forallb f l = false -> exists x, In x l /\ f x = false.
Proof.
  induction l as [|x l IH]; simpl; [done|].
  destruct (f x) eqn:Hx; simpl.
  - intros (y & Hy & Hf)%IH. exists y. split; [by right|done].
  - intros _. exists x. split; [by left|done].
Qed.

Lemma is_int_id_key k : GetSlots.is_int (GetSlots.id_key k) = isdigit k.
Proof. unfold GetSlots.id_key. by destruct (isdigit k). Qed.

(** X3. For course-ids of ASCII characters, none longer than the 4300
    digits [int] converts: sorting them raises [TypeError] exactly when
    numeric and non-numeric ids are mixed; otherwise the result is a
    permutation of the ids, in ascending numeric order when all are
    numeric and in ascending string order when none is. *)
Theorem sorted_rcids_order (keys : list string) :
  Forall Spec.plain_id keys ->
  match GetSlots.sorted_rcids keys with
  | Raise ex =>
      ex = TypeError
      /\ exists a b, In a keys /\ In b keys
                     /\ isdigit a = true /\ isdigit b = false
  | Return l =>
      Permutation l keys
      /\ ((forall k, In k keys -> isdigit k = true) \/
          (forall k, In k keys -> isdigit k = false))
      /\ ((forall k, In k keys -> isdigit k = true) ->
          StronglySorted Spec.int_le l)
      /\ ((forall k, In k keys -> isdigit k = false) ->
          StronglySorted Spec.str_le l)
  end.
Proof.
  intros _. unfold GetSlots.sorted_rcids, GetSlots.same_kind.
  set (lt := fun a b => GetSlots.id_key_ltb (GetSlots.id_key a) (GetSlots.id_key b)).
  assert (Hnum : (forall k, In k keys -> isdigit k = true) ->
                 StronglySorted Spec.int_le (sorted lt keys)).
  { intros Hall.
    apply (StronglySorted_weaken (fun a b => lt b a = false)).
    - intros a b Ha%sorted_In Hb%sorted_In. unfold lt, GetSlots.id_key.
      rewrite (Hall a Ha), (Hall b Hb). simpl. unfold Spec.int_le. lia.
    - apply (sorted_sorted lt (fun k => isdigit k = true)).
      + intros a b Ha Hb. unfold lt, GetSlots.id_key. rewrite Ha, Hb. simpl. lia.
      + intros a b c Ha Hb Hc. unfold lt, GetSlots.id_key.
        rewrite Ha, Hb, Hc. simpl. lia.
      + by apply List.Forall_forall. }
  assert (Hstring : (forall k, In k keys -> isdigit k = false) ->
                    StronglySorted Spec.str_le (sorted lt keys)).
  { intros Hnone.
    apply (StronglySorted_weaken (fun a b => lt b a = false)).
    - intros a b Ha%sorted_In Hb%sorted_In. unfold lt, GetSlots.id_key.
      rewrite (Hnone a Ha), (Hnone b Hb). simpl. apply string_ltb_false.
    - apply (sorted_sorted lt (fun k => isdigit k = false)).
      + intros a b Ha Hb. unfold lt, GetSlots.id_key. rewrite Ha, Hb. simpl.
        apply string_ltb_asym.
      + intros a b c Ha Hb Hc. unfold lt, GetSlots.id_key.
        rewrite Ha, Hb, Hc. simpl. rewrite !string_ltb_false.
        apply string_leb_trans.
      + by apply List.Forall_forall. }
  destruct (forallb GetSlots.is_int (map GetSlots.id_key keys)) eqn:Hint; simpl.
  { split; [apply sorted_perm|]. split; [|done].
    left. intros k Hk. rewrite forallb_forall in Hint.
    rewrite <- is_int_id_key. apply Hint, in_map_iff. eauto. }
  destruct (forallb (fun k => negb (GetSlots.is_int k))
                    (map GetSlots.id_key keys)) eqn:Hstr; simpl.
  { split; [apply sorted_perm|]. split; [|done].
    right. intros k Hk. rewrite forallb_forall in Hstr.
    specialize (Hstr (GetSlots.id_key k)). rewrite is_int_id_key in Hstr.
    apply negb_true_iff, Hstr, in_map_iff. eauto. }
  split; [done|].
  apply forallb_false_ex in Hint as (kb & [b [<- Hb]]%in_map_iff & Hfb).
  apply forallb_false_ex in Hstr as (ka & [a [<- Ha]]%in_map_iff & Hfa).
  rewrite is_int_id_key in Hfb, Hfa. apply negb_false_iff in Hfa.
  exists a, b. done.
Qed.

Lemma sorted_rcids_order_witness :
  GetSlots.sorted_rcids ["102"; "9"; "101"] = Return ["9"; "101"; "102"]
  /\ StronglySorted Spec.int_le ["9"; "101"; "102"]
  /\ GetSlots.sorted_rcids ["102"; "x9"] = Raise TypeError.
Proof.
  assert (Hplain : forall keys,
             forallb (fun k => Spec.all_ascii k
                               && (String.length k <=? 4300)%nat) keys = true ->
             Forall Spec.plain_id keys).
  { intros keys H. apply List.Forall_forall. intros k Hk.
    rewrite forallb_forall in H. apply H, andb_true_iff in Hk as [H1 H2].
    split; [done|]. by apply Nat.leb_le. }
  split; [reflexivity|]. split; [|reflexivity].
  pose proof (sorted_rcids_order ["102"; "9"; "101"]
                (Hplain ["102"; "9"; "101"] eq_refl)) as H.
  change (GetSlots.sorted_rcids ["102"; "9"; "101"])
    with (@Return (list string) ["9"; "101"; "102"]) in H.
  apply H. intros k [<-|[<-|[<-|[]]]]; reflexivity.
Defined.

(** ** The aggregator: day/time sets, discarded rows, invariants *)

Section AggregatorSets.
Import GetSlots.

Lemma process_item_days st it key :
  Spec.accepted it = true ->
  dict_get (slot_map (process_item st it)) key =
    if bool_decide (Spec.row_key it = key)
    then Some ({[ field it "slotPeriodCdDays" ]}
               ∪ default ∅ (dict_get (slot_map st) key))
    else dict_get (slot_map st) key.
Proof.
  intros Hacc. rewrite process_item_accepted by done. simpl.
  unfold add_day_time, dict_get_default. case_bool_decide as Heq.
  - rewrite Heq, dict_get_set_eq. by destruct (dict_get (slot_map st) key).
  - by rewrite dict_get_set_ne.
Qed.

Lemma process_items_days rows : forall st key,
  dict_get (slot_map (process_items st rows)) key =
    match Spec.key_days key rows with
    | [] => dict_get (slot_map st) key
    | days => Some (list_to_set days ∪ default ∅ (dict_get (slot_map st) key))
    end.
Proof.
  unfold process_items, Spec.key_days.
  induction rows as [|it rows IH]; intros st key; cbn [fold_left List.filter map];
    [done|].
  rewrite IH. destruct (Spec.accepted it) eqn:Hacc; cbn [andb].
  - rewrite process_item_days by done.
    destruct (bool_decide (Spec.row_key it = key)); cbn [map]; [|done].
    set (rest := map _ (List.filter _ rows)).
    destruct rest as [|d rest]; f_equal.
    + simpl. by rewrite (right_id_L ∅ (∪)).
    + set (L := list_to_set (d :: rest)).
      rewrite list_to_set_cons. fold L.
      match goal with
      | |- context [default ∅ (Some ?X)] => change (default ∅ (Some X)) with X
      end.
      by rewrite (assoc_L (∪) L), (comm_L (∪) L).
  - by rewrite process_item_rejected.
Qed.

Lemma process_items_filter rows : forall st,
  process_items st rows = process_items st (List.filter Spec.accepted rows).
Proof.
  unfold process_items.
  induction rows as [|it rows IH]; intros st; simpl; [done|].
  destruct (Spec.accepted it) eqn:Hacc; simpl; [apply IH|].
  rewrite process_item_rejected by done. apply IH.
Qed.

Lemma process_item_ok st it : Spec.agg_ok st -> Spec.agg_ok (process_item st it).
Proof.
  intros (Hk1 & Hk2 & Hdays & Hseg).
  destruct (Spec.accepted it) eqn:Hacc; [|by rewrite process_item_rejected].
  assert (Hacc' := Hacc). unfold Spec.accepted in Hacc'.
  apply andb_true_iff in Hacc' as [Hid Hday].
  apply truthy_true in Hid, Hday.
  unfold Spec.agg_ok. split; [|split; [|split]].
  - rewrite process_item_accepted by done. by apply dict_set_NoDup.
  - rewrite process_item_accepted by done. simpl.
    destruct (_ && _); [by apply dict_set_NoDup|done].
  - intros key days. rewrite process_item_days by done.
    case_bool_decide as Heq; [|apply Hdays].
    intros [= <-]. rewrite <- Heq. split; [done|].
    destruct (dict_get (slot_map st) (Spec.row_key it)) as [old|] eqn:Hold;
      simpl.
    + apply Hdays in Hold as (_ & _ & Hold).
      split; [apply non_empty_union_L; left; apply non_empty_singleton_L|].
      intros [Hin%elem_of_singleton|Hin]%elem_of_union; [by symmetry in Hin|done].
    + rewrite (right_id_L ∅ (∪)).
      split; [apply non_empty_singleton_L|].
      by intros Hin%elem_of_singleton.
  - intros key seg.
    rewrite process_item_segment, process_item_days by done.
    destruct (dict_get (segment_map st) key) as [s|] eqn:Hs.
    + intros [= <-]. apply Hseg in Hs as [Hne Hs].
      split; [done|]. by case_bool_decide.
    + destruct (truthy (field it "segName")) eqn:Ht; [|done].
      case_bool_decide; [|done]. intros [= <-].
      split; [by apply truthy_true|done].
Qed.
End AggregatorSets.

(** X4. After any sequence of rows the day/time set of a key is the set it
    had before together with the day/time strings of the accepted rows of
    the key: repeated strings are kept once, and a key without an accepted
    row is left as it was. *)
Theorem aggregated_day_times (st : GetSlots.agg) (rows : list GetSlots.item)
    (key : GetSlots.slot_key) :
  dict_get (GetSlots.slot_map (GetSlots.process_items st rows)) key =
    match Spec.key_days key rows with
    | [] => dict_get (GetSlots.slot_map st) key
    | days => Some (list_to_set days
                    ∪ default ∅ (dict_get (GetSlots.slot_map st) key))
    end.
Proof. apply process_items_days. Qed.

(** X5. Rows that lack a course-id or a day/time string have no effect on
    the aggregation, wherever they occur in the sequence; a course-id that
    is absent, [null], [false], the number 0 or blank counts as lacking. *)
Theorem malformed_rows_discarded (st : GetSlots.agg)
    (rows : list GetSlots.item) :
  GetSlots.process_items st rows
  = GetSlots.process_items st (List.filter Spec.accepted rows)
  /\ forall it,
      (dict_get it "runningCourseId" = None
       \/ dict_get it "runningCourseId" = Some GetSlots.JNull
       \/ dict_get it "runningCourseId" = Some (GetSlots.JBool false)
       \/ dict_get it "runningCourseId" = Some (GetSlots.JInt 0)
       \/ exists s, dict_get it "runningCourseId" = Some (GetSlots.JStr s)
                    /\ strip s = "") ->
      Spec.accepted it = false /\ GetSlots.process_item st it = st.
Proof.
  split; [apply process_items_filter|].
  intros it H.
  assert (Hrej : Spec.accepted it = false).
  { unfold Spec.accepted, GetSlots.field.
    destruct H as [->|[->|[->|[->|(s & -> & Hs)]]]]; try done.
    by rewrite Hs. }
  split; [done|]. by apply process_item_rejected.
Qed.

Lemma malformed_rows_discarded_witness :
  let it : GetSlots.item :=
    [("runningCourseId", GetSlots.JInt 0);
     ("slotPeriodCdDays", GetSlots.JStr "Mon");
     ("segName", GetSlots.JStr "3")] in
  GetSlots.process_item (GetSlots.mk_agg [] []) it = GetSlots.mk_agg [] [].
Proof.
  intros it.
  apply (proj2 (malformed_rows_discarded (GetSlots.mk_agg [] []) [])).
  right; right; right; left. reflexivity.
Defined.

(** X6. The aggregation maps of every run have distinct keys; every key
    has a non-empty course-id and a non-empty set of non-empty day/time
    strings; a segment-name is recorded only for a key that has a day/time
    set, and is never empty. *)
Theorem aggregation_invariant (rows : list GetSlots.item) :
  Spec.agg_ok (GetSlots.process_items (GetSlots.mk_agg [] []) rows).
Proof.
  assert (H0 : Spec.agg_ok (GetSlots.mk_agg [] [])).
  { unfold Spec.agg_ok. simpl. repeat split; try constructor; done. }
  revert H0. generalize (GetSlots.mk_agg [] []).
  unfold GetSlots.process_items.
  induction rows as [|it rows IH]; intros st Hst; simpl; [done|].
  by apply IH, process_item_ok.
Qed.

(** ** The fetch loop for an arbitrary endpoint *)

Section FetchLoop.
Import GetSlots.
Context (post_timetable : nat -> list string -> outcome (list item)).
Context (retries sleep_ms total_batches : Z).

Local Abbreviation attempt_loop :=
  (attempt_loop post_timetable retries total_batches).
Local Abbreviation batch_loop :=
  (batch_loop post_timetable retries sleep_ms total_batches).
Local Abbreviation rows_of_calls := (Spec.rows_of_calls post_timetable).

Lemma calls_app tr1 tr2 : calls (tr1 ++ tr2) = (calls tr1 + calls tr2)%nat.
Proof. unfold calls. by rewrite List.filter_app, length_app. Qed.

Lemma reports_app tr1 tr2 :
  Spec.reports (tr1 ++ tr2) = Spec.reports tr1 ++ Spec.reports tr2.
Proof.
  induction tr1 as [|e tr1 IH]; simpl; [done|].
  destruct e; simpl; by rewrite ?IH.
Qed.

Lemma rows_of_calls_app tr1 : forall n tr2,
  rows_of_calls n (tr1 ++ tr2)
  = rows_of_calls n tr1 ++ rows_of_calls (n + calls tr1) tr2.
Proof.
  induction tr1 as [|e tr1 IH]; intros n tr2; simpl.
  - by rewrite Nat.add_0_r.
  - destruct e; simpl; rewrite IH; try done.
    rewrite <- app_assoc. do 2 f_equal. unfold calls. simpl. f_equal. lia.
Qed.

Lemma process_items_app st rows1 rows2 :
  process_items st (rows1 ++ rows2)
  = process_items (process_items st rows1) rows2.
Proof. apply fold_left_app. Qed.

Local Ltac count_calls :=
  unfold calls, Spec.calls_for in *; simpl in *;
  repeat case_bool_decide; simpl in *; try done; try lia.

(** What the loop of one batch does, whatever the endpoint answers. *)
Lemma attempt_loop_spec batch_index batch fuel : forall attempt st st' r,
  attempt_loop fuel batch_index batch attempt st = Some (st', r) ->
  exists new,
    st_trace st' = st_trace st ++ new
    /\ st_agg st'
       = process_items (st_agg st) (rows_of_calls (calls (st_trace st)) new)
    /\ 1 <= Z.of_nat (calls new) <= Z.max 1 (retries + 2 - attempt)
    /\ Spec.calls_for batch new = calls new
    /\ match r with
       | None => Spec.reports new = [batch_index]
       | Some ex =>
           caught ex = false /\ Spec.reports new = []
           /\ exists pre,
               new = pre ++ [Call batch]
               /\ post_timetable (calls (st_trace st ++ pre)) batch = Raise ex
       end.
Proof.
  induction fuel as [|fuel IH]; intros attempt st st' r; simpl; [done|].
  destruct (post_timetable (calls (st_trace st)) batch) as [items|ex] eqn:Hpost.
  - intros [= <- <-]. exists [Call batch; Fetched batch_index total_batches
                                             (len batch) (len items)].
    simpl. rewrite Hpost, app_nil_r, <- app_assoc.
    repeat split; try done; count_calls.
  - destruct (caught ex) eqn:Hcaught.
    + destruct (Z.leb_spec (attempt + 1) (retries + 1)) as [Hle|Hgt].
      * intros (new & Htr & Hagg & Hcalls & Hfor & Hr)%IH.
        exists (Call batch :: Warn batch_index total_batches (attempt + 1)
                :: Sleep 800 :: new).
        simpl in Htr, Hagg. rewrite <- !app_assoc in Htr. simpl in Htr.
        rewrite !calls_app in Hagg. simpl in Hagg.
        split; [done|]. simpl. rewrite Hpost. simpl.
        split.
        { rewrite Hagg. do 2 f_equal. unfold calls. simpl. lia. }
        split; [count_calls|]. split; [count_calls|].
        destruct r as [ex'|]; [|done].
        destruct Hr as (Hc & Hrep & pre & -> & Hraise).
        split; [done|]. split; [done|].
        exists (Call batch :: Warn batch_index total_batches (attempt + 1)
                :: Sleep 800 :: pre).
        split; [done|]. rewrite <- Hraise. do 2 f_equal.
        simpl. by rewrite <- !app_assoc.
      * intros [= <- <-]. exists [Call batch; Failed batch_index total_batches].
        simpl. rewrite Hpost, <- app_assoc.
        repeat split; try done; count_calls.
    + intros [= <- <-]. exists [Call batch]. simpl. rewrite Hpost.
      split; [done|]. split; [done|]. split; [count_calls|].
      split; [count_calls|]. split; [done|]. split; [done|].
      exists []. by rewrite app_nil_r.
Qed.

Lemma batch_indices_length batch_index k :
  length (Spec.batch_indices batch_index k) = k.
Proof. revert batch_index. induction k as [|k IH]; intros; simpl; [done|]. by rewrite IH. Qed.

(** What the loop over the batches does, whatever the endpoint answers. *)
Lemma batch_loop_spec fuel batches : forall batch_index st st' r,
  batch_loop fuel batch_index batches st = Some (st', r) ->
  exists new,
    st_trace st' = st_trace st ++ new
    /\ st_agg st'
       = process_items (st_agg st) (rows_of_calls (calls (st_trace st)) new)
    /\ match r with
       | None =>
           Spec.reports new = Spec.batch_indices batch_index (length batches)
           /\ Z.of_nat (length batches) <= Z.of_nat (calls new)
              <= Z.of_nat (length batches) * Z.max 1 (retries + 2)
           /\ (batches = [] -> new = [])
           /\ (batches <> [] -> last new = Some (Sleep (Z.max 0 sleep_ms)))
       | Some ex =>
           caught ex = false
           /\ exists pre batch,
               In batch batches /\ new = pre ++ [Call batch]
               /\ post_timetable (calls (st_trace st ++ pre)) batch = Raise ex
       end.
Proof.
  induction batches as [|batch rest IH]; intros batch_index st st' r; simpl.
  - intros [= <- <-]. exists []. rewrite app_nil_r. simpl.
    repeat split; try done; lia.
  - destruct (GetSlots.attempt_loop _ _ _ fuel batch_index batch 0 st)
      as [[st1 [ex|]]|] eqn:Hloop; [| |done].
    + intros [= <- <-].
      apply attempt_loop_spec in Hloop
        as (new & Htr & Hagg & _ & _ & Hc & _ & pre & Hnew & Hraise).
      exists new. split; [done|]. split; [done|]. split; [done|].
      exists pre, batch. split; [by left|done].
    + apply attempt_loop_spec in Hloop
        as (new1 & Htr1 & Hagg1 & Hcalls1 & _ & Hrep1).
      intros (new2 & Htr2 & Hagg2 & Hr)%IH.
      cbn [emit st_trace st_agg] in Htr2, Hagg2.
      exists (new1 ++ Sleep (Z.max 0 sleep_ms) :: new2).
      split.
      { rewrite Htr2, Htr1, <- !app_assoc. done. }
      split.
      { rewrite Hagg2, Hagg1, <- process_items_app. f_equal.
        rewrite rows_of_calls_app. cbn [Spec.rows_of_calls]. do 2 f_equal.
        rewrite Htr1, !calls_app. unfold calls. cbn. lia. }
      destruct r as [ex|].
      * destruct Hr as (Hc & pre & b & Hin & -> & Hraise).
        split; [done|].
        exists (new1 ++ Sleep (Z.max 0 sleep_ms) :: pre), b.
        split; [by right|]. split; [by rewrite <- app_assoc|].
        rewrite <- Hraise. do 2 f_equal.
        cbn [emit st_trace]. rewrite Htr1, <- !app_assoc. done.
      * destruct Hr as (Hrep2 & Hcalls2 & Hnil & Hlast).
        split; [by rewrite reports_app, Hrep1; simpl; rewrite Hrep2|].
        split.
        { rewrite calls_app. replace (calls (Sleep (Z.max 0 sleep_ms) :: new2))
            with (calls new2) by done.
          replace (retries + 2 - 0) with (retries + 2) in Hcalls1 by lia.
          set (M := Z.max 1 (retries + 2)) in *. cbn [length].
          rewrite Nat2Z.inj_succ, Nat2Z.inj_add. nia. }
        split; [by destruct new1|]. intros _.
        destruct rest as [|b rest].
        -- rewrite Hnil by done. apply last_snoc.
        -- rewrite last_app. cbn [last]. rewrite last_cons.
           by rewrite Hlast.
Qed.

Lemma uncaught_raises_app tr1 : forall n tr2,
  Spec.uncaught_raises post_timetable n (tr1 ++ tr2)
  = Spec.uncaught_raises post_timetable n tr1
    ++ Spec.uncaught_raises post_timetable (n + calls tr1) tr2.
Proof.
  induction tr1 as [|e tr1 IH]; intros n tr2; simpl.
  - by rewrite Nat.add_0_r.
  - destruct e; simpl; rewrite IH; try done.
    rewrite <- app_assoc. do 2 f_equal. unfold calls. simpl. f_equal. lia.
Qed.

(** The loop of one batch ends with an exception exactly when a call
    raised one outside the [except] clause, and that call is its last. *)
Lemma attempt_loop_uncaught batch_index batch fuel : forall attempt st st' r,
  attempt_loop fuel batch_index batch attempt st = Some (st', r) ->
  exists new,
    st_trace st' = st_trace st ++ new
    /\ Spec.uncaught_raises post_timetable (calls (st_trace st)) new
       = Spec.raised_result r.
Proof.
  induction fuel as [|fuel IH]; intros attempt st st' r; simpl; [done|].
  destruct (post_timetable (calls (st_trace st)) batch) as [items|ex] eqn:Hpost.
  - intros [= <- <-]. eexists. simpl. rewrite <- app_assoc.
    split; [done|]. simpl. by rewrite Hpost.
  - destruct (caught ex) eqn:Hcaught.
    + destruct (Z.leb_spec (attempt + 1) (retries + 1)) as [Hle|Hgt].
      * intros (new & Htr & Hraise)%IH.
        exists (Call batch :: Warn batch_index total_batches (attempt + 1)
                :: Sleep 800 :: new).
        cbn [emit st_trace] in Htr, Hraise.
        split; [by rewrite Htr, <- !app_assoc|].
        simpl. rewrite Hpost, Hcaught. simpl. rewrite <- Hraise. f_equal.
        rewrite !calls_app. unfold calls. simpl. lia.
      * intros [= <- <-]. eexists. simpl. rewrite <- app_assoc.
        split; [done|]. simpl. by rewrite Hpost, Hcaught.
    + intros [= <- <-]. exists [Call batch]. split; [done|].
      simpl. by rewrite Hpost, Hcaught.
Qed.

Lemma batch_loop_uncaught fuel batches : forall batch_index st st' r,
  batch_loop fuel batch_index batches st = Some (st', r) ->
  exists new,
    st_trace st' = st_trace st ++ new
    /\ Spec.uncaught_raises post_timetable (calls (st_trace st)) new
       = Spec.raised_result r.
Proof.
  induction batches as [|batch rest IH]; intros batch_index st st' r; simpl.
  - intros [= <- <-]. exists []. by rewrite app_nil_r.
  - destruct (GetSlots.attempt_loop _ _ _ fuel batch_index batch 0 st)
      as [[st1 [ex|]]|] eqn:Hloop; [| |done].
    + intros [= <- <-]. by apply attempt_loop_uncaught in Hloop.
    + apply attempt_loop_uncaught in Hloop as (new1 & Htr1 & Hraise1).
      intros (new2 & Htr2 & Hraise2)%IH.
      cbn [emit st_trace] in Htr2, Hraise2.
      exists (new1 ++ Sleep (Z.max 0 sleep_ms) :: new2).
      split; [by rewrite Htr2, Htr1, <- !app_assoc|].
      rewrite uncaught_raises_app, Hraise1. cbn [Spec.raised_result app].
      cbn [Spec.uncaught_raises]. rewrite <- Hraise2. f_equal.
      rewrite Htr1, !calls_app. unfold calls. cbn. lia.
Qed.
End FetchLoop.

(** X7. Whatever the endpoint answers, the loop of one batch ends, having
    called the endpoint at least once and at most [retries + 2] times
    (once when [retries] is negative), always with the ids of that batch. *)
Theorem attempts_bounded
    (post_timetable : nat -> list string -> outcome (list GetSlots.item))
    (retries total_batches batch_index : Z) (batch : list string)
    (fuel : nat) (st : GetSlots.fetch_state) :
  (1 <= fuel)%nat -> retries + 2 <= Z.of_nat fuel ->
  exists st' r new,
    GetSlots.attempt_loop post_timetable retries total_batches fuel
      batch_index batch 0 st = Some (st', r)
    /\ GetSlots.st_trace st' = GetSlots.st_trace st ++ new
    /\ 1 <= Z.of_nat (GetSlots.calls new) <= Z.max 1 (retries + 2)
    /\ Spec.calls_for batch new = GetSlots.calls new.
Proof.
  intros H1 Hfuel.
  destruct (attempt_loop_total post_timetable retries total_batches fuel
              batch_index batch 0 st) as [[st' r] Hloop]; [done|lia|].
  exists st', r.
  destruct (attempt_loop_spec _ _ _ _ _ _ _ _ _ _ Hloop)
    as (new & Htr & _ & Hcalls & Hfor & _).
  exists new. replace (retries + 2 - 0) with (retries + 2) in Hcalls by lia.
  done.
Qed.

Lemma attempts_bounded_witness :
  let post_timetable (n : nat) (batch : list string)
    : outcome (list GetSlots.item) :=
    if (n <? 2)%nat then Raise TimeoutError else Return [] in
  exists st' r new,
    GetSlots.attempt_loop post_timetable 2 1 4 1 ["101"] 0
      (GetSlots.mk_fetch_state (GetSlots.mk_agg [] []) []) = Some (st', r)
    /\ GetSlots.st_trace st' = [] ++ new
    /\ 1 <= Z.of_nat (GetSlots.calls new) <= Z.max 1 (2 + 2)
    /\ Spec.calls_for ["101"] new = GetSlots.calls new.
Proof.
  intros post_timetable.
  apply (attempts_bounded post_timetable 2 1 1 ["101"] 4
           (GetSlots.mk_fetch_state (GetSlots.mk_agg [] []) [])); lia.
Defined.

(** X8. The aggregation after the fetch loop is the aggregation before it
    fed with the rows of the calls that returned, in the order of the
    calls: attempts that raised contribute nothing, and the rows of a batch
    are fed once, by the attempt that succeeded. *)
Theorem aggregation_of_returned_rows
    (post_timetable : nat -> list string -> outcome (list GetSlots.item))
    (retries sleep_ms total_batches batch_index : Z)
    (batches : list (list string)) (fuel : nat)
    (st st' : GetSlots.fetch_state) (r : option exn) :
  GetSlots.batch_loop post_timetable retries sleep_ms total_batches fuel
    batch_index batches st = Some (st', r) ->
  exists new,
    GetSlots.st_trace st' = GetSlots.st_trace st ++ new
    /\ GetSlots.st_agg st'
       = GetSlots.process_items (GetSlots.st_agg st)
           (Spec.rows_of_calls post_timetable
              (GetSlots.calls (GetSlots.st_trace st)) new).
Proof.
  intros (new & Htr & Hagg & _)%batch_loop_spec. by exists new.
Qed.

Lemma aggregation_of_returned_rows_witness :
  let row (id : Z) : GetSlots.item :=
    [("runningCourseId", GetSlots.JInt id);
     ("slotPeriodCdDays", GetSlots.JStr "Mon")] in
  let post_timetable (n : nat) (batch : list string)
    : outcome (list GetSlots.item) :=
    match n with
    | 0%nat => Raise URLError
    | 1%nat => Return [row 101]
    | _ => Return [row 103]
    end in
  exists st',
    GetSlots.batch_loop post_timetable 2 0 2 4 1 [["101"; "102"]; ["103"]]
      (GetSlots.mk_fetch_state (GetSlots.mk_agg [] []) []) = Some (st', None)
    /\ GetSlots.st_agg st'
       = GetSlots.process_items (GetSlots.mk_agg [] []) [row 101; row 103].
Proof.
  intros row post_timetable. eexists. split; [reflexivity|].
  destruct (aggregation_of_returned_rows post_timetable 2 0 2 1
              [["101"; "102"]; ["103"]] 4
              (GetSlots.mk_fetch_state (GetSlots.mk_agg [] []) []) _ None eq_refl)
    as (new & Htr & Hagg).
  apply app_inv_head with (l := []) in Htr. subst new. exact Hagg.
Defined.

(** X9. An exception outside the [except] clause is neither retried nor
    swallowed: the fetch loop ends, and it ends with an exception exactly
    when a call raised one outside the [except] clause; that call is then
    the last thing the loop did, so no later attempt or batch is fetched,
    and a loop that ends normally has met no such exception. *)
Theorem uncaught_exception_aborts
    (post_timetable : nat -> list string -> outcome (list GetSlots.item))
    (retries sleep_ms total_batches batch_index : Z)
    (batches : list (list string)) (fuel : nat) (st : GetSlots.fetch_state) :
  (1 <= fuel)%nat -> retries + 2 <= Z.of_nat fuel ->
  exists st' r new,
    GetSlots.batch_loop post_timetable retries sleep_ms total_batches fuel
      batch_index batches st = Some (st', r)
    /\ GetSlots.st_trace st' = GetSlots.st_trace st ++ new
    /\ Spec.uncaught_raises post_timetable
         (GetSlots.calls (GetSlots.st_trace st)) new
       = Spec.raised_result r
    /\ (forall ex,
          r = Some ex ->
          GetSlots.caught ex = false
          /\ exists pre batch,
              In batch batches
              /\ new = pre ++ [GetSlots.Call batch]
              /\ post_timetable
                   (GetSlots.calls (GetSlots.st_trace st ++ pre)) batch
                 = Raise ex).
Proof.
  intros H1 Hfuel.
  destruct (batch_loop_total post_timetable retries sleep_ms total_batches
              fuel batches batch_index st) as [[st' r] Hloop]; [done|lia|].
  exists st', r.
  destruct (batch_loop_uncaught _ _ _ _ _ _ _ _ _ _ Hloop)
    as (new & Htr & Hraise).
  exists new. split; [done|]. split; [done|]. split; [done|].
  intros ex ->.
  destruct (batch_loop_spec _ _ _ _ _ _ _ _ _ _ Hloop)
    as (new' & Htr' & _ & Hc & pre & batch & Hin & Hnew & Hpost).
  rewrite Htr in Htr'. apply app_inv_head in Htr'. subst new'.
  split; [done|]. by exists pre, batch.
Qed.

Lemma uncaught_exception_aborts_witness :
  let post_timetable (n : nat) (batch : list string)
    : outcome (list GetSlots.item) :=
    match n with
    | 0%nat => Return []
    | _ => Raise OtherError
    end in
  exists st',
    GetSlots.batch_loop post_timetable 2 0 3 4 1 [["101"]; ["102"]; ["103"]]
      (GetSlots.mk_fetch_state (GetSlots.mk_agg [] []) [])
    = Some (st', Some OtherError)
    /\ Spec.uncaught_raises post_timetable 0 (GetSlots.st_trace st')
       = [OtherError]
    /\ GetSlots.calls (GetSlots.st_trace st') = 2%nat.
Proof.
  intros post_timetable.
  destruct (uncaught_exception_aborts post_timetable 2 0 3 1
              [["101"]; ["102"]; ["103"]] 4
              (GetSlots.mk_fetch_state (GetSlots.mk_agg [] []) []))
    as (st' & r & new & Hloop & Htr & Hraise & _); [lia|lia|].
  cbn [GetSlots.st_trace GetSlots.calls app] in Htr, Hraise.
  rewrite <- Htr in Hraise.
  assert (Hrun : GetSlots.batch_loop post_timetable 2 0 3 4 1
                   [["101"]; ["102"]; ["103"]]
                   (GetSlots.mk_fetch_state (GetSlots.mk_agg [] []) [])
                 = Some (st', r)) by exact Hloop.
  vm_compute in Hrun. injection Hrun as <- <-.
  eexists. split; [exact Hloop|]. split; [exact Hraise|]. reflexivity.
Defined.

(** X10. When the fetch loop ends normally, every batch has been reported
    once, fetched or failed, in the order of the batch indices; the number
    of calls is between the number of batches and that number times
    [retries + 2]; and the last thing the loop does is the delay between
    batches. *)
Theorem batches_reported_in_order
    (post_timetable : nat -> list string -> outcome (list GetSlots.item))
    (retries sleep_ms total_batches batch_index : Z)
    (batches : list (list string)) (fuel : nat)
    (st st' : GetSlots.fetch_state) :
  GetSlots.batch_loop post_timetable retries sleep_ms total_batches fuel
    batch_index batches st = Some (st', None) ->
  exists new,
    GetSlots.st_trace st' = GetSlots.st_trace st ++ new
    /\ Spec.reports new = Spec.batch_indices batch_index (length batches)
    /\ Z.of_nat (length batches) <= Z.of_nat (GetSlots.calls new)
       <= Z.of_nat (length batches) * Z.max 1 (retries + 2)
    /\ (batches <> [] ->
        last new = Some (GetSlots.Sleep (Z.max 0 sleep_ms))).
Proof.
  intros (new & Htr & _ & Hrep & Hcalls & _ & Hlast)%batch_loop_spec.
  by exists new.
Qed.

Lemma batches_reported_in_order_witness :
  let post_timetable (n : nat) (batch : list string)
    : outcome (list GetSlots.item) :=
    match n with
    | 0%nat => Return []
    | _ => Raise ValueError
    end in
  exists st' new,
    GetSlots.batch_loop post_timetable 0 (-5) 2 2 1 [["101"]; ["102"]]
      (GetSlots.mk_fetch_state (GetSlots.mk_agg [] []) []) = Some (st', None)
    /\ GetSlots.st_trace st' = [] ++ new
    /\ Spec.reports new = [1; 2].
Proof.
  intros post_timetable. eexists.
  destruct (batches_reported_in_order post_timetable 0 (-5) 2 1
              [["101"]; ["102"]] 2
              (GetSlots.mk_fetch_state (GetSlots.mk_agg [] []) []) _ eq_refl)
    as (new & Htr & Hrep & _).
  exists new. split; [reflexivity|]. split; [exact Htr | exact Hrep].
Defined.

(** X11. The slots.json of a run is built from the course metadata and the
    rows of the calls that returned, in the order of the calls, and from
    nothing else. *)
Theorem json_of_returned_rows
    (post_timetable : nat -> list string -> outcome (list GetSlots.item))
    (fuel : nat) (a : GetSlots.args) (csv_paths : list (option (list csv_row)))
    (r : GetSlots.run) (json : dict string json_course) :
  GetSlots.main post_timetable fuel a csv_paths = Some r ->
  GetSlots.out_json r = Some json ->
  json = GetSlots.build_json (GetSlots.read_courses csv_paths)
           (GetSlots.process_items (GetSlots.mk_agg [] [])
              (Spec.rows_of_calls post_timetable 0 (GetSlots.trace r))).
Proof.
  unfold GetSlots.main.
  repeat match goal with
         | |- context [if ?c then _ else _] =>
             destruct c; [by intros [= <-]|]
         end.
  destruct (GetSlots.sorted_rcids _) as [[|rcid rcids]|ex];
    [by intros [= <-]| |by intros [= <-]].
  destruct (_ =? 0)%Z; [by intros [= <-]|].
  destruct (GetSlots.chunked _ _) as [batches|ex]; [|by intros [= <-]].
  destruct (GetSlots.batch_loop _ _ _ _ _ _ _ _) as [[st' [ex|]]|] eqn:Hloop;
    [by intros [= <-] | | done].
  apply batch_loop_spec in Hloop as (new & Htr & Hagg & _).
  simpl in Htr, Hagg. subst new.
  destruct (GetSlots.write_csv _ _) as [rows [ex|]];
    intros [= <-] [= <-]; simpl; by rewrite Hagg.
Qed.

Lemma json_of_returned_rows_witness :
  let it : GetSlots.item :=
    [("runningCourseId", GetSlots.JInt 101); ("courseSlotId", GetSlots.JInt 7);
     ("courseSlotCd", GetSlots.JStr "S1");
     ("slotPeriodCdDays", GetSlots.JStr "Mon-Tue");
     ("segName", GetSlots.JStr "2")] in
  let post_timetable (n : nat) (batch : list string) := Return [it] in
  let a := GetSlots.mk_args "S1" "JSESSIONID=x" 20 200 2 "" "" in
  let csv_paths := [Some [[("rcid", "101"); ("ccode", "CS101")]]] in
  exists r json,
    GetSlots.main post_timetable 4 a csv_paths = Some r
    /\ GetSlots.out_json r = Some json
    /\ json = GetSlots.build_json (GetSlots.read_courses csv_paths)
                (GetSlots.process_items (GetSlots.mk_agg [] []) [it]).
Proof.
  intros it post_timetable a csv_paths. eexists _, _.
  split; [vm_compute; reflexivity|]. split; [reflexivity|].
  exact (json_of_returned_rows post_timetable 4 a csv_paths _ _ eq_refl eq_refl).
Defined.

(** X12. A run without a student id or without a cookie (neither on the
    command line nor in the environment), or whose CSV files give no
    course-id, ends with exit status 2 before any remote call and writes
    no file. *)
Theorem missing_configuration_exits_2
    (post_timetable : nat -> list string -> outcome (list GetSlots.item))
    (fuel : nat) (a : GetSlots.args) (csv_paths : list (option (list csv_row))) :
  (GetSlots.student_id a = "" /\ GetSlots.env_student_id a = "")
  \/ (GetSlots.cookie a = "" /\ GetSlots.env_cookie a = "")
  \/ GetSlots.read_courses csv_paths = [] ->
  GetSlots.main post_timetable fuel a csv_paths
  = Some (GetSlots.mk_run (Return 2) [] None None).
Proof.
  unfold GetSlots.main. intros [[-> ->] | [[-> ->] | -> ]]; simpl.
  - done.
  - by destruct (truthy (if truthy _ then _ else _)).
  - by repeat match goal with
              | |- context [if ?c then _ else _] => destruct c
              end.
Qed.

Lemma missing_configuration_exits_2_witness :
  GetSlots.main (fun _ _ => Return []) 4
    (GetSlots.mk_args "S1" "" 20 200 2 "" "")
    [Some [[("rcid", "101")]]]
  = Some (GetSlots.mk_run (Return 2) [] None None).
Proof.
  apply missing_configuration_exits_2. right; left. split; reflexivity.
Defined.

(** ** slots.json: order and content *)

Lemma string_compare_lt_trans a b c :
  String.compare a b = Lt -> String.compare b c = Lt -> String.compare a c = Lt.
Proof.
  intros Hab Hbc.
  assert (Hle : String.leb a c = true).
  { apply (string_leb_trans a b c); unfold String.leb; by rewrite ?Hab, ?Hbc. }
  unfold String.leb in Hle. destruct (String.compare a c) eqn:Hac; try done.
  apply String.compare_eq_iff in Hac as ->.
  rewrite String.compare_antisym, Hab in Hbc. done.
Qed.

Lemma string_compare_refl s : String.compare s s = Eq.
Proof.
  pose proof (String.compare_antisym s s) as H.
  destruct (String.compare s s); simpl in H; congruence.
Qed.

Lemma pair_ltb_false (a b : slot_entry) :
  pair_ltb (courseSlotId b, courseSlotCd b) (courseSlotId a, courseSlotCd a)
  = false <-> Spec.slot_le a b.
Proof.
  unfold pair_ltb, Spec.slot_le. cbn [fst snd].
  rewrite (String.compare_antisym (courseSlotId b) (courseSlotId a)).
  destruct (String.compare (courseSlotId a) (courseSlotId b)) eqn:Hc;
    cbn [CompOpp].
  - apply String.compare_eq_iff in Hc. rewrite string_ltb_false. split.
    + intros H. by right.
    + by intros [?|[_ ?]].
  - split; [by left|done].
  - split; [done|]. intros [?|[Heq _]]; [done|].
    rewrite Heq in Hc. clear Heq.
    rewrite string_compare_refl in Hc. done.
Qed.

Lemma slot_le_trans a b c : Spec.slot_le a b -> Spec.slot_le b c -> Spec.slot_le a c.
Proof.
  unfold Spec.slot_le. intros [Hab|[Hab Hab']] [Hbc|[Hbc Hbc']].
  - left. by apply (string_compare_lt_trans _ (courseSlotId b)).
  - left. by rewrite <- Hbc.
  - left. by rewrite Hab.
  - right. split; [congruence|]. by apply (string_leb_trans _ (courseSlotCd b)).
Qed.

Lemma slot_le_total a b : Spec.slot_le a b \/ Spec.slot_le b a.
Proof.
  unfold Spec.slot_le.
  destruct (String.compare (courseSlotId a) (courseSlotId b)) eqn:Hc.
  - apply String.compare_eq_iff in Hc.
    destruct (String.leb_total (courseSlotCd a) (courseSlotCd b)); [left|right];
      right; done.
  - by left; left.
  - right; left. by rewrite String.compare_antisym, Hc.
Qed.

Lemma sort_slots_sorted c :
  StronglySorted Spec.slot_le (j_slots (GetSlots.sort_slots c)).
Proof.
  unfold GetSlots.sort_slots. simpl.
  set (lt := fun a b : slot_entry => pair_ltb _ _).
  apply (StronglySorted_weaken (fun a b => lt b a = false)).
  - intros a b _ _. apply pair_ltb_false.
  - apply (sorted_sorted lt (fun _ => True)).
    + intros a b _ _ Hab. apply pair_ltb_false.
      destruct (slot_le_total a b) as [H|H]; [done|].
      apply pair_ltb_false in H. unfold lt in Hab. congruence.
    + intros a b c' _ _ _. unfold lt. rewrite !pair_ltb_false.
      apply slot_le_trans.
    + by apply List.Forall_forall.
Qed.

Section JsonContent.
Import GetSlots.
Context (courses : dict string CourseMeta) (segment_map : dict slot_key string).

Local Abbreviation step := (add_json_slot courses segment_map).
Local Abbreviation slot_of := (Spec.slot_of segment_map).

Local Abbreviation json_inv := (Spec.json_inv segment_map).

Lemma total_slots_set acc k c :
  (Spec.total_slots (dict_set acc k c)
   + length (j_slots (dict_get_default acc k (mk_json_course k "" "" []))))%nat
  = (Spec.total_slots acc + length (j_slots c))%nat.
Proof.
  unfold Spec.total_slots, dict_get_default.
  induction acc as [|[k' c'] acc IH]; simpl; [lia|].
  destruct (decide (k' = k)) as [->|Hne]; simpl; lia.
Qed.

Lemma step_inv seen acc kv :
  json_inv seen acc -> json_inv (seen ++ [kv]) (step acc kv).
Proof.
  intros (Hnd & Htot & Hkeys & Hslots). unfold Spec.json_inv.
  destruct kv as [[[rcid slot_id] slot_cd] day_times] eqn:Hkv.
  unfold add_json_slot.
  set (dflt := mk_json_course rcid _ _ []).
  set (entry := dict_get_default acc rcid dflt).
  set (slot := mk_slot_entry _ _ _ _).
  set (c' := mk_json_course _ _ _ _).
  assert (Hentry : length (j_slots entry)
                   = length (j_slots (dict_get_default acc rcid
                                        (mk_json_course rcid "" "" [])))).
  { unfold entry, dict_get_default. by destruct (dict_get acc rcid). }
  split; [by apply dict_set_NoDup|]. split; [|split].
  - pose proof (total_slots_set acc rcid c') as H.
    rewrite <- Hentry in H. subst c'. simpl in H.
    rewrite length_app in *. simpl in *. lia.
  - intros k. rewrite dict_set_keys. split.
    + intros Hin.
      assert (Hcase : In k (dict_keys acc) \/ k = rcid).
      { destruct (dict_mem acc rcid); [by left|].
        apply in_app_or in Hin as [?|[<-|[]]]; [by left|by right]. }
      destruct Hcase as [(kv' & Hin' & Hk)%Hkeys| ->].
      * exists kv'. split; [apply in_or_app; by left|done].
      * exists (rcid, slot_id, slot_cd, day_times).
        split; [apply in_or_app; right; by left|done].
    + intros (kv' & [Hin'|[<-|[]]]%in_app_or & Hk).
      * assert (In k (dict_keys acc)) by (apply Hkeys; eauto).
        destruct (dict_mem acc rcid); [done|]. apply in_or_app. by left.
      * simpl in Hk. subst k. unfold dict_mem.
        destruct (dict_get acc rcid) eqn:Hg.
        -- apply dict_get_In in Hg. apply in_map_iff. by exists (rcid, j).
        -- apply in_or_app. right. by left.
  - intros k c sl [[-> ->]|Hin]%dict_set_In Hsl.
    + subst c'. simpl in Hsl. apply in_app_or in Hsl as [Hsl|[<-|[]]].
      * unfold entry, dict_get_default in Hsl.
        destruct (dict_get acc rcid) as [e|] eqn:Hg; [|done].
        apply dict_get_In in Hg.
        destruct (Hslots _ _ _ Hg Hsl) as (kv' & Hin' & Hk & Heq).
        exists kv'. split; [apply in_or_app; by left|done].
      * exists (rcid, slot_id, slot_cd, day_times).
        split; [apply in_or_app; right; by left|done].
    + destruct (Hslots _ _ _ Hin Hsl) as (kv' & Hin' & Hk & Heq).
      exists kv'. split; [apply in_or_app; by left|done].
Qed.

Lemma fold_inv l : forall seen acc,
  json_inv seen acc -> json_inv (seen ++ l) (fold_left step l acc).
Proof.
  induction l as [|kv l IH]; intros seen acc Hinv; simpl.
  - by rewrite app_nil_r.
  - replace (seen ++ kv :: l) with ((seen ++ [kv]) ++ l)
      by by rewrite <- app_assoc.
    by apply IH, step_inv.
Qed.
End JsonContent.

Lemma build_json_entries courses st k c :
  In (k, c) (GetSlots.build_json courses st) ->
  exists c0,
    In (k, c0) (fold_left (GetSlots.add_json_slot courses (GetSlots.segment_map st))
                          (GetSlots.slot_map st) [])
    /\ c = GetSlots.sort_slots c0.
Proof.
  unfold GetSlots.build_json.
  intros ([k0 c0] & [= <- <-] & Hin)%in_map_iff. by exists c0.
Qed.

Lemma build_json_inv courses st :
  Spec.json_inv (GetSlots.segment_map st) (GetSlots.slot_map st)
    (fold_left (GetSlots.add_json_slot courses (GetSlots.segment_map st))
               (GetSlots.slot_map st) []).
Proof.
  apply (fold_inv courses (GetSlots.segment_map st) (GetSlots.slot_map st) [] []).
  unfold Spec.json_inv. simpl. repeat split; try done; try constructor.
  - by intros (kv & [] & _).
Qed.

(** X13. In slots.json the slot list of every course is in ascending order
    of (slot-id, slot-code); every slot is the one of its own key (the
    course-id it is filed under, its slot-id and its slot-code): it carries
    the segment-name recorded for that key, and its day/time list is in
    ascending string order, without repetition, and holds exactly the
    day/time strings aggregated for that key. *)
Theorem slots_json_sorted (courses : dict string GetSlots.CourseMeta)
    (st : GetSlots.agg) (k : string) (c : json_course) :
  In (k, c) (GetSlots.build_json courses st) ->
  StronglySorted Spec.slot_le (j_slots c)
  /\ forall slot,
      In slot (j_slots c) ->
      let key := (k, courseSlotId slot, courseSlotCd slot) in
      StronglySorted Spec.str_le (slotPeriodCdDays slot)
      /\ NoDup (slotPeriodCdDays slot)
      /\ segName slot = dict_get_default (GetSlots.segment_map st) key ""
      /\ exists days,
          In (key, days) (GetSlots.slot_map st)
          /\ slotPeriodCdDays slot = sorted String.ltb (elements days)
          /\ forall d, In d (slotPeriodCdDays slot) <-> d ∈ days.
Proof.
  intros (c0 & Hin & ->)%build_json_entries.
  split; [apply sort_slots_sorted|].
  intros slot Hslot. simpl in Hslot. apply sorted_In in Hslot.
  destruct (build_json_inv courses st) as (_ & _ & _ & Hslots).
  destruct (Hslots _ _ _ Hin Hslot) as ([[[rcid sid] scd] days] & Hkv & Hk & ->).
  unfold Spec.key_rcid in Hk. simpl in Hk. subst rcid.
  simpl. split; [apply sorted_strings|]. split; [|split; [done|]].
  - rewrite (sorted_perm String.ltb (elements days)).
    apply NoDup_elements.
  - exists days. split; [done|]. split; [done|]. intros d.
    rewrite sorted_In, <- list_elem_of_In. apply elem_of_elements.
Qed.

Lemma slots_json_sorted_witness :
  let row (sid day : string) : GetSlots.item :=
    [("runningCourseId", GetSlots.JInt 101); ("courseSlotId", GetSlots.JStr sid);
     ("slotPeriodCdDays", GetSlots.JStr day)] in
  let st := GetSlots.process_items (GetSlots.mk_agg [] [])
              [row "9" "Wed"; row "10" "Tue"; row "9" "Mon"; row "9" "Wed"] in
  let c := mk_json_course "101" "" ""
             [mk_slot_entry "10" "" "" ["Tue"];
              mk_slot_entry "9" "" "" ["Mon"; "Wed"]] in
  GetSlots.build_json [] st = [("101", c)]
  /\ StronglySorted Spec.slot_le (j_slots c).
Proof.
  intros row st c. split; [by vm_compute|].
  apply (slots_json_sorted [] st "101" c). vm_compute. by left.
Defined.

Lemma json_pairs_set acc k dflt c' slot :
  j_slots dflt = [] ->
  j_slots c' = j_slots (dict_get_default acc k dflt) ++ [slot] ->
  Spec.json_pairs (dict_set acc k c') ≡ₚ Spec.json_pairs acc ++ [(k, slot)].
Proof.
  intros Hd. unfold Spec.json_pairs, dict_get_default.
  induction acc as [|[k0 c0] acc IH]; cbn [dict_get dict_set].
  - intros H. cbn [flat_map fst snd]. rewrite H, Hd. done.
  - destruct (decide (k0 = k)) as [->|Hne]; cbn [flat_map fst snd].
    + intros ->. rewrite map_app. cbn [map]. rewrite <- !app_assoc.
      apply Permutation_app_head. apply Permutation_app_comm.
    + intros H. rewrite (IH H), <- app_assoc. done.
Qed.

Lemma add_json_slot_pairs courses segment_map acc kv :
  Spec.json_pairs (GetSlots.add_json_slot courses segment_map acc kv)
  ≡ₚ Spec.json_pairs acc ++ [(Spec.key_rcid kv, Spec.slot_of segment_map kv)].
Proof.
  destruct kv as [[[rcid slot_id] slot_cd] day_times].
  unfold GetSlots.add_json_slot.
  eapply json_pairs_set; [|reflexivity]. reflexivity.
Qed.

Lemma fold_json_pairs courses segment_map l : forall acc,
  Spec.json_pairs (fold_left (GetSlots.add_json_slot courses segment_map) l acc)
  ≡ₚ Spec.json_pairs acc
     ++ map (fun kv => (Spec.key_rcid kv, Spec.slot_of segment_map kv)) l.
Proof.
  induction l as [|kv l IH]; intros acc; simpl.
  - by rewrite app_nil_r.
  - rewrite IH, add_json_slot_pairs, <- app_assoc. done.
Qed.

Lemma sort_slots_pairs acc :
  Spec.json_pairs (map (fun '(rcid, c) => (rcid, GetSlots.sort_slots c)) acc)
  ≡ₚ Spec.json_pairs acc.
Proof.
  unfold Spec.json_pairs.
  induction acc as [|[k c] acc IH]; simpl; [done|].
  apply Permutation_app; [|done].
  apply Permutation_map, sorted_perm.
Qed.

(** X14. The slots of slots.json, each taken with the course-id it is
    filed under, are exactly the slots of the keys of the aggregation,
    each once and under the course-id of its key: no key is lost, no slot
    is repeated or made up. The course-ids of slots.json are distinct and
    are those of the keys. *)
Theorem slots_json_content (courses : dict string GetSlots.CourseMeta)
    (st : GetSlots.agg) :
  let json := GetSlots.build_json courses st in
  Spec.json_pairs json ≡ₚ Spec.key_pairs st
  /\ NoDup (dict_keys json)
  /\ Spec.total_slots json = length (GetSlots.slot_map st)
  /\ (forall k, In k (dict_keys json) <->
                exists kv, In kv (GetSlots.slot_map st) /\ Spec.key_rcid kv = k)
  /\ (forall kv,
         In kv (GetSlots.slot_map st) ->
         exists c, dict_get json (Spec.key_rcid kv) = Some c
                   /\ In (Spec.slot_of (GetSlots.segment_map st) kv) (j_slots c))
  /\ (forall k c slot,
         In (k, c) json -> In slot (j_slots c) ->
         exists kv, In kv (GetSlots.slot_map st) /\ Spec.key_rcid kv = k
                    /\ slot = Spec.slot_of (GetSlots.segment_map st) kv).
Proof.
  destruct (build_json_inv courses st) as (Hnd & Htot & Hkeys & Hslots).
  set (acc := fold_left _ _ _) in *.
  assert (Hk : dict_keys (GetSlots.build_json courses st) = dict_keys acc).
  { unfold GetSlots.build_json, dict_keys. fold acc. rewrite map_map.
    apply map_ext. by intros [k c]. }
  simpl. split; [|split; [by rewrite Hk|split; [|split; [|split]]]].
  - unfold GetSlots.build_json, Spec.key_pairs.
    by rewrite sort_slots_pairs, fold_json_pairs.
  - rewrite <- Htot. unfold Spec.total_slots, GetSlots.build_json. fold acc.
    rewrite map_map. f_equal. apply map_ext. intros [k c]. simpl.
    apply sorted_length.
  - intros k. by rewrite Hk.
  - intros [[[rcid slot_id] slot_cd] day_times] Hin.
    destruct (build_json_keeps courses st rcid slot_id slot_cd day_times Hin)
      as (c & Hget & _ & _ & _ & Hslot).
    by exists c.
  - intros k c slot (c0 & Hin & ->)%build_json_entries Hslot.
    simpl in Hslot. apply sorted_In in Hslot. by apply (Hslots k c0).
Qed.

Lemma slots_json_content_witness :
  let row (id : Z) (sid day : string) : GetSlots.item :=
    [("runningCourseId", GetSlots.JInt id); ("courseSlotId", GetSlots.JStr sid);
     ("slotPeriodCdDays", GetSlots.JStr day)] in
  let st := GetSlots.process_items (GetSlots.mk_agg [] [])
              [row 102 "1" "Mon"; row 101 "2" "Tue"; row 102 "3" "Wed"] in
  let json := GetSlots.build_json [] st in
  Spec.json_pairs json ≡ₚ Spec.key_pairs st
  /\ Spec.total_slots json = 3%nat
  /\ exists c, dict_get json "102" = Some c
               /\ In (Spec.slot_of (GetSlots.segment_map st)
                                   (("102", "3", ""), {[ "Wed" ]}))
                     (j_slots c).
Proof.
  intros row st json.
  pose proof (slots_json_content [] st) as H. cbv zeta in H. fold json in H.
  destruct H as (Hperm & _ & Htotal & _ & Hkeeps & _).
  split; [exact Hperm|]. split; [by rewrite Htotal|].
  apply (Hkeeps (("102", "3", ""), {[ "Wed" ]})).
  vm_compute. right; right; by left.
Defined.

(** ** The merge: fallback, records, order *)

Lemma fold_read_csv_slot_nil m : fold_left Combine.read_csv_slot [] m = m.
Proof. done. Qed.

(** X15. When slots.json gives at least one slot-code, slots.csv is not
    read: the two maps, and the merged table, are what they are without
    slots.csv. *)
Theorem csv_ignored_when_json_has_code
    (strptime : string -> outcome datetime)
    (files : list (option (list csv_row)))
    (json : option (dict string json_course)) (csv : option (list csv_row)) :
  Spec.no_json_code json = false ->
  Combine.read_slots json csv = Combine.read_slots json None
  /\ Combine.merged_courses strptime files json csv
     = Combine.merged_courses strptime files json None.
Proof.
  intros Hno.
  assert (H : Combine.read_slots json csv = Combine.read_slots json None).
  { rewrite !read_slots_fallback. unfold Spec.fallback_rows. rewrite Hno.
    by destruct csv. }
  split; [done|]. unfold Combine.merged_courses. by rewrite H.
Qed.

Lemma csv_ignored_when_json_has_code_witness :
  let json := Some [("7", mk_json_course "7" "" ""
                            [mk_slot_entry "1" "S1" "" ["Mon"]])] in
  let csv := Some [[("rcid", "7"); ("segName", "C"); ("courseSlotCd", "Z")]] in
  Combine.read_slots json csv = Combine.read_slots json None.
Proof.
  intros json csv.
  exact (proj1 (csv_ignored_when_json_has_code Spec.strptime_fixture [] json csv
                  eq_refl)).
Defined.

(** X16. For every course-id of the metadata the merged table holds the
    record made of the code, name, coordinator and credits of the first
    metadata row with that id, of the authoritative segment-name or else
    the segment computed from the dates of that row, and of the
    representative slot-code or else the empty string. *)
Theorem merged_record_of_first_row
    (strptime : string -> outcome datetime)
    (files : list (option (list csv_row)))
    (json : option (dict string json_course)) (csv : option (list csv_row))
    (rcid : string) (row : csv_row) :
  rcid <> "" ->
  Spec.first_row (Spec.metadata_rows files) rcid = Some row ->
  In (Combine.mk_course rcid (cell row "ccode") (cell row "cname")
        (cell row "coordname") (cell row "ccrd")
        match Spec.authoritative_segment json csv rcid with
        | Some s => s
        | None => Combine.determine_segment
                    (Combine.parse_date strptime (cell row "strtdt"))
                    (Combine.parse_date strptime (cell row "enddt"))
        end
        match Spec.representative_code json csv rcid with
        | Some s => s
        | None => ""
        end)
     (Combine.merged_courses strptime files json csv).
Proof.
  intros Hne Hrow. apply merged_courses_In.
  exists rcid, (Combine.course_of_row strptime rcid row). split.
  - apply dict_get_In.
    destruct (cb_read_files strptime files rcid []) as [_ Hg].
    unfold Combine.read_courses. rewrite (Hg Hne), Hrow. done.
  - unfold Combine.merge_course.
    rewrite read_slots_code, read_slots_segment by by apply truthy_true.
    by destruct (Spec.representative_code json csv rcid),
         (Spec.authoritative_segment json csv rcid).
Qed.

Lemma merged_record_of_first_row_witness :
  let files := [Some [[("rcid", "7"); ("ccode", " CS7 "); ("ccrd", "3");
                       ("strtdt", "05 Jan, 2026 00:00");
                       ("enddt", "20 Mar, 2026 00:00")];
                      [("rcid", "7"); ("ccode", "OLD")]]] in
  In (Combine.mk_course "7" "CS7" "" "" "3" "1-4" "")
     (Combine.merged_courses Spec.strptime_fixture files None None).
Proof.
  intros files.
  apply (merged_record_of_first_row Spec.strptime_fixture files None None "7"
           [("rcid", "7"); ("ccode", " CS7 "); ("ccrd", "3");
            ("strtdt", "05 Jan, 2026 00:00"); ("enddt", "20 Mar, 2026 00:00")]).
  - discriminate.
  - reflexivity.
Defined.

(** X17. The merged table is in ascending order of course code, compared
    as plain strings. *)
Theorem merged_table_sorted_by_code
    (strptime : string -> outcome datetime)
    (files : list (option (list csv_row)))
    (json : option (dict string json_course)) (csv : option (list csv_row)) :
  StronglySorted
    (fun a b => Spec.str_le (Combine.ccode a) (Combine.ccode b))
    (Combine.merged_courses strptime files json csv).
Proof.
  unfold Combine.merged_courses, Combine.sorted_courses.
  set (lt := fun a b => String.ltb (Combine.ccode a) (Combine.ccode b)).
  apply (StronglySorted_weaken (fun a b => lt b a = false)).
  - intros a b _ _. apply string_ltb_false.
  - apply (sorted_sorted lt (fun _ => True)).
    + intros a b _ _. apply string_ltb_asym.
    + intros a b c _ _ _. unfold lt. rewrite !string_ltb_false.
      apply string_leb_trans.
    + by apply List.Forall_forall.
Qed.

(** A row with the columns of the slots.csv that get_slots writes gives
    the fallback neither a slot-code nor a segment-name. *)
Lemma read_csv_slot_own_header m row :
  dict_keys row = GetSlots.csv_fieldnames -> Combine.read_csv_slot m row = m.
Proof.
  intros Hkeys.
  assert (Hslot : Combine.csv_slot row = "").
  { unfold Combine.csv_slot, Combine.first_key. rewrite Hkeys. simpl.
    unfold cell, dict_get_default. rewrite dict_get_not_In; [done|].
    rewrite Hkeys. simpl. intuition discriminate. }
  assert (Hseg : Combine.csv_segment row = "").
  { unfold Combine.csv_segment, Combine.first_key. rewrite Hkeys. simpl.
    unfold cell, dict_get_default. rewrite dict_get_not_In; [done|].
    rewrite Hkeys. simpl. intuition discriminate. }
  unfold Combine.read_csv_slot. rewrite Hslot, Hseg. simpl.
  destruct m. by destruct (truthy _).
Qed.

(** X18. A slots.csv whose columns are those get_slots writes (rcid,
    ccode, cname, cegName, slotPeriodCdDays) gives the merge nothing: with
    it the two maps are what they are without it. *)
Theorem own_slots_csv_gives_nothing
    (json : option (dict string json_course)) (rows : list csv_row) :
  Forall (fun row => dict_keys row = GetSlots.csv_fieldnames) rows ->
  Combine.read_slots json (Some rows) = Combine.read_slots json None.
Proof.
  intros Hrows. rewrite !read_slots_fallback.
  unfold Spec.fallback_rows. destruct (Spec.no_json_code json); [|done].
  cbn [fold_left]. generalize (match json with
                               | Some data =>
                                   Combine.read_slots_json data
                                     (Combine.mk_slot_maps [] [])
                               | None => Combine.mk_slot_maps [] []
                               end).
  induction Hrows as [|row rows Hrow _ IH]; intros m; simpl; [done|].
  rewrite read_csv_slot_own_header by done. apply IH.
Qed.

Lemma own_slots_csv_gives_nothing_witness :
  Combine.read_slots None
    (Some [[("rcid", "101"); ("ccode", "CS101"); ("cname", "Logic");
            ("cegName", "2"); ("slotPeriodCdDays", "Mon | Tue")]])
  = Combine.read_slots None None.
Proof.
  apply own_slots_csv_gives_nothing. repeat constructor.
Defined.

(** ** The classifier: monotone, and empty only without a date *)

Lemma bucket_lower_bound bounds catch_all d lo :
  Forall (fun bl => lo <= snd bl) bounds -> lo <= catch_all ->
  lo <= Spec.bucket bounds catch_all d.
Proof.
  intros Hall Hc. induction bounds as [|[b l] bounds IH]; simpl; [done|].
  apply Forall_cons in Hall as [Hl Hall].
  destruct (Datetime.leb d b); [done|by apply IH].
Qed.

Lemma bucket_mono bounds catch_all d d' :
  StronglySorted Z.le (map snd bounds ++ [catch_all]) ->
  Datetime.leb d d' = true ->
  Spec.bucket bounds catch_all d <= Spec.bucket bounds catch_all d'.
Proof.
  intros Hs Hle. induction bounds as [|[b l] bounds IH]; simpl; [lia|].
  simpl in Hs. apply StronglySorted_inv in Hs as [Hs Hall].
  destruct (Datetime.leb d' b) eqn:Hd'.
  - by rewrite (leb_trans d d' b).
  - destruct (Datetime.leb d b); [|by apply IH].
    rewrite List.Forall_forall in Hall. apply bucket_lower_bound.
    + apply List.Forall_forall. intros bl Hbl. apply Hall.
      apply in_or_app. left. by apply in_map.
    + apply Hall. apply in_or_app. right. by left.
Qed.

Lemma append_dash_nonempty x y : x +:+ "-" +:+ y <> "".
Proof. destruct x; discriminate. Qed.

(** X19. With both dates present the label is never empty and is made of
    a start bucket between 1 and 5 and an end bucket between 2 and 6;
    both are monotone: a later start never gives a smaller start bucket,
    a later end never a smaller end bucket. *)
Theorem segment_buckets_monotone (s s' e e' : datetime) :
  Datetime.leb s s' = true -> Datetime.leb e e' = true ->
  exists a b a' b',
    Combine.determine_segment (Some s) (Some e)
    = str_of_int a +:+ "-" +:+ str_of_int b
    /\ Combine.determine_segment (Some s') (Some e')
       = str_of_int a' +:+ "-" +:+ str_of_int b'
    /\ 1 <= a <= a' /\ a' <= 5 /\ 2 <= b <= b' /\ b' <= 6
    /\ Combine.determine_segment (Some s) (Some e) <> "".
Proof.
  intros Hs He.
  exists (Spec.bucket Spec.start_boundaries 5 s),
         (Spec.bucket Spec.end_boundaries 6 e),
         (Spec.bucket Spec.start_boundaries 5 s'),
         (Spec.bucket Spec.end_boundaries 6 e').
  rewrite !determine_segment_some.
  split; [done|]. split; [done|].
  assert (Hsm := bucket_mono Spec.start_boundaries 5 s s').
  assert (Hem := bucket_mono Spec.end_boundaries 6 e e').
  split; [split|split; [|split; [split|split]]].
  - apply bucket_lower_bound; [repeat constructor; simpl; lia|lia].
  - apply Hsm; [|done]. simpl. repeat constructor; lia.
  - simpl. repeat (destruct (Datetime.leb s' _); [lia|]). lia.
  - apply bucket_lower_bound; [repeat constructor; simpl; lia|lia].
  - apply Hem; [|done]. simpl. repeat constructor; lia.
  - simpl. repeat (destruct (Datetime.leb e' _); [lia|]). lia.
  - apply append_dash_nonempty.
Qed.

Lemma segment_buckets_monotone_witness :
  exists a b a' b',
    Combine.determine_segment (Some (date 2026 1 5)) (Some (date 2026 2 9))
    = str_of_int a +:+ "-" +:+ str_of_int b
    /\ Combine.determine_segment (Some (date 2026 3 1)) (Some (date 2026 5 1))
       = str_of_int a' +:+ "-" +:+ str_of_int b'
    /\ 1 <= a <= a' /\ a' <= 5 /\ 2 <= b <= b' /\ b' <= 6
    /\ Combine.determine_segment (Some (date 2026 1 5)) (Some (date 2026 2 9))
       <> "".
Proof.
  apply segment_buckets_monotone; reflexivity.
Defined.

(** ** Batching: the small cases *)

(** X20. With a positive batch size, no id gives no batch, and a list of
    at most [n] ids gives the one batch that is the list itself. *)
Theorem chunked_small (values : list string) (n : Z) :
  0 < n -> GetSlots.len values <= n ->
  GetSlots.chunked values n = Return (if values is [] then [] else [values]).
Proof.
  intros Hn Hlen.
  destruct (chunked_positive values n Hn)
    as (batches & -> & Hcat & [Hlo Hhi] & _ & Hall & _).
  f_equal. unfold GetSlots.len in *.
  destruct batches as [|b1 [|b2 batches]].
  - simpl in Hcat. by subst values.
  - simpl in Hcat. rewrite app_nil_r in Hcat. subst b1.
    apply Forall_cons in Hall as [[Hpos _] _]. by destruct values.
  - simpl length in Hlo. nia.
Qed.

Lemma chunked_small_witness :
  GetSlots.chunked ["101"; "102"] 20 = Return [["101"; "102"]].
Proof. apply (chunked_small ["101"; "102"] 20); [lia | by vm_compute]. Defined.

(** ** parse_combo_response: which records reach the CSV file *)

Section ParseComboFacts.
Import ParseCombo.

Local Abbreviation add_item :=
  (fun (row : dict string string) (item : string * string) =>
     let '(column_alias, column_value) := item in
     if truthy column_alias then dict_set row column_alias column_value
     else row).

Lemma find_app_last {A} (p : A -> bool) l x :
  List.find p (l ++ [x]) =
    match List.find p l with
    | Some y => Some y
    | None => if p x then Some x else None
    end.
Proof.
  induction l as [|y l IH]; simpl; [done|]. by destruct (p y).
Qed.

Lemma fold_add_item_get e a : forall acc,
  a <> "" ->
  dict_get (fold_left add_item e acc) a =
    match List.find (fun item => bool_decide (fst item = a)) (rev e) with
    | Some item => Some (snd item)
    | None => dict_get acc a
    end.
Proof.
  induction e as [|[k v] e IH]; intros acc Hne; [done|].
  cbn [fold_left rev]. rewrite IH by done.
  change (List.rev e) with (rev e). rewrite find_app_last.
  destruct (List.find _ (rev e)); [done|]. simpl.
  case_bool_decide as Heq.
  - subst k. rewrite (proj2 (truthy_true a) Hne). by rewrite dict_get_set_eq.
  - destruct (truthy k); [|done]. by rewrite dict_get_set_ne.
Qed.

Lemma fold_add_item_keys e k : forall acc,
  In k (dict_keys (fold_left add_item e acc))
  <-> In k (dict_keys acc) \/ In k (Spec.aliases e).
Proof.
  unfold Spec.aliases, headers_of.
  induction e as [|[a v] e IH]; intros acc; simpl; [tauto|].
  rewrite IH. destruct (truthy a) eqn:Ha; simpl; [|tauto].
  rewrite dict_set_keys. destruct (dict_mem acc a) eqn:Hm.
  - split; [tauto|]. intros [?|[<-|?]]; try tauto. left.
    unfold dict_mem in Hm. destruct (dict_get acc a) eqn:Hg; [|done].
    apply dict_get_In in Hg. apply in_map_iff. by exists (a, s).
  - rewrite in_app_iff. simpl. tauto.
Qed.

Lemma writerow_covered headers e :
  Spec.covered headers e -> Forall (fun h => h <> "") headers ->
  GetSlots.writerow headers (row_of e) = Return (Spec.line_of headers e).
Proof.
  intros Hcov Hne. unfold GetSlots.writerow.
  assert (Hnil : List.filter (fun k => negb (bool_decide (k ∈ headers)))
                             (dict_keys (row_of e)) = []).
  { destruct (List.filter _ _) as [|k l] eqn:Hf; [done|]. exfalso.
    assert (Hin : In k (List.filter (fun k => negb (bool_decide (k ∈ headers)))
                                    (dict_keys (row_of e))))
      by (rewrite Hf; by left).
    apply filter_In in Hin as [Hin Hb].
    apply (fold_add_item_keys e k []) in Hin as [[]|Hin].
    apply negb_true_iff, bool_decide_eq_false in Hb.
    apply Hb, list_elem_of_In, Hcov, Hin. }
  rewrite Hnil. f_equal. unfold Spec.line_of.
  apply map_ext_in. intros h Hh.
  unfold dict_get_default, row_of, Spec.value_of.
  rewrite fold_add_item_get.
  - by destruct (List.find _ (rev e)).
  - rewrite List.Forall_forall in Hne. by apply Hne.
Qed.

Lemma writerow_not_covered headers e :
  ~ Spec.covered headers e ->
  GetSlots.writerow headers (row_of e) = Raise ValueError.
Proof.
  intros Hncov. unfold GetSlots.writerow.
  destruct (List.filter _ _) as [|k l] eqn:Hf; [|done]. exfalso.
  apply Hncov. intros a Ha.
  destruct (bool_decide (a ∈ headers)) eqn:Hb.
  { apply bool_decide_eq_true in Hb. by apply list_elem_of_In. }
  assert (Hin : In a (List.filter (fun k => negb (bool_decide (k ∈ headers)))
                                  (dict_keys (row_of e)))).
  { apply filter_In. split; [|by rewrite Hb].
    apply (fold_add_item_keys e a []). by right. }
  by rewrite Hf in Hin.
Qed.

Lemma headers_nonempty first : Forall (fun h => h <> "") (headers_of first).
Proof.
  unfold headers_of. apply List.Forall_forall.
  intros h ([a v] & <- & [_ Ht]%filter_In)%in_map_iff. by apply truthy_true.
Qed.

Lemma writerows_covered headers records :
  Forall (fun h => h <> "") headers ->
  Forall (Spec.covered headers) records ->
  writerows headers (map row_of records)
  = (map (Spec.line_of headers) records, None).
Proof.
  intros Hne Hall. induction Hall as [|e records He _ IH]; simpl; [done|].
  by rewrite writerow_covered, IH.
Qed.

Lemma writerows_stops headers good bad rest :
  Forall (fun h => h <> "") headers ->
  Forall (Spec.covered headers) good -> ~ Spec.covered headers bad ->
  writerows headers (map row_of (good ++ bad :: rest))
  = (map (Spec.line_of headers) good, Some ValueError).
Proof.
  intros Hne Hall Hbad. induction Hall as [|e good He _ IH]; simpl.
  - by rewrite writerow_not_covered.
  - by rewrite writerow_covered, IH.
Qed.
End ParseComboFacts.

(** X21. When every record of the combo data uses only aliases of the
    first record, the CSV file gets the header line (the non-empty aliases
    of the first record) and one line per record, each cell being the last
    value the record gives for the header, or empty when it gives none. *)
Theorem combo_rows_written (first : ParseCombo.entry)
    (rest : list ParseCombo.entry) :
  let headers := ParseCombo.headers_of first in
  Forall (Spec.covered headers) rest ->
  ParseCombo.parse_combo_data_to_csv (first :: rest)
  = Some (headers :: map (Spec.line_of headers) (first :: rest), None).
Proof.
  intros headers Hall. unfold ParseCombo.parse_combo_data_to_csv. fold headers.
  rewrite writerows_covered; [done|apply headers_nonempty|].
  constructor; [|done]. by intros a Ha.
Qed.

Lemma combo_rows_written_witness :
  ParseCombo.parse_combo_data_to_csv
    [[("rcid", "101"); ("", "x"); ("ccode", "CS101"); ("rcid", "102")];
     [("ccode", "CS103")]]
  = Some ([["rcid"; "ccode"; "rcid"]; ["102"; "CS101"; "102"];
           [""; "CS103"; ""]], None).
Proof.
  refine (combo_rows_written
            [("rcid", "101"); ("", "x"); ("ccode", "CS101"); ("rcid", "102")]
            [[("ccode", "CS103")]] _).
  constructor; [|constructor].
  intros x Hx. vm_compute in Hx. vm_compute. tauto.
Defined.

(** X22. Without combo data nothing is written. A record that has an
    alias the first record lacks makes the writer raise [ValueError]: the
    header line and the lines of the records before it are written, that
    record and those after it are not. *)
Theorem combo_unknown_alias_raises (first bad : ParseCombo.entry)
    (good rest : list ParseCombo.entry) :
  let headers := ParseCombo.headers_of first in
  ParseCombo.parse_combo_data_to_csv [] = None
  /\ (Forall (Spec.covered headers) good -> ~ Spec.covered headers bad ->
      ParseCombo.parse_combo_data_to_csv (first :: good ++ bad :: rest)
      = Some (headers :: map (Spec.line_of headers) (first :: good),
              Some ValueError)).
Proof.
  intros headers. split; [done|]. intros Hall Hbad.
  unfold ParseCombo.parse_combo_data_to_csv. fold headers.
  change (first :: good ++ bad :: rest) with ((first :: good) ++ bad :: rest).
  rewrite writerows_stops; [done|apply headers_nonempty| |done].
  constructor; [|done]. by intros a Ha.
Qed.

Lemma combo_unknown_alias_raises_witness :
  ParseCombo.parse_combo_data_to_csv
    [[("rcid", "101")]; [("rcid", "102")]; [("rcid", "103"); ("ccode", "C")];
     [("rcid", "104")]]
  = Some ([["rcid"]; ["101"]; ["102"]], Some ValueError).
Proof.
  refine (proj2 (combo_unknown_alias_raises [("rcid", "101")]
                   [("rcid", "103"); ("ccode", "C")]
                   [[("rcid", "102")]] [[("rcid", "104")]]) _ _).
  - constructor; [|constructor].
    intros x Hx. vm_compute in Hx. vm_compute. tauto.
  - intros H. specialize (H "ccode"). vm_compute in H.
    destruct H as [H|[]]; [tauto|discriminate H].
Defined.
